(** * Saras upload page: a shallow embedding of [app.py]

    The page keeps a list of uploaded-file records in the Streamlit session
    state, mirrors the uploaded bytes into the [uploads/] directory, shows
    three counters and lets the user delete one file or all of them.

    The embedding follows the Python source function by function:
    - Python integers are [Z]; [len] is [Z.of_nat (length _)];
    - the dictionaries appended by [process_uploads] always carry the four
      keys ["name"], ["path"], ["type"], ["size"], so they are records;
    - the session list, the disk and the elements drawn on the page are the
      three components of the state threaded through every handler;
    - [st.rerun()] and Python exceptions leave a handler early, so handlers
      live in a small state-and-outcome monad;
    - the disk says for every path whether writing it goes wrong and
      whether removing it is refused: [open] and [write] stand outside any
      [try] in the source, [os.remove] inside one;
    - [UPLOAD_DIR / file.name] is a [pathlib] join, which normalises the
      name and lets an absolute name replace the directory;
    - [size / 1024] is Python's true division: the binary64 number nearest
      to the quotient, which [f"{x:.1f}"] then rounds to one decimal. Both
      roundings are written out on integers. *)

From Stdlib Require Import ZArith Lia.
From stdpp Require Import base list strings gmap pretty.

(** ** Python runtime *)

Module Py.

(** Exceptions the modelled statements can raise. [OtherOSError] is an
    [OSError] without a class of its own, told by its [errno]
    ([ENAMETOOLONG], [ENOSPC], ...). *)
Inductive OSError :=
| FileNotFoundError
| PermissionError
| IsADirectoryError
| OtherOSError (errno : Z).

Inductive Exception :=
| IndexError
| OverflowError
| ZeroDivisionError
| ValueError
| UnicodeDecodeError
| OSErr (e : OSError).

(** Ways control leaves a handler before its last statement:
    an exception, or [st.rerun()], which halts the current script run. *)
Inductive Signal :=
| Raised (e : Exception)
| RerunException.

Inductive Outcome (A : Type) :=
| Returns (a : A)
| Stops (s : Signal).
Arguments Returns {A} a.
Arguments Stops {A} s.

Definition len {A} (l : list A) : Z := Z.of_nat (length l).

(** Position denoted by a Python index in a list of length [n]:
    negative indices count from the end. *)
Definition position (n : nat) (i : Z) : option nat :=
  if (0 <=? i)%Z then
    (if (i <? Z.of_nat n)%Z then Some (Z.to_nat i) else None)
  else
    (if (- Z.of_nat n <=? i)%Z then Some (Z.to_nat (Z.of_nat n + i)) else None).

(** [l[i]] *)
Definition getitem {A} (l : list A) (i : Z) : option A :=
  p ← position (length l) i; l !! p.

(** [l.pop(i)]: the removed element and the remaining list. *)
Definition pop {A} (l : list A) (i : Z) : option (A * list A) :=
  p ← position (length l) i; x ← l !! p; Some (x, delete p l).

(** [True == 1], [False == 0]: a Python bool compared with an int. *)
Definition int_of_bool (b : bool) : Z := if b then 1%Z else 0%Z.

End Py.
Import Py.

(** ** binary64 arithmetic used by the size label *)

Module Float.
Local Open Scope Z_scope.

(** A finite binary64 value [mant * 2 ^ expo]. *)
Record float := { mant : Z; expo : Z }.

(** [n / d] rounded to the nearest integer, ties to the even one
    ([0 <= n], [0 < d]). *)
Definition div_half_even (n d : Z) : Z :=
  let q := n / d in
  let r := n mod d in
  if 2 * r <? d then q
  else if d <? 2 * r then q + 1
  else if Z.even q then q else q + 1.

(** [n * 2 ^ e] rounded to the nearest integer, ties to even. *)
Definition scale_half_even (n e : Z) : Z :=
  if 0 <=? e then n * 2 ^ e else div_half_even n (2 ^ (- e)).

(** Exponent of the unit in the last place of the positive quotient
    [n / d]: the [e] with [2^52 <= n / (d * 2^e) < 2^53], not below the
    subnormal exponent. *)
Definition ulp_expo (n d : Z) : Z :=
  let g := Z.log2 n - Z.log2 d in
  let above := if 0 <=? g then d * 2 ^ g <=? n else d <=? n * 2 ^ (- g) in
  Z.max (if above then g - 52 else g - 53) (-1074).

(** The binary64 number nearest to [n / d] for [0 < n], [0 < d]. *)
Definition nearest (n d : Z) : float :=
  let e := ulp_expo n d in
  let m := if 0 <=? e then div_half_even n (d * 2 ^ e)
           else div_half_even (n * 2 ^ (- e)) d in
  {| mant := m; expo := e |}.

Definition finite (x : float) : bool :=
  if 0 <=? expo x then Z.abs (mant x) * 2 ^ expo x <? 2 ^ 1024
  else true.

(** [a / b] on Python integers (true division): correctly rounded,
    [OverflowError] when the result is too large for a float. *)
Definition truediv (a b : Z) : Outcome float :=
  if b =? 0 then Stops (Raised ZeroDivisionError)
  else if a =? 0 then Returns {| mant := 0; expo := 0 |}
  else
    let x := nearest (Z.abs a) (Z.abs b) in
    if finite x
    then Returns {| mant := Z.sgn a * Z.sgn b * mant x; expo := expo x |}
    else Stops (Raised OverflowError).

(** Number of tenths shown by [f"{x:.1f}"]: [10 * |x|] to the nearest
    integer, ties to even. *)
Definition tenths (x : float) : Z :=
  scale_half_even (10 * Z.abs (mant x)) (expo x).

(** The digits of a count of tenths: ["12.3"] for [123]. *)
Definition fixed1 (t : Z) : string :=
  pretty (t / 10) +:+ "." +:+ pretty (t mod 10).

(** [f"{x:.1f}"] *)
Definition format_1f (x : float) : string :=
  (if mant x <? 0 then "-" else "") +:+ fixed1 (tenths x).

End Float.

(** ** The disk *)

Abbreviation bytes := (list Byte.byte).

Module Disk.

(** How writing a file can go wrong: [open(p, "wb")] raises before the
    file is touched (a directory of the path is missing, the name is too
    long or holds a null character, the file or the directory is
    read-only, the path is a directory), or the file is opened, hence
    created or truncated, and only its first [written] bytes reach it
    before the write or the close raises (disk full, quota). *)
Inductive Fault :=
| open_fails (e : Exception)
| write_fails (e : Exception) (written : nat).

(** Files by path, the paths whose removal the operating system refuses
    (read-only directory, foreign owner, ...), and for each path what goes
    wrong when it is written, if anything does. A path is the string
    handed to [open] and [os.remove]; two paths are the same file when
    they are equal, as it is for the paths [uploads/<name>] of plain
    names. *)
Record t := {
  files : gmap string bytes;
  locked : gset string;
  faults : string → option Fault
}.

(** The file at [p] created or replaced, holding [data]. *)
Definition put (p : string) (data : bytes) (d : t) : t :=
  {| files := <[p := data]> (files d); locked := locked d;
     faults := faults d |}.

(** [with open(p, "wb") as f_out: f_out.write(data)]: the disk afterwards
    and the exception raised, if any. *)
Definition write (p : string) (data : bytes) (d : t) : t * option Exception :=
  match faults d p with
  | None => (put p data d, None)
  | Some (open_fails e) => (d, Some e)
  | Some (write_fails e written) => (put p (take written data) d, Some e)
  end.

(** [os.remove(p)] *)
Definition remove (p : string) (d : t) : t * option OSError :=
  match files d !! p with
  | None => (d, Some FileNotFoundError)
  | Some _ =>
      if decide (p ∈ locked d) then (d, Some PermissionError)
      else ({| files := delete p (files d); locked := locked d;
               faults := faults d |}, None)
  end.

End Disk.

(** ** Data model *)

(** Streamlit's [UploadedFile] as [st.file_uploader] hands it over: a
    [BytesIO] positioned at its start, with the browser's file name and
    MIME type. *)
Record UploadedFile := {
  file_name : string;
  file_type : string;
  file_buffer : bytes
}.

(** [file.read()] on a stream at position 0, and [file.getvalue()]. *)
Definition read (file : UploadedFile) : bytes := file_buffer file.
Definition getvalue (file : UploadedFile) : bytes := file_buffer file.

(** [hasattr(file, 'getvalue')]: [UploadedFile] derives from [io.BytesIO]. *)
Definition hasattr_getvalue (file : UploadedFile) : bool := true.

(** The dictionary [{"name": .., "path": .., "type": .., "size": ..}]. *)
Record FileInfo := {
  name : string;
  path : string;
  type : string;
  size : Z
}.

#[global] Instance FileInfo_eq_dec : EqDecision FileInfo.
Proof. solve_decision. Defined.

(** What the handlers draw on the page. *)
Inductive Element :=
| markdown (html : string)
| success (text : string)
| error_failed_to_delete (e : OSError).

(** [st.session_state.uploaded_files], the [uploads/] directory and the
    elements emitted so far. *)
Record State := {
  uploaded_files : list FileInfo;
  disk : Disk.t;
  page : list Element
}.

(** ** Handlers as state transformers with early exit *)

Definition Script (A : Type) : Type := State → State * Outcome A.

Definition ret {A} (a : A) : Script A := λ s, (s, Returns a).

Definition bind {A B} (m : Script A) (k : A → Script B) : Script B :=
  λ s, match m s with
       | (s', Returns a) => k a s'
       | (s', Stops sig) => (s', Stops sig)
       end.

Declare Scope script_scope.
Delimit Scope script_scope with script.
Notation "x <~ m ;; k" := (bind m (λ x, k))
  (at level 100, m at next level, right associativity) : script_scope.
Notation "m ;;; k" := (bind m (λ _, k))
  (at level 100, right associativity) : script_scope.
Local Open Scope script_scope.

Definition raise {A} (e : Exception) : Script A := λ s, (s, Stops (Raised e)).

(** [st.rerun()] *)
Definition st_rerun {A} : Script A := λ s, (s, Stops RerunException).

Definition get_uploaded_files : Script (list FileInfo) :=
  λ s, (s, Returns (uploaded_files s)).

Definition set_uploaded_files (l : list FileInfo) : Script unit :=
  λ s, ({| uploaded_files := l; disk := disk s; page := page s |}, Returns tt).

Definition emit (e : Element) : Script unit :=
  λ s, ({| uploaded_files := uploaded_files s; disk := disk s;
           page := page s ++ [e] |}, Returns tt).

(** [with open(p, "wb") as f_out: f_out.write(data)] outside any [try]:
    an exception of the open or of the write leaves the handler. *)
Definition open_wb_write (p : string) (data : bytes) : Script unit :=
  λ s, let '(d, r) := Disk.write p data (disk s) in
       ({| uploaded_files := uploaded_files s; disk := d; page := page s |},
        match r with
        | None => Returns tt
        | Some e => Stops (Raised e)
        end).

(** [os.remove(p)] inside a [try]: the error, if any, is handed to the
    [except] clause instead of leaving the handler. *)
Definition try_os_remove (p : string) : Script (option OSError) :=
  λ s, let '(d, r) := Disk.remove p (disk s) in
       ({| uploaded_files := uploaded_files s; disk := d; page := page s |},
        Returns r).

(** [for x in l: body], threading the loop's local variable. *)
Fixpoint for_each {A V} (l : list A) (body : A → V → Script V) (v : V)
  : Script V :=
  match l with
  | [] => ret v
  | x :: l' => (v' <~ body x v ;; for_each l' body v')
  end.

(** ** The source functions *)

(** [s.split(sep)] for a separator of one character. *)
Fixpoint str_split (sep : Ascii.ascii) (s : string) : list string :=
  match s with
  | EmptyString => [EmptyString]
  | String c s' =>
      if decide (c = sep) then EmptyString :: str_split sep s'
      else match str_split sep s' with
           | [] => [String c EmptyString]
           | word :: words => String c word :: words
           end
  end.

(** The character ['/'], [chr(47)]. *)
Definition slash : Ascii.ascii := Ascii.ascii_of_nat 47.

(** [sep.join(l)] *)
Fixpoint str_join (sep : string) (l : list string) : string :=
  match l with
  | [] => EmptyString
  | [x] => x
  | x :: l' => x +:+ sep +:+ str_join sep l'
  end.

(** [s.startswith('/')] and [s.endswith('/')] *)
Definition starts_with_slash (s : string) : bool :=
  match s with
  | String c _ => bool_decide (c = slash)
  | EmptyString => false
  end.

Fixpoint ends_with_slash (s : string) : bool :=
  match s with
  | EmptyString => false
  | String c EmptyString => bool_decide (c = slash)
  | String _ s' => ends_with_slash s'
  end.

(** [posixpath.join(a, b)]: an absolute [b] replaces [a]. *)
Definition posix_join (a b : string) : string :=
  if starts_with_slash b then b
  else if bool_decide (a = EmptyString) || ends_with_slash a then a +:+ b
  else a +:+ "/" +:+ b.

(** [posixpath.splitroot(p)] without the drive, which is always empty:
    the root (["/"], or ["//"] for exactly two leading slashes) and the
    rest. *)
Definition splitroot (p : string) : string * string :=
  match p with
  | String c1 rest =>
      if bool_decide (c1 = slash) then
        match rest with
        | String c2 rest2 =>
            if bool_decide (c2 = slash) then
              match rest2 with
              | String c3 _ =>
                  if bool_decide (c3 = slash) then ("/", rest)
                  else ("//", rest2)
              | EmptyString => ("//", rest2)
              end
            else ("/", rest)
        | EmptyString => ("/", rest)
        end
      else (EmptyString, p)
  | EmptyString => (EmptyString, p)
  end.

(** The parts of a path that [pathlib] keeps: empty parts and ["."] are
    dropped, [".."] is not. *)
Definition path_parts (rel : string) : list string :=
  filter (λ x, x ≠ EmptyString ∧ x ≠ ".") (str_split slash rel).

(** [str(PurePosixPath(p))] *)
Definition str_path (p : string) : string :=
  let '(root, rel) := splitroot p in
  let shown := root +:+ str_join "/" (path_parts rel) in
  if bool_decide (shown = EmptyString) then "." else shown.

Definition UPLOAD_DIR : string := "uploads".

(** [str(dir / file)] for a [pathlib] path [dir] and a string [file]:
    the two are joined as [posixpath.join] does and the result is
    normalised, so that ["a.pdf"], ["./a.pdf"] and ["a.pdf/"] name the
    same file under [dir] and an absolute [file] leaves [dir]. A path is
    handed to [open] and to [os.remove] as this string. *)
Definition path_join (dir file : string) : string :=
  str_path (posix_join dir file).

Definition PDF : string := "application/pdf".

(** [sum(1 for f in files if f.get('type') == 'application/pdf')] *)
Definition sum_ones (files : list FileInfo) : Z :=
  foldr Z.add 0%Z
    ((λ _, 1%Z) <$> filter (λ f, type f = PDF) files).

Definition get_file_stats (s : State) : Z * Z * Z :=
  let files := uploaded_files s in
  let total_files := len files in
  let pdf_count := sum_ones files in
  let pptx_count := (total_files - pdf_count)%Z in
  (total_files, pdf_count, pptx_count).

Definition format_file_size (size : Z) : Outcome string :=
  if (1024 * 1024 <? size)%Z then
    match Float.truediv size (1024 * 1024) with
    | Returns x => Returns (Float.format_1f x +:+ " MB")
    | Stops sig => Stops sig
    end
  else if (1024 <? size)%Z then
    match Float.truediv size 1024 with
    | Returns x => Returns (Float.format_1f x +:+ " KB")
    | Stops sig => Stops sig
    end
  else Returns (pretty size +:+ " bytes").

(** The banner [process_uploads] draws; [quote] is the character
    [chr(34)] around the class name. *)
Definition quote : string := String (Ascii.ascii_of_nat 34) EmptyString.

Definition success_message : string :=
  "<div class=" +:+ quote +:+ "success-message" +:+ quote
  +:+ ">✅ Files uploaded successfully!</div>".

(** One turn of the loop of [process_uploads]. *)
Definition upload_one (file : UploadedFile) (new_files_added : bool)
  : Script bool :=
  let file_path := path_join UPLOAD_DIR (file_name file) in
  files <~ get_uploaded_files ;;
  let existing_names := name <$> files in
  if decide (file_name file ∉ existing_names) then
    open_wb_write file_path (read file) ;;;
    files <~ get_uploaded_files ;;
    set_uploaded_files
      (files ++ [ {| name := file_name file;
                     path := file_path;
                     type := file_type file;
                     size := if hasattr_getvalue file
                             then len (getvalue file) else 0%Z |} ]) ;;;
    ret true
  else ret new_files_added.

Definition process_uploads (uploaded : list UploadedFile) : Script bool :=
  match uploaded with
  | [] => ret false
  | _ =>
      new_files_added <~ for_each uploaded upload_one false ;;
      (if new_files_added : bool then
         emit (markdown success_message) ;;; st_rerun
       else ret tt) ;;;
      ret new_files_added
  end.

Definition delete_file (index : Z) : Script unit :=
  files <~ get_uploaded_files ;;
  match getitem files index with
  | None => raise IndexError
  | Some file_info =>
      r <~ try_os_remove (path file_info) ;;
      match r with
      | None => emit (success ("Deleted " +:+ name file_info))
      | Some e => emit (error_failed_to_delete e)
      end ;;;
      files <~ get_uploaded_files ;;
      match pop files index with
      | None => raise IndexError
      | Some (_, rest) => set_uploaded_files rest
      end ;;;
      st_rerun
  end.

Definition clear_all_files : Script unit :=
  files <~ get_uploaded_files ;;
  for_each files (λ file_info (_ : unit),
                    _ <~ try_os_remove (path file_info) ;; ret tt) tt ;;;
  set_uploaded_files [] ;;;
  st_rerun.

(** ** Sessions *)

(** The state [main] starts from: [uploaded_files = []], nothing drawn. *)
Definition initial (d : Disk.t) : State :=
  {| uploaded_files := []; disk := d; page := [] |}.

(** The user actions that reach the three mutating handlers. *)
Inductive Action :=
| AddFiles (batch : list UploadedFile)
| DeleteAt (index : Z)
| ClearAll.

Definition run (a : Action) (s : State) : State :=
  match a with
  | AddFiles batch => fst (process_uploads batch s)
  | DeleteAt index => fst (delete_file index s)
  | ClearAll => fst (clear_all_files s)
  end.

(** States reachable from an empty session. *)
Inductive reachable : State → Prop :=
| reachable_initial d : reachable (initial d)
| reachable_step a s : reachable s → reachable (run a s).

(** ** Vocabulary of the statements *)

Definition names (s : State) : list string := name <$> uploaded_files s.

(** The record [process_uploads] appends for an uploaded file. *)
Definition entry_of (file : UploadedFile) : FileInfo :=
  {| name := file_name file;
     path := path_join UPLOAD_DIR (file_name file);
     type := file_type file;
     size := len (file_buffer file) |}.

(** The items of a batch that are added: taken in order, an item is
    dropped when its name is among the names present at its turn. *)
Fixpoint fresh_items (existing : list string) (batch : list UploadedFile)
  : list UploadedFile :=
  match batch with
  | [] => []
  | file :: rest =>
      if decide (file_name file ∈ existing) then fresh_items existing rest
      else file :: fresh_items (existing ++ [file_name file]) rest
  end.

(** The disk once the payload of [file] is in place under its path. *)
Definition save (d : Disk.t) (file : UploadedFile) : Disk.t :=
  Disk.put (path_join UPLOAD_DIR (file_name file)) (file_buffer file) d.

(** The state after the items [kept] have been written and appended. *)
Definition with_added (s : State) (kept : list UploadedFile) : State :=
  {| uploaded_files := uploaded_files s ++ (entry_of <$> kept);
     disk := foldl save (disk s) kept;
     page := page s |}.

(** The exception a fault raises. *)
Definition fault_error (fault : Disk.Fault) : Exception :=
  match fault with
  | Disk.open_fails e => e
  | Disk.write_fails e _ => e
  end.

(** Of the items to be added, those in front of the first one whose write
    goes wrong on the disk [d]. *)
Fixpoint accepted (d : Disk.t) (fresh : list UploadedFile)
  : list UploadedFile :=
  match fresh with
  | [] => []
  | file :: rest =>
      match Disk.faults d (path_join UPLOAD_DIR (file_name file)) with
      | None => file :: accepted d rest
      | Some _ => []
      end
  end.

(** The first item whose write goes wrong, with what goes wrong. *)
Fixpoint refused (d : Disk.t) (fresh : list UploadedFile)
  : option (UploadedFile * Disk.Fault) :=
  match fresh with
  | [] => None
  | file :: rest =>
      match Disk.faults d (path_join UPLOAD_DIR (file_name file)) with
      | None => refused d rest
      | Some fault => Some (file, fault)
      end
  end.

(** The items of [batch] that [process_uploads] adds in the state [s], and
    the write that stops it, if one does. *)
Definition taken (s : State) (batch : list UploadedFile)
  : list UploadedFile :=
  accepted (disk s) (fresh_items (names s) batch).

Definition upload_fault (s : State) (batch : list UploadedFile)
  : option (UploadedFile * Disk.Fault) :=
  refused (disk s) (fresh_items (names s) batch).

(** What a write that went wrong leaves on the disk. *)
Definition spoiled (d : Disk.t) (r : option (UploadedFile * Disk.Fault))
  : Disk.t :=
  match r with
  | Some (file, Disk.write_fails _ written) =>
      Disk.put (path_join UPLOAD_DIR (file_name file))
        (take written (file_buffer file)) d
  | _ => d
  end.

Definition added_count (s : State) (batch : list UploadedFile) : Z :=
  len (taken s batch).

Definition is_nil {A} (l : list A) : bool :=
  match l with [] => true | _ => false end.

(** The characters of a string. *)
Fixpoint chars (s : string) : list Ascii.ascii :=
  match s with
  | EmptyString => []
  | String c s' => c :: chars s'
  end.

(** A file name as a browser sends it: a single path component, that is,
    not empty, not ["."] or [".."], and without a slash. Under [uploads/]
    two such names are the same file exactly when they are equal. *)
Definition plain_name (n : string) : Prop :=
  n ≠ EmptyString ∧ n ≠ "." ∧ n ≠ ".." ∧ slash ∉ chars n.

(** How a call that goes on after an upload ends: an exception of the
    rest of the batch leaves it, anything else ends in the rerun. *)
Definition then_rerun {A} (o : Outcome A) : Outcome A :=
  match o with
  | Stops (Raised e) => Stops (Raised e)
  | _ => Stops RerunException
  end.

(** Best-effort removal, as in the loop of [clear_all_files]. *)
Definition discard (d : Disk.t) (file_info : FileInfo) : Disk.t :=
  fst (Disk.remove (path file_info) d).

(** What [delete_file] tells the user about the removal of the file. *)
Definition deletion_notice (file_info : FileInfo) (r : option OSError)
  : Element :=
  match r with
  | None => success ("Deleted " +:+ name file_info)
  | Some e => error_failed_to_delete e
  end.

(** The state [s] over another disk. *)
Definition on_disk (d : Disk.t) (s : State) : State :=
  {| uploaded_files := uploaded_files s; disk := d; page := page s |}.

Definition PPTX : string :=
  "application/vnd.openxmlformats-officedocument.presentationml.presentation".

(** First size whose quotient by [1024 * 1024] no longer fits a float. *)
Definition overflow_size : Z := (2 ^ 1044 - 2 ^ 990)%Z.

(** An entry is backed by the disk [d] when its name is plain, its path
    is [uploads/<name>] and the file there has exactly ["size"] bytes. *)
Definition backed (d : Disk.t) (file_info : FileInfo) : Prop :=
  plain_name (name file_info)
  ∧ path file_info = "uploads/" +:+ name file_info
  ∧ ∃ data, Disk.files d !! path file_info = Some data
            ∧ size file_info = len data.

(** The actions whose uploads carry plain file names. *)
Definition plain_action (a : Action) : Prop :=
  match a with
  | AddFiles batch => Forall (λ file, plain_name (file_name file)) batch
  | _ => True
  end.

(** States reachable from an empty session by such actions. *)
Inductive reachable_plain : State → Prop :=
| reachable_plain_initial d : reachable_plain (initial d)
| reachable_plain_step a s :
    plain_action a → reachable_plain s → reachable_plain (run a s).

(** [1] when the entry counts as a PDF, else [0]. *)
Definition pdf_weight (file_info : FileInfo) : Z :=
  if decide (type file_info = PDF) then 1%Z else 0%Z.

(** ** The rest of the page *)

(** [get_file_icon_and_color]: the icon and the colour of a list row. *)
Definition get_file_icon_and_color (file_type : string) : string * string :=
  if decide (file_type = PDF) then ("📄", "#dc3545") else ("📊", "#28a745").

(** [file_type.split('/')[-1]] *)
Definition last_part (file_type : string) : string :=
  default EmptyString (getitem (str_split slash file_type) (-1)).

(** The newline character of the triple-quoted templates. *)
Definition nl : string := String (Ascii.ascii_of_nat 10) EmptyString.

(** The calls to Streamlit made during one run of the script, in order.
    [draw] stands for the three calls the handlers already make
    ([st.markdown], [st.success], [st.error]); [enter_column] and
    [leave_column] are the two ends of a [with col:] block. Options that
    only change the look (help texts, button types, widths,
    [unsafe_allow_html]) are not recorded. *)
Inductive Call :=
| draw (e : Element)
| warning (text : string)
| balloons
| set_page_config (page_title layout page_icon : string)
| columns (spec : Z + list Z)
| enter_column (k : nat)
| leave_column
| button (label : string) (key : option string)
| file_uploader (label : string) (types : list string).

(** What one run reads from outside: [styles.css] when that file exists
    (its text, or the exception that opening or decoding it raises), the
    files held by the uploader widget, and the buttons pressed, named by
    their key (by their label when they have no key). *)
Record Inputs := {
  styles_css : option (Exception + string);
  chosen : list UploadedFile;
  pressed : string → bool
}.

(** The program state seen by the script: the state of the handlers, the
    calls made so far, and whether ["uploaded_files"] is a key of
    [st.session_state] yet. *)
Record View := {
  app : State;
  calls : list Call;
  initialised : bool
}.

Definition Render (A : Type) : Type := View → View * Outcome A.

Definition rret {A} (a : A) : Render A := λ v, (v, Returns a).

Definition rbind {A B} (m : Render A) (k : A → Render B) : Render B :=
  λ v, match m v with
       | (v', Returns a) => k a v'
       | (v', Stops sig) => (v', Stops sig)
       end.

Declare Scope render_scope.
Delimit Scope render_scope with render.
Notation "x <~ m ;; k" := (rbind m (λ x, k))
  (at level 100, m at next level, right associativity) : render_scope.
Notation "m ;;; k" := (rbind m (λ _, k))
  (at level 100, right associativity) : render_scope.
Local Open Scope render_scope.

Definition record (c : Call) : Render unit :=
  λ v, ({| app := app v; calls := calls v ++ [c];
           initialised := initialised v |}, Returns tt).

(** A handler run from the script: what it draws is recorded as well. *)
Definition lift {A} (m : Script A) : Render A :=
  λ v, let '(s', r) := m (app v) in
       ({| app := s';
           calls := calls v
                    ++ (draw <$> drop (length (page (app v))) (page s'));
           initialised := initialised v |}, r).

Definition st_markdown (html : string) : Render unit :=
  lift (emit (markdown html)).

Definition st_success (text : string) : Render unit :=
  lift (emit (success text)).

(** [with cols[k]: body]; the block is left whichever way [body] ends. *)
Definition within {A} (k : nat) (body : Render A) : Render A :=
  λ v, match body (fst (record (enter_column k) v)) with
       | (v', r) => (fst (record leave_column v'), r)
       end.

(** An expression that may raise, evaluated inside the script. *)
Definition eval {A} (r : Outcome A) : Render A := λ v, (v, r).

(** [for i, x in enumerate(l): body], with [i] counted from [start]. *)
Fixpoint for_enumerate {A} (start : Z) (l : list A)
    (body : Z → A → Render unit) : Render unit :=
  match l with
  | [] => rret tt
  | x :: l' => (body start x ;;; for_enumerate (start + 1) l' body)
  end.

Definition load_css (inp : Inputs) : Render unit :=
  match styles_css inp with
  | Some (inr text) => st_markdown ("<style>" +:+ text +:+ "</style>")
  | Some (inl e) => eval (Stops (Raised e))
  | None =>
      record (warning "CSS file not found. Please ensure 'styles.css' is in the same directory.")
  end.

Definition render_header : Render unit :=
  st_markdown ("<h1 class=" +:+ quote +:+ "main-header" +:+ quote
               +:+ ">🎓 Saras AI Tutor</h1>") ;;;
  st_markdown ("<p class=" +:+ quote +:+ "subtitle" +:+ quote
               +:+ ">Transform your presentations into interactive learning experiences</p>").

(** The template of the three boxes of [render_statistics]. *)
Definition stat_box (number : Z) (label : string) : string :=
  nl +:+ "        <div class=" +:+ quote +:+ "stat-box" +:+ quote +:+ ">"
  +:+ nl +:+ "            <div class=" +:+ quote +:+ "stat-number" +:+ quote
  +:+ ">" +:+ pretty number +:+ "</div>"
  +:+ nl +:+ "            <div class=" +:+ quote +:+ "stat-label" +:+ quote
  +:+ ">" +:+ label +:+ "</div>"
  +:+ nl +:+ "        </div>"
  +:+ nl +:+ "        ".

Definition render_statistics : Render unit :=
  stats <~ (λ v, (v, Returns (get_file_stats (app v)))) ;;
  let '(total_files, pdf_count, pptx_count) := stats in
  record (columns (inl 3%Z)) ;;;
  within 0 (st_markdown (stat_box total_files "Files Uploaded")) ;;;
  within 1 (st_markdown (stat_box pdf_count "PDF Files")) ;;;
  within 2 (st_markdown (stat_box pptx_count "PPTX Files")).

Definition render_upload_section (inp : Inputs)
  : Render (list UploadedFile) :=
  st_markdown ("<div class=" +:+ quote +:+ "upload-section" +:+ quote
               +:+ ">") ;;;
  st_markdown "### 📁 Upload Your Files" ;;;
  st_markdown "Drag and drop your **PPTX** or **PDF** files here, or click to browse." ;;;
  record (file_uploader "Choose files" ["pptx"; "pdf"]) ;;;
  let uploaded_files := chosen inp in
  st_markdown "</div>" ;;;
  rret uploaded_files.

Definition render_empty_state : Render unit :=
  st_markdown
    (nl +:+ "    <div class=" +:+ quote +:+ "empty-state" +:+ quote +:+ ">"
     +:+ nl +:+ "        <div class=" +:+ quote +:+ "empty-state-icon"
     +:+ quote +:+ ">📁</div>"
     +:+ nl +:+ "        <h3>No files uploaded yet</h3>"
     +:+ nl +:+ "        <p>Upload your first presentation or PDF to get started with AI-powered lectures!</p>"
     +:+ nl +:+ "    </div>"
     +:+ nl +:+ "    ").

(** The template of a row of [render_file_list]. *)
Definition file_item (icon file_name type_color type_label size_str : string)
  : string :=
  nl +:+ "            <div class=" +:+ quote +:+ "file-item" +:+ quote +:+ ">"
  +:+ nl +:+ "                <span style=" +:+ quote
  +:+ "font-size: 1.5rem; margin-right: 0.5rem;" +:+ quote +:+ ">"
  +:+ icon +:+ "</span>"
  +:+ nl +:+ "                <span class=" +:+ quote +:+ "file-name" +:+ quote
  +:+ ">" +:+ file_name +:+ "</span>"
  +:+ nl +:+ "                <span class=" +:+ quote +:+ "file-type" +:+ quote
  +:+ " style=" +:+ quote +:+ "color: " +:+ type_color +:+ ";" +:+ quote
  +:+ ">"
  +:+ nl +:+ "                    " +:+ type_label
  +:+ nl +:+ "                </span>"
  +:+ nl +:+ "                <br>"
  +:+ nl +:+ "                <small style=" +:+ quote +:+ "color: #999;"
  +:+ quote +:+ ">📏 " +:+ size_str +:+ "</small>"
  +:+ nl +:+ "            </div>"
  +:+ nl +:+ "            ".

(** The key of the delete button of row [i]: [f"delete_{i}"]. *)
Definition delete_key (i : Z) : string := "delete_" +:+ pretty i.

Section Rendering.

(** [str.upper], which the rows apply to the last part of the type; the
    script is modelled for any such function. *)
Variable upper : string → string.

(** One row of the list: a turn of the loop of [render_file_list]. *)
Definition render_row (inp : Inputs) (i : Z) (file_info : FileInfo)
  : Render unit :=
  let '(icon, type_color) := get_file_icon_and_color (type file_info) in
  size_str <~ eval (format_file_size (size file_info)) ;;
  record (columns (inr [5; 1]%Z)) ;;;
  within 0
    (st_markdown
       (file_item icon (name file_info) type_color
          (upper (last_part (type file_info))) size_str)) ;;;
  within 1
    (record (button "🗑️" (Some (delete_key i))) ;;;
     if pressed inp (delete_key i) then lift (delete_file i) else rret tt).

Definition render_file_list (inp : Inputs) : Render unit :=
  files <~ lift get_uploaded_files ;;
  match files with
  | [] => render_empty_state
  | _ =>
      st_markdown "### 📚 Your Uploaded Files" ;;;
      for_enumerate 0 files (render_row inp)
  end.

Definition render_action_buttons (inp : Inputs) : Render unit :=
  files <~ lift get_uploaded_files ;;
  if (len files =? 0)%Z then rret tt
  else
    st_markdown "### 🚀 Ready to Start?" ;;;
    record (columns (inr [1; 2; 1]%Z)) ;;;
    within 1
      (record (button "✨ Generate Lecture" None) ;;;
       (if pressed inp "✨ Generate Lecture" then
          record balloons ;;;
          st_success "🎉 Lecture generation started! (Feature coming soon)"
        else rret tt) ;;;
       record (button "🧹 Clear All Files" None) ;;;
       if pressed inp "🧹 Clear All Files" then lift clear_all_files
       else rret tt).

Definition render_footer : Render unit :=
  st_markdown "---" ;;;
  st_markdown
    (nl +:+ "    <div class=" +:+ quote +:+ "footer" +:+ quote +:+ ">"
     +:+ nl +:+ "        <p>💡 <strong>Tip:</strong> Upload multiple files to create comprehensive lecture series</p>"
     +:+ nl +:+ "        <p>Built with ❤️ using Streamlit</p>"
     +:+ nl +:+ "    </div>"
     +:+ nl +:+ "    ").

(** [if "uploaded_files" not in st.session_state: ... = []] *)
Definition init_session : Render unit :=
  λ v, if initialised v then (v, Returns tt)
       else ({| app := {| uploaded_files := []; disk := disk (app v);
                          page := page (app v) |};
                calls := calls v;
                initialised := true |}, Returns tt).

Definition main (inp : Inputs) : Render unit :=
  record (set_page_config "Saras - AI Tutor" "centered" "🎓") ;;;
  load_css inp ;;;
  init_session ;;;
  render_header ;;;
  render_statistics ;;;
  uploaded_files <~ render_upload_section inp ;;
  lift (process_uploads uploaded_files) ;;;
  render_file_list inp ;;;
  render_action_buttons inp ;;;
  render_footer.

End Rendering.

Local Close Scope render_scope.

(** The first row whose delete button is pressed, among [n] rows counted
    from [start]. *)
Fixpoint first_pressed (inp : Inputs) (start : Z) (n : nat) : option Z :=
  match n with
  | O => None
  | S n' => if pressed inp (delete_key start) then Some start
            else first_pressed inp (start + 1) n'
  end.

(** Two states that differ at most in what has been drawn. *)
Definition same_store (s s' : State) : Prop :=
  uploaded_files s = uploaded_files s' ∧ disk s = disk s'.

(** No stored size reaches [overflow_size]. *)
Definition sizes_fit (s : State) : Prop :=
  Forall (λ file_info, (size file_info < overflow_size)%Z) (uploaded_files s).

Definition same_session (v v' : View) : Prop :=
  same_store (app v) (app v') ∧ initialised v = initialised v'.

(** A step of the script that only draws and hands back [a]. *)
Definition draws_only {A} (m : Render A) (a : A) : Prop :=
  ∀ v, snd (m v) = Returns a ∧ same_session v (fst (m v)).

(** The state the script works on once [init_session] has run. *)
Definition started (v : View) : State :=
  if initialised v then app v
  else {| uploaded_files := []; disk := disk (app v); page := page (app v) |}.

(** The handler that a run of [main] lets act on the state [s], if any:
    the upload when it adds something, else the first pressed delete
    button, else the clear button when it is shown and pressed. *)
Definition next_action (inp : Inputs) (s : State) : option Action :=
  if is_nil (fresh_items (names s) (chosen inp)) then
    match first_pressed inp 0 (length (uploaded_files s)) with
    | Some i => Some (DeleteAt i)
    | None =>
        if negb (is_nil (uploaded_files s)) && pressed inp "🧹 Clear All Files"
        then Some ClearAll else None
    end
  else Some (AddFiles (chosen inp)).

Definition act (a : option Action) (s : State) : State :=
  match a with Some a => run a s | None => s end.

(** How the run ends when that handler has acted on [s]: the upload ends
    as [process_uploads] does, a deletion or a clearing in a rerun. *)
Definition ending (a : option Action) (s : State) : Outcome unit :=
  match a with
  | None => Returns tt
  | Some (AddFiles batch) =>
      match snd (process_uploads batch s) with
      | Stops sig => Stops sig
      | Returns _ => Returns tt
      end
  | Some _ => Stops RerunException
  end.

(** [styles.css] is absent or can be read. *)
Definition css_loads (inp : Inputs) : Prop :=
  ∀ e, styles_css inp ≠ Some (inl e).

(** The view after one run of [main] for each element of [inps]. *)
Definition after_runs (upper : string → string) (inps : list Inputs)
    (v : View) : View :=
  foldl (λ v inp, fst (main upper inp v)) v inps.

(** No payload in the uploader reaches [overflow_size] bytes. *)
Definition payloads_fit (inp : Inputs) : Prop :=
  Forall (λ file, (len (file_buffer file) < overflow_size)%Z) (chosen inp).

(** The file names in the uploader are plain. *)
Definition plain_names (inp : Inputs) : Prop :=
  Forall (λ file, plain_name (file_name file)) (chosen inp).

(** What every state of a session satisfies when the uploaded names are
    plain: distinct names, every entry backed by the disk, and sizes
    below [overflow_size]. *)
Definition healthy (s : State) : Prop :=
  NoDup (names s)
  ∧ Forall (backed (disk s)) (uploaded_files s)
  ∧ sizes_fit s.

(** ** Sample data *)

Definition empty_disk : Disk.t :=
  {| Disk.files := ∅; Disk.locked := ∅; Disk.faults := λ _, None |}.

(** An empty disk on which [uploads/a.pdf] cannot be opened for writing. *)
Definition read_only_disk : Disk.t :=
  {| Disk.files := ∅; Disk.locked := ∅;
     Disk.faults := λ p, if decide (p = "uploads/a.pdf")
                         then Some (Disk.open_fails (OSErr PermissionError))
                         else None |}.

(** An empty disk with room for the first two bytes of [uploads/b.pptx]. *)
Definition full_disk : Disk.t :=
  {| Disk.files := ∅; Disk.locked := ∅;
     Disk.faults := λ p, if decide (p = "uploads/b.pptx")
                         then Some (Disk.write_fails (OSErr (OtherOSError 28)) 2)
                         else None |}.

Definition a_pdf : UploadedFile :=
  {| file_name := "a.pdf"; file_type := PDF;
     file_buffer := [Byte.x25; Byte.x50; Byte.x44; Byte.x46] |}.

(** A second upload under the name of [a_pdf], with other contents. *)
Definition a_pdf_again : UploadedFile :=
  {| file_name := "a.pdf"; file_type := PPTX;
     file_buffer := [Byte.x50; Byte.x4b] |}.

Definition b_pptx : UploadedFile :=
  {| file_name := "b.pptx"; file_type := PPTX;
     file_buffer := [Byte.x50; Byte.x4b; Byte.x03; Byte.x04; Byte.x14] |}.

Definition c_pdf : UploadedFile :=
  {| file_name := "c.pdf"; file_type := PDF; file_buffer := [Byte.x25] |}.

Definition d_pptx : UploadedFile :=
  {| file_name := "d.pptx"; file_type := PPTX; file_buffer := [] |}.

Definition e_pdf : UploadedFile :=
  {| file_name := "e.pdf"; file_type := PDF;
     file_buffer := [Byte.x25; Byte.x50] |}.

(** Three PDF files and two presentations, uploaded in mixed order. *)
Definition five_files : State :=
  fst (process_uploads [a_pdf; b_pptx; c_pdf; d_pptx; e_pdf]
         (initial empty_disk)).

(** Upper-casing of the letters [a] to [z], to run the script on samples. *)
Definition upper_char (c : Ascii.ascii) : Ascii.ascii :=
  let n := Ascii.nat_of_ascii c in
  if ((97 <=? n) && (n <=? 122))%nat then Ascii.ascii_of_nat (n - 32) else c.

Fixpoint upper_ascii (s : string) : string :=
  match s with
  | EmptyString => EmptyString
  | String c s' => String (upper_char c) (upper_ascii s')
  end.

(** A run with [files] in the uploader and no button pressed. *)
Definition quiet (files : list UploadedFile) : Inputs :=
  {| styles_css := None; chosen := files; pressed := λ _, false |}.

(** A run with [files] in the uploader and the button [key] pressed. *)
Definition press (key : string) (files : list UploadedFile) : Inputs :=
  {| styles_css := None; chosen := files;
     pressed := λ k, bool_decide (k = key) |}.

(** A new browser session over an empty disk. *)
Definition fresh_view : View :=
  {| app := initial empty_disk; calls := []; initialised := false |}.

(** The session after [a_pdf] and [b_pptx] were uploaded to an empty disk. *)
Definition two_files : State :=
  {| uploaded_files := [entry_of a_pdf; entry_of b_pptx];
     disk := save (save empty_disk a_pdf) b_pptx;
     page := [] |}.

(** The same session once [uploads/a.pdf] can no longer be removed. *)
Definition two_files_locked : State :=
  {| uploaded_files := [entry_of a_pdf; entry_of b_pptx];
     disk := {| Disk.files := Disk.files (disk two_files);
                Disk.locked := {[ "uploads/a.pdf" ]};
                Disk.faults := λ _, None |};
     page := [] |}.

(** The same session after [uploads/a.pdf] was removed behind its back. *)
Definition two_files_missing : State :=
  {| uploaded_files := [entry_of a_pdf; entry_of b_pptx];
     disk := save empty_disk b_pptx;
     page := [] |}.

(** The view of a session whose list holds [a_pdf] and [b_pptx]. *)
Definition two_files_view : View :=
  {| app := two_files; calls := []; initialised := true |}.

(** A new browser session over [read_only_disk]. *)
Definition read_only_view : View :=
  {| app := initial read_only_disk; calls := []; initialised := false |}.

(** A run in which [styles.css] exists but is not valid UTF-8. *)
Definition undecodable_css : Inputs :=
  {| styles_css := Some (inl UnicodeDecodeError); chosen := [];
     pressed := λ _, false |}.

(** ** Paths under [uploads/] *)

Lemma str_split_no_sep sep s : sep ∉ chars s → str_split sep s = [s].
Proof.
  induction s as [|c s IH]; simpl; [done|].
  intros [Hc Hs]%not_elem_of_cons.
  destruct (decide (c = sep)); [done|]. by rewrite IH.
Qed.

Lemma str_split_cut sep a b :
  sep ∉ chars a → str_split sep (a +:+ String sep b) = a :: str_split sep b.
Proof.
  induction a as [|c a IH]; simpl; intros Ha.
  - by destruct (decide (sep = sep)).
  - apply not_elem_of_cons in Ha as [Hc Ha].
    destruct (decide (c = sep)); [done|]. by rewrite IH.
Qed.

(** A plain name is kept as it is under [uploads/]. *)
Lemma path_join_plain n :
  plain_name n → path_join UPLOAD_DIR n = "uploads/" +:+ n.
Proof.
  intros (Hne & Hdot & _ & Hsl).
  assert (Hstart : starts_with_slash n = false).
  { destruct n as [|c n]; [done|]. simpl. apply bool_decide_eq_false.
    intros ->. apply Hsl. simpl. left. }
  unfold path_join, posix_join. rewrite Hstart.
  change (bool_decide (UPLOAD_DIR = EmptyString) || ends_with_slash UPLOAD_DIR)
    with false. cbv iota.
  unfold str_path.
  change (splitroot (UPLOAD_DIR +:+ "/" +:+ n))
    with (EmptyString, UPLOAD_DIR +:+ "/" +:+ n).
  cbv iota beta. unfold path_parts.
  change (UPLOAD_DIR +:+ "/" +:+ n) with (UPLOAD_DIR +:+ String slash n).
  rewrite str_split_cut, str_split_no_sep; [|done|].
  - rewrite !filter_cons, filter_nil.
    destruct (decide (UPLOAD_DIR ≠ EmptyString ∧ UPLOAD_DIR ≠ ".")) as [_|H];
      [|exfalso; apply H; split; discriminate].
    destruct (decide (n ≠ EmptyString ∧ n ≠ ".")) as [_|H];
      [|exfalso; apply H; by split].
    simpl. reflexivity.
  - apply (bool_decide_unpack _). vm_compute. reflexivity.
Qed.

Lemma path_join_plain_inj n1 n2 :
  plain_name n1 → plain_name n2 →
  path_join UPLOAD_DIR n1 = path_join UPLOAD_DIR n2 → n1 = n2.
Proof.
  intros H1 H2. rewrite !path_join_plain by done. intros H.
  by simplify_eq/=.
Qed.

(** What [pathlib] does to names that are not plain. *)
Example path_join_normalises :
  path_join UPLOAD_DIR "a.pdf" = "uploads/a.pdf"
  ∧ path_join UPLOAD_DIR "./a.pdf" = "uploads/a.pdf"
  ∧ path_join UPLOAD_DIR "a.pdf/" = "uploads/a.pdf"
  ∧ path_join UPLOAD_DIR "sub//x.pdf" = "uploads/sub/x.pdf"
  ∧ path_join UPLOAD_DIR "../x.pdf" = "uploads/../x.pdf"
  ∧ path_join UPLOAD_DIR "/tmp/x.pdf" = "/tmp/x.pdf"
  ∧ path_join UPLOAD_DIR "//tmp/x.pdf" = "//tmp/x.pdf"
  ∧ path_join UPLOAD_DIR "///tmp/x.pdf" = "/tmp/x.pdf"
  ∧ path_join UPLOAD_DIR "" = "uploads"
  ∧ path_join UPLOAD_DIR "." = "uploads"
  ∧ path_join UPLOAD_DIR "/" = "/".
Proof. vm_compute. repeat split. Qed.
(** ** The upload loop *)

Lemma state_eta (s : State) :
  {| uploaded_files := uploaded_files s; disk := disk s; page := page s |} = s.
Proof. by destruct s. Qed.

Lemma with_added_nil s : with_added s [] = s.
Proof.
  unfold with_added; simpl. rewrite app_nil_r. apply state_eta.
Qed.

Lemma upload_one_present file b s :
  file_name file ∈ names s →
  upload_one file b s = (s, Returns b).
Proof.
  intros Hin. unfold upload_one, bind, get_uploaded_files.
  fold (names s). destruct (decide (file_name file ∉ names s)); [done|].
  reflexivity.
Qed.

Lemma upload_one_absent file b s :
  file_name file ∉ names s →
  Disk.faults (disk s) (path_join UPLOAD_DIR (file_name file)) = None →
  upload_one file b s = (with_added s [file], Returns true).
Proof.
  intros Hout Hok.
  unfold upload_one, bind, get_uploaded_files, open_wb_write, Disk.write.
  fold (names s). destruct (decide (file_name file ∉ names s)); [|done].
  rewrite Hok. reflexivity.
Qed.

Lemma upload_one_refused file b s fault :
  file_name file ∉ names s →
  Disk.faults (disk s) (path_join UPLOAD_DIR (file_name file)) = Some fault →
  upload_one file b s
  = (on_disk (spoiled (disk s) (Some (file, fault))) s,
     Stops (Raised (fault_error fault))).
Proof.
  intros Hout Hbad.
  unfold upload_one, bind, get_uploaded_files, open_wb_write, Disk.write.
  fold (names s). destruct (decide (file_name file ∉ names s)); [|done].
  rewrite Hbad. by destruct fault.
Qed.

Lemma with_added_cons s file kept :
  with_added (with_added s [file]) kept = with_added s (file :: kept).
Proof.
  unfold with_added; simpl. by rewrite <- app_assoc.
Qed.

Lemma names_with_added s kept :
  names (with_added s kept) = names s ++ (file_name <$> kept).
Proof.
  unfold names, with_added; simpl. rewrite fmap_app. f_equal.
  rewrite <- list_fmap_compose. reflexivity.
Qed.

(** Whether a write goes wrong does not depend on the files present. *)
Lemma accepted_ext d d' fresh :
  Disk.faults d = Disk.faults d' → accepted d fresh = accepted d' fresh.
Proof.
  intros H. induction fresh as [|x rest IH]; simpl; [done|].
  by rewrite H, IH.
Qed.

Lemma refused_ext d d' fresh :
  Disk.faults d = Disk.faults d' → refused d fresh = refused d' fresh.
Proof.
  intros H. induction fresh as [|x rest IH]; simpl; [done|].
  by rewrite H, IH.
Qed.

Lemma foldl_save_faults kept : ∀ d,
  Disk.faults (foldl save d kept) = Disk.faults d.
Proof. induction kept as [|x rest IH]; intros d; simpl; [done|]. by rewrite IH. Qed.

Lemma on_disk_same s : on_disk (disk s) s = s.
Proof. apply state_eta. Qed.

(** The state and the outcome of the loop of [process_uploads]. *)
Lemma upload_loop batch : ∀ s b,
  for_each batch upload_one b s =
  let s' := with_added s (taken s batch) in
  match upload_fault s batch with
  | None => (s', Returns (b || negb (is_nil (taken s batch))))
  | Some (file, fault) =>
      (on_disk (spoiled (disk s') (Some (file, fault))) s',
       Stops (Raised (fault_error fault)))
  end.
Proof.
  unfold taken, upload_fault.
  induction batch as [|file rest IH]; intros s b; simpl.
  - rewrite with_added_nil, orb_false_r. reflexivity.
  - unfold bind at 1. destruct (decide (file_name file ∈ names s)) as [Hin|Hout].
    + rewrite upload_one_present by done. apply IH.
    + simpl.
      destruct (Disk.faults (disk s) (path_join UPLOAD_DIR (file_name file)))
        as [fault|] eqn:Hf.
      * rewrite (upload_one_refused _ _ _ fault) by done.
        by rewrite with_added_nil.
      * rewrite upload_one_absent by done. rewrite IH.
        rewrite names_with_added. simpl.
        rewrite (accepted_ext (save (disk s) file) (disk s)) by done.
        rewrite (refused_ext (save (disk s) file) (disk s)) by done.
        rewrite with_added_cons.
        destruct (refused (disk s) _) as [[f fault]|]; [done|].
        simpl. by rewrite orb_true_r.
Qed.

Lemma process_uploads_run batch s :
  process_uploads batch s =
  let kept := taken s batch in
  match upload_fault s batch with
  | Some (file, fault) =>
      ({| uploaded_files := uploaded_files (with_added s kept);
          disk := spoiled (disk (with_added s kept)) (Some (file, fault));
          page := page s |},
       Stops (Raised (fault_error fault)))
  | None =>
      if is_nil kept then (s, Returns false)
      else ({| uploaded_files := uploaded_files (with_added s kept);
               disk := disk (with_added s kept);
               page := page s ++ [markdown success_message] |},
            Stops RerunException)
  end.
Proof.
  destruct batch as [|file rest]; [reflexivity|].
  unfold process_uploads, bind at 1. rewrite upload_loop.
  cbv zeta. destruct (upload_fault s (file :: rest)) as [[f fault]|]; [done|].
  destruct (taken s (file :: rest)) as [|k kept] eqn:E.
  - simpl. by rewrite with_added_nil.
  - reflexivity.
Qed.

(** ** Properties of the kept items *)

Lemma fresh_items_subset batch : ∀ existing file,
  file ∈ fresh_items existing batch → file ∈ batch.
Proof.
  induction batch as [|x rest IH]; intros existing file; simpl; [done|].
  destruct (decide (file_name x ∈ existing)).
  - intros H. right. eauto.
  - intros [->|H]%elem_of_cons; [left|right; eauto].
Qed.

Lemma fresh_items_new batch : ∀ existing file,
  file ∈ fresh_items existing batch → file_name file ∉ existing.
Proof.
  induction batch as [|x rest IH]; intros existing file; simpl.
  - by intros ?%elem_of_nil.
  - destruct (decide (file_name x ∈ existing)); [by apply IH|].
    intros [->|H]%elem_of_cons; [done|].
    apply IH in H. set_solver.
Qed.

Lemma fresh_items_NoDup batch : ∀ existing,
  NoDup existing →
  NoDup (existing ++ (file_name <$> fresh_items existing batch)).
Proof.
  induction batch as [|x rest IH]; intros existing Hnd; simpl.
  - by rewrite app_nil_r.
  - destruct (decide (file_name x ∈ existing)) as [Hin|Hout]; [by apply IH|].
    rewrite fmap_cons, cons_middle, app_assoc. apply IH.
    apply NoDup_app. split_and!; [done| |apply NoDup_singleton].
    intros y Hy ->%list_elem_of_singleton. done.
Qed.

Lemma fresh_items_names_NoDup batch existing :
  NoDup (file_name <$> fresh_items existing batch).
Proof.
  revert existing. induction batch as [|x rest IH]; intros existing; simpl.
  - constructor.
  - destruct (decide (file_name x ∈ existing)); [apply IH|].
    rewrite fmap_cons. constructor; [|apply IH].
    intros (f & Hf & Hin)%list_elem_of_fmap.
    apply fresh_items_new in Hin. rewrite Hf in Hin. set_solver.
Qed.

Lemma fresh_items_all_present batch : ∀ existing,
  Forall (λ file, file_name file ∈ existing) batch →
  fresh_items existing batch = [].
Proof.
  induction batch as [|x rest IH]; intros existing H; simpl; [done|].
  inversion H as [|? ? Hx Hrest]; subst.
  destruct (decide (file_name x ∈ existing)); [by apply IH|done].
Qed.

Lemma fresh_items_same_name rest : ∀ existing n,
  n ∈ existing →
  Forall (λ file, file_name file = n) rest →
  fresh_items existing rest = [].
Proof.
  intros existing n Hn H. apply fresh_items_all_present.
  eapply Forall_impl; [exact H|]. by intros f ->.
Qed.

(** The first item of the batch under the name of a kept item is that
    item. *)
Lemma fresh_items_first batch : ∀ existing file,
  file ∈ fresh_items existing batch →
  head (filter (λ other, file_name other = file_name file) batch) = Some file.
Proof.
  induction batch as [|x rest IH]; intros existing file; simpl.
  - by intros ?%elem_of_nil.
  - rewrite filter_cons.
    destruct (decide (file_name x ∈ existing)) as [Hin|Hout].
    + intros H. pose proof (fresh_items_new _ _ _ H) as Hnew.
      destruct (decide (file_name x = file_name file)) as [E|_];
        [by rewrite E in Hin|]. by eapply IH.
    + intros [->|H]%elem_of_cons.
      * by destruct (decide (file_name x = file_name x)).
      * pose proof (fresh_items_new _ _ _ H) as Hnew.
        destruct (decide (file_name x = file_name file)) as [E|_];
          [rewrite <- E in Hnew; set_solver|]. by eapply IH.
Qed.

(** The accepted items are the front of the items to be added, up to the
    one whose write goes wrong. *)
Lemma accepted_all d fresh : refused d fresh = None → accepted d fresh = fresh.
Proof.
  induction fresh as [|x rest IH]; simpl; [done|].
  destruct (Disk.faults d _); [done|]. intros H. by rewrite IH.
Qed.

Lemma refused_split d fresh file fault :
  refused d fresh = Some (file, fault) →
  Disk.faults d (path_join UPLOAD_DIR (file_name file)) = Some fault
  ∧ ∃ rest, fresh = accepted d fresh ++ file :: rest.
Proof.
  induction fresh as [|x rest IH]; simpl; [done|].
  destruct (Disk.faults d (path_join UPLOAD_DIR (file_name x))) as [f|] eqn:Hf.
  - intros [= -> ->]. split; [done|]. by exists rest.
  - intros H. destruct (IH H) as (Hbad & rest' & E). split; [done|].
    exists rest'. simpl. by rewrite <- E.
Qed.

Lemma accepted_prefix d fresh : accepted d fresh `prefix_of` fresh.
Proof.
  induction fresh as [|x rest IH]; simpl; [done|].
  destruct (Disk.faults d _); [apply prefix_nil|]. by apply prefix_cons.
Qed.

Lemma accepted_sublist d fresh : accepted d fresh `sublist_of` fresh.
Proof.
  induction fresh as [|x rest IH]; simpl; [done|].
  destruct (Disk.faults d _); [apply sublist_nil_l|]. by apply sublist_skip.
Qed.

Lemma accepted_elem d fresh file :
  file ∈ accepted d fresh →
  file ∈ fresh ∧ Disk.faults d (path_join UPLOAD_DIR (file_name file)) = None.
Proof.
  induction fresh as [|x rest IH]; simpl; [by intros ?%elem_of_nil|].
  destruct (Disk.faults d (path_join UPLOAD_DIR (file_name x))) eqn:Hf;
    [by intros ?%elem_of_nil|].
  intros [->|H]%elem_of_cons; [split; [left|done]|].
  destruct (IH H). split; [by right|done].
Qed.

Lemma accepted_none d fresh :
  Forall (λ file,
            Disk.faults d (path_join UPLOAD_DIR (file_name file)) = None)
         fresh →
  refused d fresh = None.
Proof.
  induction 1 as [|x rest Hx _ IH]; simpl; [done|]. by rewrite Hx.
Qed.

Lemma taken_subset s batch file : file ∈ taken s batch → file ∈ batch.
Proof.
  intros [H _]%accepted_elem. by eapply fresh_items_subset.
Qed.

Lemma taken_new s batch file :
  file ∈ taken s batch → file_name file ∉ names s.
Proof.
  intros [H _]%accepted_elem. by eapply fresh_items_new.
Qed.

Lemma taken_names_NoDup s batch : NoDup (file_name <$> taken s batch).
Proof.
  eapply sublist_NoDup; [apply (fresh_items_names_NoDup batch (names s))|].
  apply fmap_sublist, accepted_sublist.
Qed.

Lemma taken_NoDup s batch :
  NoDup (names s) → NoDup (names s ++ (file_name <$> taken s batch)).
Proof.
  intros Hnd. eapply sublist_NoDup; [by apply (fresh_items_NoDup batch)|].
  apply sublist_app; [done|]. apply fmap_sublist, accepted_sublist.
Qed.

(** An upload raises only what the write of one of its items raises. *)
Lemma upload_fault_elem s batch file fault :
  upload_fault s batch = Some (file, fault) →
  file ∈ batch
  ∧ (file_name file ∉ names s)
  ∧ (file_name file ∉ (file_name <$> taken s batch))
  ∧ Disk.faults (disk s) (path_join UPLOAD_DIR (file_name file)) = Some fault.
Proof.
  unfold upload_fault, taken. intros H.
  destruct (refused_split _ _ _ _ H) as (Hbad & rest & E).
  assert (Hin : file ∈ fresh_items (names s) batch) by (rewrite E; set_solver).
  split_and!; [by eapply fresh_items_subset|by eapply fresh_items_new| |done].
  pose proof (fresh_items_names_NoDup batch (names s)) as Hnd.
  rewrite E, fmap_app, fmap_cons in Hnd.
  apply NoDup_app in Hnd as (_ & Hnd & _). intros Hx. apply (Hnd _ Hx). left.
Qed.

(** ** What [save] leaves on the disk *)

Lemma save_lookup_other d file p :
  p ≠ path_join UPLOAD_DIR (file_name file) →
  Disk.files (save d file) !! p = Disk.files d !! p.
Proof. intros Hne. unfold save; simpl. by rewrite lookup_insert_ne. Qed.

Lemma foldl_save_other kept : ∀ d p,
  p ∉ ((λ file, path_join UPLOAD_DIR (file_name file)) <$> kept) →
  Disk.files (foldl save d kept) !! p = Disk.files d !! p.
Proof.
  induction kept as [|x rest IH]; intros d p Hp; simpl; [done|].
  rewrite fmap_cons in Hp. apply not_elem_of_cons in Hp as [Hx Hrest].
  rewrite IH by done. by apply save_lookup_other.
Qed.

Lemma foldl_save_lookup kept : ∀ d file,
  NoDup ((λ file, path_join UPLOAD_DIR (file_name file)) <$> kept) →
  file ∈ kept →
  Disk.files (foldl save d kept) !! path_join UPLOAD_DIR (file_name file)
  = Some (file_buffer file).
Proof.
  induction kept as [|x rest IH]; intros d file Hnd Hin; simpl.
  - by apply elem_of_nil in Hin.
  - rewrite fmap_cons in Hnd. apply NoDup_cons in Hnd as [Hx Hnd].
    apply elem_of_cons in Hin as [->|Hin].
    + rewrite foldl_save_other by done. unfold save; simpl.
      apply lookup_insert_eq.
    + by apply IH.
Qed.

Lemma foldl_save_locked kept : ∀ d,
  Disk.locked (foldl save d kept) = Disk.locked d.
Proof. induction kept as [|x rest IH]; intros d; simpl; [done|]. by rewrite IH. Qed.

Lemma foldl_save_keeps kept : ∀ d p,
  is_Some (Disk.files d !! p) → is_Some (Disk.files (foldl save d kept) !! p).
Proof.
  induction kept as [|x rest IH]; intros d p Hp; simpl; [done|].
  apply IH. unfold save; simpl.
  destruct (decide (path_join UPLOAD_DIR (file_name x) = p)) as [<-|Hne].
  - rewrite lookup_insert_eq. by eexists.
  - by rewrite lookup_insert_ne.
Qed.

Lemma spoiled_lookup_other d r p :
  (∀ file fault, r = Some (file, fault) →
                 p ≠ path_join UPLOAD_DIR (file_name file)) →
  Disk.files (spoiled d r) !! p = Disk.files d !! p.
Proof.
  intros H. destruct r as [[file [e|e k]]|]; simpl; try done.
  rewrite lookup_insert_ne; [done|]. intros E. by eapply H.
Qed.

Lemma spoiled_keeps d r p :
  is_Some (Disk.files d !! p) → is_Some (Disk.files (spoiled d r) !! p).
Proof.
  intros Hp. destruct r as [[file [e|e k]]|]; simpl; try done.
  destruct (decide (path_join UPLOAD_DIR (file_name file) = p)) as [<-|Hne].
  - rewrite lookup_insert_eq. by eexists.
  - by rewrite lookup_insert_ne.
Qed.

Lemma spoiled_locked d r : Disk.locked (spoiled d r) = Disk.locked d.
Proof. by destruct r as [[file [e|e k]]|]. Qed.

Lemma spoiled_faults d r : Disk.faults (spoiled d r) = Disk.faults d.
Proof. by destruct r as [[file [e|e k]]|]. Qed.

(** The list and the disk after a call of [process_uploads], however it
    ends. *)
Lemma process_uploads_store batch s :
  uploaded_files (fst (process_uploads batch s))
  = uploaded_files s ++ (entry_of <$> taken s batch).
Proof.
  rewrite process_uploads_run. cbv zeta.
  destruct (upload_fault s batch) as [[f fault]|]; [done|].
  destruct (taken s batch); simpl; [by rewrite app_nil_r|done].
Qed.

Lemma process_uploads_disk batch s :
  disk (fst (process_uploads batch s))
  = spoiled (foldl save (disk s) (taken s batch)) (upload_fault s batch).
Proof.
  rewrite process_uploads_run. cbv zeta.
  destruct (upload_fault s batch) as [[f fault]|]; [done|].
  by destruct (taken s batch).
Qed.

Lemma process_uploads_page batch s :
  page (fst (process_uploads batch s))
  = page s ++ match upload_fault s batch with
              | None => if is_nil (taken s batch) then []
                        else [markdown success_message]
              | Some _ => []
              end.
Proof.
  rewrite process_uploads_run. cbv zeta.
  destruct (upload_fault s batch) as [[f fault]|]; [simpl; by rewrite app_nil_r|].
  destruct (taken s batch); simpl; [by rewrite app_nil_r|done].
Qed.

Lemma process_uploads_outcome batch s :
  snd (process_uploads batch s)
  = match upload_fault s batch with
    | None => if is_nil (taken s batch) then Returns false
              else Stops RerunException
    | Some (_, fault) => Stops (Raised (fault_error fault))
    end.
Proof.
  rewrite process_uploads_run. cbv zeta.
  destruct (upload_fault s batch) as [[f fault]|]; [done|].
  by destruct (taken s batch).
Qed.
Lemma plain_paths_NoDup kept :
  Forall (λ file, plain_name (file_name file)) kept →
  NoDup (file_name <$> kept) →
  NoDup ((λ file, path_join UPLOAD_DIR (file_name file)) <$> kept).
Proof.
  induction 1 as [|x rest Hx Hrest IH]; simpl; [constructor|].
  intros [Hnew Hnd]%NoDup_cons. constructor; [|by apply IH].
  intros (g & Hg & Hin)%list_elem_of_fmap. apply Hnew.
  apply path_join_plain_inj in Hg; [|done|].
  - rewrite Hg. by apply list_elem_of_fmap_2.
  - by eapply Forall_forall in Hrest.
Qed.

(** The files written by an upload, whether or not the write went
    through. *)
Lemma process_uploads_lookup_other batch s p :
  (∀ file, file ∈ batch → file_name file ∉ names s →
           path_join UPLOAD_DIR (file_name file) ≠ p) →
  Disk.files (disk (fst (process_uploads batch s))) !! p
  = Disk.files (disk s) !! p.
Proof.
  intros Hother. rewrite process_uploads_disk.
  rewrite spoiled_lookup_other.
  - apply foldl_save_other.
    intros (file & Hpath & Hfile)%list_elem_of_fmap.
    apply (Hother file); [by eapply taken_subset|by eapply taken_new|done].
  - intros file fault Hbad.
    destruct (upload_fault_elem _ _ _ _ Hbad) as (Hin & Hnew & _).
    intros ->. by apply (Hother file).
Qed.

Lemma process_uploads_lookup_new batch s file :
  NoDup ((λ file, path_join UPLOAD_DIR (file_name file)) <$> taken s batch) →
  (∀ other fault, upload_fault s batch = Some (other, fault) →
                  path_join UPLOAD_DIR (file_name other)
                  ≠ path_join UPLOAD_DIR (file_name file)) →
  file ∈ taken s batch →
  Disk.files (disk (fst (process_uploads batch s)))
    !! path_join UPLOAD_DIR (file_name file)
  = Some (file_buffer file).
Proof.
  intros Hnd Hbad Hin. rewrite process_uploads_disk.
  rewrite spoiled_lookup_other.
  - by apply foldl_save_lookup.
  - intros other fault E Heq. by apply (Hbad other fault).
Qed.

(** With plain names every item taken in finds its payload in its file
    when the call is over. *)
Lemma process_uploads_lookup_taken batch s file :
  Forall (λ other, plain_name (file_name other)) batch →
  file ∈ taken s batch →
  Disk.files (disk (fst (process_uploads batch s)))
    !! path_join UPLOAD_DIR (file_name file)
  = Some (file_buffer file).
Proof.
  intros Hplain Hin.
  assert (Hfile : plain_name (file_name file)).
  { eapply Forall_forall in Hplain; [exact Hplain|]. by eapply taken_subset. }
  apply process_uploads_lookup_new; [| |done].
  - apply plain_paths_NoDup; [|apply taken_names_NoDup].
    apply Forall_forall. intros g Hg.
    eapply Forall_forall in Hplain; [exact Hplain|].
    by eapply taken_subset.
  - intros other fault Hbad.
    destruct (upload_fault_elem _ _ _ _ Hbad) as (Hin' & _ & Hnot & _).
    intros Heq.
    apply path_join_plain_inj in Heq;
      [|by eapply Forall_forall in Hplain|done].
    apply Hnot. rewrite Heq. by apply list_elem_of_fmap_2.
Qed.

(** ** Uploading *)

(** C1, as the source has it. [process_uploads] takes the batch in order.
    An item whose name is already among the names of the stored entries is
    skipped: the rest of the batch runs from the very same state (nothing
    written, nothing appended, no error). For any other item the file
    [UPLOAD_DIR / name] is opened for writing, which is [uploads/name] for
    a plain name. When the write goes through, the file holds the raw bytes
    and the record [{name, path, type, size}] is appended before the rest
    of the batch runs, and the call ends in a rerun unless the rest raises.
    When the open raises, the exception leaves [process_uploads] with the
    state as it was: no entry for the item, the rest of the batch not
    looked at. When the write raises after the open, the same holds except
    that the file is left with the bytes written so far. Hence a batch in
    which every item carries the name of the first one leaves exactly one
    entry, that of the first, if its file can be written. *)
Theorem process_uploads_in_order
    (s : State) (file : UploadedFile) (rest : list UploadedFile) (d : Disk.t) :
  let file_path := path_join UPLOAD_DIR (file_name file) in
  (file_name file ∈ names s →
     process_uploads (file :: rest) s = process_uploads rest s)
  ∧ (file_name file ∉ names s →
     Disk.faults (disk s) file_path = None →
     let s1 := {| uploaded_files :=
                    uploaded_files s
                    ++ [ {| name := file_name file;
                            path := file_path;
                            type := file_type file;
                            size := len (file_buffer file) |} ];
                  disk := Disk.put file_path (file_buffer file) (disk s);
                  page := page s |} in
     Disk.files (disk s1) !! file_path = Some (file_buffer file)
     ∧ uploaded_files (fst (process_uploads (file :: rest) s))
       = uploaded_files (fst (process_uploads rest s1))
     ∧ disk (fst (process_uploads (file :: rest) s))
       = disk (fst (process_uploads rest s1))
     ∧ snd (process_uploads (file :: rest) s)
       = then_rerun (snd (process_uploads rest s1)))
  ∧ (file_name file ∉ names s →
     ∀ e, Disk.faults (disk s) file_path = Some (Disk.open_fails e) →
          process_uploads (file :: rest) s = (s, Stops (Raised e)))
  ∧ (file_name file ∉ names s →
     ∀ e written,
       Disk.faults (disk s) file_path = Some (Disk.write_fails e written) →
       process_uploads (file :: rest) s
       = (on_disk (Disk.put file_path (take written (file_buffer file))
                            (disk s)) s,
          Stops (Raised e)))
  ∧ process_uploads [] s = (s, Returns false)
  ∧ (plain_name (file_name file) →
     file_path = "uploads/" +:+ file_name file)
  ∧ (Forall (λ other, file_name other = file_name file) rest →
     Disk.faults d file_path = None →
     let s' := fst (process_uploads (file :: rest) (initial d)) in
     uploaded_files s' = [entry_of file]
     ∧ length (uploaded_files s') = 1%nat
     ∧ Disk.files (disk s') !! file_path = Some (file_buffer file)).
Proof.
  intros file_path. split_and!.
  - intros Hin. rewrite !process_uploads_run. unfold taken, upload_fault.
    simpl. by destruct (decide (file_name file ∈ names s)).
  - intros Hout Hok s1.
    assert (Hs1 : s1 = with_added s [file]) by reflexivity.
    assert (Hn : names s1 = names s ++ [file_name file])
      by (rewrite Hs1; apply names_with_added).
    assert (Htaken : taken s (file :: rest) = file :: taken s1 rest).
    { unfold taken. simpl.
      destruct (decide (file_name file ∈ names s)) as [|_]; [done|].
      simpl. fold file_path. rewrite Hok, Hn. f_equal.
      by apply accepted_ext. }
    assert (Hfault : upload_fault s (file :: rest) = upload_fault s1 rest).
    { unfold upload_fault. simpl.
      destruct (decide (file_name file ∈ names s)) as [|_]; [done|].
      simpl. fold file_path. rewrite Hok, Hn. by apply refused_ext. }
    split; [apply lookup_insert_eq|].
    rewrite !process_uploads_store, !process_uploads_disk,
      !process_uploads_outcome, Htaken, Hfault.
    split_and!.
    + rewrite Hs1. simpl. by rewrite <- app_assoc.
    + by rewrite Hs1.
    + destruct (upload_fault s1 rest) as [[f fault]|]; [done|].
      by destruct (taken s1 rest).
  - intros Hout e Hbad. rewrite process_uploads_run.
    unfold taken, upload_fault. simpl.
    destruct (decide (file_name file ∈ names s)) as [|_]; [done|].
    simpl. fold file_path. rewrite Hbad. simpl.
    by rewrite app_nil_r, state_eta.
  - intros Hout e written Hbad. rewrite process_uploads_run.
    unfold taken, upload_fault. simpl.
    destruct (decide (file_name file ∈ names s)) as [|_]; [done|].
    simpl. fold file_path. rewrite Hbad. simpl.
    by rewrite app_nil_r.
  - reflexivity.
  - apply path_join_plain.
  - intros Hsame Hok s'.
    assert (Htaken : taken (initial d) (file :: rest) = [file]).
    { unfold taken. simpl.
      destruct (decide (file_name file ∈ [])) as [Hin|_];
        [by apply elem_of_nil in Hin|].
      simpl. fold file_path. rewrite Hok.
      rewrite (fresh_items_same_name rest _ (file_name file));
        [done|set_solver|done]. }
    assert (Hfault : upload_fault (initial d) (file :: rest) = None).
    { unfold upload_fault. simpl.
      destruct (decide (file_name file ∈ [])) as [Hin|_];
        [by apply elem_of_nil in Hin|].
      simpl. fold file_path. rewrite Hok.
      rewrite (fresh_items_same_name rest _ (file_name file));
        [done|set_solver|done]. }
    subst s'.
    rewrite process_uploads_store, process_uploads_disk, Htaken, Hfault.
    split_and!; [done..|]. simpl. apply lookup_insert_eq.
Qed.

Lemma process_uploads_in_order_witness :
  process_uploads [a_pdf_again; b_pptx] two_files
    = process_uploads [b_pptx] two_files
  ∧ Disk.files (disk (fst (process_uploads [c_pdf] two_files)))
      !! "uploads/c.pdf" = Some (file_buffer c_pdf)
  ∧ process_uploads [a_pdf; b_pptx] (initial read_only_disk)
    = (initial read_only_disk, Stops (Raised (OSErr PermissionError)))
  ∧ snd (process_uploads [b_pptx; a_pdf] (initial full_disk))
    = Stops (Raised (OSErr (OtherOSError 28)))
  ∧ path_join UPLOAD_DIR "a.pdf" = "uploads/a.pdf"
  ∧ uploaded_files
      (fst (process_uploads [a_pdf_again; a_pdf] (initial empty_disk)))
    = [entry_of a_pdf_again].
Proof.
  split_and!.
  - destruct (process_uploads_in_order two_files a_pdf_again [b_pptx] empty_disk)
      as (Hskip & _).
    apply Hskip, list_elem_of_here.
  - destruct (process_uploads_in_order two_files c_pdf [] empty_disk)
      as (_ & Hadd & _).
    destruct Hadd as (_ & _ & Hdisk & _);
      [apply (bool_decide_unpack _); vm_compute; reflexivity|reflexivity|].
    rewrite Hdisk. vm_compute. reflexivity.
  - destruct (process_uploads_in_order (initial read_only_disk) a_pdf [b_pptx]
                empty_disk) as (_ & _ & Hopen & _).
    apply Hopen; [apply not_elem_of_nil|reflexivity].
  - destruct (process_uploads_in_order (initial full_disk) b_pptx [a_pdf]
                empty_disk) as (_ & _ & _ & Hwrite & _).
    rewrite (Hwrite (not_elem_of_nil _) (OSErr (OtherOSError 28)) 2%nat);
      reflexivity.
  - destruct (process_uploads_in_order two_files a_pdf [] empty_disk)
      as (_ & _ & _ & _ & _ & Hplain & _).
    apply Hplain. split_and!; [discriminate..|].
    apply (bool_decide_unpack _). vm_compute. reflexivity.
  - destruct (process_uploads_in_order two_files a_pdf_again [a_pdf] empty_disk)
      as (_ & _ & _ & _ & _ & _ & Hsame).
    apply Hsame; [repeat constructor|reflexivity].
Defined.

(** C1, as the specification words it, fails: an item whose name is not in
    the list is not always written and appended. When [uploads/a.pdf]
    cannot be opened for writing, uploading two files named [a.pdf] raises
    at the first one: nothing is written, and the store stays empty
    instead of holding one entry. *)
Lemma process_uploads_refused_write :
(file_name a_pdf ∉ names (initial read_only_disk))
  ∧ process_uploads [a_pdf; a_pdf_again] (initial read_only_disk)
    = (initial read_only_disk, Stops (Raised (OSErr PermissionError)))
  ∧ Disk.files (disk (fst (process_uploads [a_pdf; a_pdf_again]
                             (initial read_only_disk))))
      !! "uploads/a.pdf" = None
  ∧ length (uploaded_files (fst (process_uploads [a_pdf; a_pdf_again]
                                   (initial read_only_disk)))) ≠ 1%nat.
Proof.
  split_and!.
  - apply not_elem_of_nil.
  - reflexivity.
  - reflexivity.
  - vm_compute. discriminate.
Qed.

(** C3, as the source has it. [process_uploads] keeps a boolean flag, not a
    count: when no write raises, [new_files_added] is [True] after the loop
    exactly when at least one item of the batch was added. With nothing
    added the function returns [False] and draws nothing; otherwise it
    draws the success banner and calls [st.rerun()], which ends the script
    run before the [return]. When the write of an item raises, the
    exception leaves the loop and the function, and no banner is drawn. In
    every case the store grows by the number of items added. *)
Theorem process_uploads_flag (s : State) (batch : list UploadedFile) :
  len (uploaded_files (fst (process_uploads batch s)))
    = (len (uploaded_files s) + added_count s batch)%Z
  ∧ (upload_fault s batch = None →
     added_count s batch = len (fresh_items (names s) batch)
     ∧ snd (for_each batch upload_one false s)
       = Returns (bool_decide (0 < added_count s batch)%Z)
     ∧ snd (process_uploads batch s)
       = (if bool_decide (0 < added_count s batch)%Z
          then Stops RerunException else Returns false)
     ∧ page (fst (process_uploads batch s))
       = page s ++ (if bool_decide (0 < added_count s batch)%Z
                    then [markdown success_message] else []))
  ∧ (∀ file fault,
       upload_fault s batch = Some (file, fault) →
       file ∈ batch
       ∧ (file_name file ∉ names (fst (process_uploads batch s)))
       ∧ Disk.faults (disk s) (path_join UPLOAD_DIR (file_name file))
         = Some fault
       ∧ snd (for_each batch upload_one false s)
         = Stops (Raised (fault_error fault))
       ∧ snd (process_uploads batch s) = Stops (Raised (fault_error fault))
       ∧ page (fst (process_uploads batch s)) = page s).
Proof.
  split_and!.
  - rewrite process_uploads_store. unfold added_count, len.
    rewrite length_app, length_fmap. lia.
  - intros Hok. rewrite upload_loop, process_uploads_outcome,
      process_uploads_page, Hok.
    unfold added_count, len, taken. unfold upload_fault in Hok.
    rewrite (accepted_all _ _ Hok).
    destruct (fresh_items (names s) batch) as [|k kept]; simpl.
    + split_and!; done.
    + split_and!; done.
  - intros file fault Hbad.
    destruct (upload_fault_elem _ _ _ _ Hbad) as (Hin & Hnew & Hnot & Hf).
    rewrite upload_loop, process_uploads_outcome, process_uploads_page, Hbad.
    split_and!; try done.
    + unfold names. rewrite process_uploads_store. fold (names s).
      rewrite fmap_app, <- list_fmap_compose.
      intros [H|H]%elem_of_app; [by apply Hnew|by apply Hnot].
    + by rewrite app_nil_r.
Qed.

Lemma process_uploads_flag_witness :
  snd (process_uploads [a_pdf; b_pptx] (initial empty_disk))
    = Stops RerunException
  ∧ page (fst (process_uploads [a_pdf; b_pptx] (initial empty_disk)))
    = [markdown success_message]
  ∧ snd (process_uploads [b_pptx; a_pdf; c_pdf] (initial read_only_disk))
    = Stops (Raised (OSErr PermissionError))
  ∧ page (fst (process_uploads [b_pptx; a_pdf; c_pdf]
                 (initial read_only_disk))) = []
  ∧ len (uploaded_files (fst (process_uploads [b_pptx; a_pdf; c_pdf]
                                (initial read_only_disk)))) = 1%Z.
Proof.
  destruct (process_uploads_flag (initial empty_disk) [a_pdf; b_pptx])
    as (_ & Hok & _).
  destruct (Hok eq_refl) as (_ & _ & Hout & Hpage).
  destruct (process_uploads_flag (initial read_only_disk)
              [b_pptx; a_pdf; c_pdf]) as (Hlen & _ & Hbad).
  destruct (Hbad a_pdf (Disk.open_fails (OSErr PermissionError)) eq_refl)
    as (_ & _ & _ & _ & Hraise & Hpage').
  split_and!.
  - rewrite Hout. reflexivity.
  - rewrite Hpage. reflexivity.
  - exact Hraise.
  - exact Hpage'.
  - rewrite Hlen. reflexivity.
Defined.

(** C3, as the specification words it, fails: a batch of two new files adds
    two entries, yet the call does not return a value equal to 2 (the flag
    computed by the loop is [True], and the call ends in a rerun). *)
Lemma process_uploads_result_is_not_the_count :
  added_count (initial empty_disk) [a_pdf; b_pptx] = 2%Z
  ∧ snd (for_each [a_pdf; b_pptx] upload_one false (initial empty_disk))
    = Returns true
  ∧ ¬ ∃ (s' : State) (v : bool),
        process_uploads [a_pdf; b_pptx] (initial empty_disk) = (s', Returns v)
        ∧ int_of_bool v = added_count (initial empty_disk) [a_pdf; b_pptx].
Proof.
  split_and!.
  - reflexivity.
  - reflexivity.
  - intros (s' & v & Hrun & _). rewrite process_uploads_run in Hrun.
    simpl in Hrun. discriminate Hrun.
Qed.

(** C8. Every entry that a call of [process_uploads] appends is that of the
    first item of the batch under its name, and its ["size"] is the byte
    length of that item's payload, whether or not the call goes on to
    raise. The size is computed in the turn of the loop that adds the
    item: after that turn the last entry carries the length of the
    payload, and the file at its path holds the payload itself. When the
    names of the batch are plain, so that no two items share a file, the
    file of every appended entry still holds that payload when the call
    is over. *)
Theorem size_is_payload_length
    (s : State) (batch : list UploadedFile) (file : UploadedFile) :
  Forall (λ entry,
            ∃ item,
              head (filter (λ other, file_name other = name entry) batch)
                = Some item
              ∧ size entry = len (file_buffer item))
         (drop (length (uploaded_files s))
               (uploaded_files (fst (process_uploads batch s))))
  ∧ (Forall (λ other, plain_name (file_name other)) batch →
     Forall (λ entry,
               ∃ item,
                 head (filter (λ other, file_name other = name entry) batch)
                   = Some item
                 ∧ path entry = "uploads/" +:+ name entry
                 ∧ size entry = len (file_buffer item)
                 ∧ Disk.files (disk (fst (process_uploads batch s)))
                     !! path entry = Some (file_buffer item))
            (drop (length (uploaded_files s))
                  (uploaded_files (fst (process_uploads batch s)))))
  ∧ (file_name file ∉ names s →
     Disk.faults (disk s) (path_join UPLOAD_DIR (file_name file)) = None →
     let s1 := fst (upload_one file false s) in
     ∃ entry,
       last (uploaded_files s1) = Some entry
       ∧ name entry = file_name file
       ∧ size entry = len (file_buffer file)
       ∧ Disk.files (disk s1) !! path entry = Some (file_buffer file)).
Proof.
  split; [|split].
  - rewrite process_uploads_store, drop_app_length.
    apply Forall_fmap, Forall_forall. intros item Hin. exists item.
    split; [|done]. simpl.
    apply accepted_elem in Hin as [Hin _]. by eapply fresh_items_first.
  - intros Hplain. rewrite process_uploads_store, drop_app_length.
    apply Forall_fmap, Forall_forall. intros item Hin. exists item.
    pose proof (accepted_elem _ _ _ Hin) as [Hfresh _].
    assert (Hitem : plain_name (file_name item)).
    { eapply Forall_forall in Hplain; [exact Hplain|].
      by eapply taken_subset. }
    split_and!; [by eapply fresh_items_first|by apply path_join_plain|done|].
    simpl. by apply process_uploads_lookup_taken.
  - intros Hout Hok s1. subst s1. rewrite upload_one_absent by done.
    exists (entry_of file). simpl. rewrite last_snoc.
    split_and!; try done. apply lookup_insert_eq.
Qed.

Lemma size_is_payload_length_witness :
  (∃ entry,
     last (uploaded_files (fst (upload_one c_pdf false two_files)))
       = Some entry
     ∧ name entry = "c.pdf"
     ∧ size entry = 1%Z
     ∧ Disk.files (disk (fst (upload_one c_pdf false two_files)))
         !! path entry = Some [Byte.x25])
  ∧ Forall (λ entry,
              ∃ item,
                head (filter (λ other, file_name other = name entry)
                        [c_pdf; a_pdf_again; e_pdf]) = Some item
                ∧ path entry = "uploads/" +:+ name entry
                ∧ size entry = len (file_buffer item)
                ∧ Disk.files
                    (disk (fst (process_uploads [c_pdf; a_pdf_again; e_pdf]
                                  two_files)))
                    !! path entry = Some (file_buffer item))
           (drop (length (uploaded_files two_files))
                 (uploaded_files
                    (fst (process_uploads [c_pdf; a_pdf_again; e_pdf]
                            two_files)))).
Proof.
  split.
  - destruct (size_is_payload_length two_files [c_pdf] c_pdf)
      as (_ & _ & H).
    destruct H as (entry & Hlast & Hname & Hsize & Hdisk);
      [apply (bool_decide_unpack _); vm_compute; reflexivity|reflexivity|].
    exists entry. split_and!; done.
  - destruct (size_is_payload_length two_files [c_pdf; a_pdf_again; e_pdf]
                c_pdf) as (_ & H & _).
    apply H.
    repeat constructor; try discriminate;
      apply (bool_decide_unpack _); vm_compute; reflexivity.
Defined.
(** ** Deleting one entry *)

Lemma position_in_range n (i : Z) :
  (0 ≤ i < Z.of_nat n)%Z → position n i = Some (Z.to_nat i).
Proof.
  intros [H0 Hn]. unfold position.
  destruct (Z.leb_spec 0 i); [|lia]. destruct (Z.ltb_spec i (Z.of_nat n)); [done|lia].
Qed.

Lemma position_lt n i p : position n i = Some p → (p < n)%nat.
Proof.
  unfold position. intros H.
  destruct (Z.leb_spec 0 i).
  - destruct (Z.ltb_spec i (Z.of_nat n)); [|done]. inversion H. lia.
  - destruct (Z.leb_spec (- Z.of_nat n) i); [|done]. inversion H. lia.
Qed.


Lemma delete_file_raises s index :
  position (length (uploaded_files s)) index = None →
  delete_file index s = (s, Stops (Raised IndexError)).
Proof.
  intros Hp. unfold delete_file, bind, get_uploaded_files, getitem.
  rewrite Hp. reflexivity.
Qed.

Lemma delete_file_run s index p :
  position (length (uploaded_files s)) index = Some p →
  ∃ entry,
    uploaded_files s !! p = Some entry
    ∧ delete_file index s =
      ({| uploaded_files := delete p (uploaded_files s);
          disk := fst (Disk.remove (path entry) (disk s));
          page := page s
                  ++ [deletion_notice entry
                        (snd (Disk.remove (path entry) (disk s)))] |},
       Stops RerunException).
Proof.
  intros Hp. destruct (lookup_lt_is_Some_2 (uploaded_files s) p) as [entry He];
    [by eapply position_lt|].
  exists entry. split; [done|].
  unfold delete_file, bind, get_uploaded_files, getitem.
  rewrite Hp. simpl. rewrite He.
  unfold try_os_remove. destruct (Disk.remove (path entry) (disk s)) as [d r].
  destruct r as [e|]; simpl; unfold pop; rewrite Hp; simpl; rewrite He;
    reflexivity.
Qed.

Lemma delete_as_take_drop {A} (l : list A) p :
  delete p l = take p l ++ drop (S p) l.
Proof.
  revert p. induction l as [|x l IH]; intros [|p]; simpl; try done.
  by rewrite IH.
Qed.

(** C2. For an index [i] with [0 <= i < n], [delete_file] takes entry [i]
    out of the session list: the entries before and after it stay, in their
    order, and the length drops to [n - 1]. The disk plays no part in this:
    the removal of the file is attempted, its outcome only decides the
    notice shown, and over any other disk the resulting list is the same. *)
Theorem delete_file_removes_entry (s : State) (index : Z) :
  (0 ≤ index < len (uploaded_files s))%Z →
  ∃ entry,
    uploaded_files s !! Z.to_nat index = Some entry
    ∧ snd (delete_file index s) = Stops RerunException
    ∧ uploaded_files (fst (delete_file index s))
      = take (Z.to_nat index) (uploaded_files s)
        ++ drop (S (Z.to_nat index)) (uploaded_files s)
    ∧ len (uploaded_files (fst (delete_file index s)))
      = (len (uploaded_files s) - 1)%Z
    ∧ disk (fst (delete_file index s))
      = fst (Disk.remove (path entry) (disk s))
    ∧ page (fst (delete_file index s))
      = page s ++ [deletion_notice entry
                     (snd (Disk.remove (path entry) (disk s)))]
    ∧ ∀ d, uploaded_files (fst (delete_file index (on_disk d s)))
           = uploaded_files (fst (delete_file index s)).
Proof.
  intros Hrange. unfold len in Hrange.
  destruct (delete_file_run s index (Z.to_nat index)) as (entry & He & Hrun);
    [by apply position_in_range|].
  exists entry. rewrite Hrun. simpl. split_and!; try done.
  - apply delete_as_take_drop.
  - unfold len. rewrite length_delete by eauto.
    apply lookup_lt_Some in He. lia.
  - intros d.
    destruct (delete_file_run (on_disk d s) index (Z.to_nat index))
      as (entry' & _ & Hrun'); [by apply position_in_range|].
    by rewrite Hrun'.
Qed.

Lemma delete_file_removes_entry_witness :
  ∃ entry,
    uploaded_files two_files_locked !! Z.to_nat 0 = Some entry
    ∧ snd (delete_file 0 two_files_locked) = Stops RerunException
    ∧ uploaded_files (fst (delete_file 0 two_files_locked))
      = take (Z.to_nat 0) (uploaded_files two_files_locked)
        ++ drop (S (Z.to_nat 0)) (uploaded_files two_files_locked)
    ∧ len (uploaded_files (fst (delete_file 0 two_files_locked)))
      = (len (uploaded_files two_files_locked) - 1)%Z
    ∧ disk (fst (delete_file 0 two_files_locked))
      = fst (Disk.remove (path entry) (disk two_files_locked))
    ∧ page (fst (delete_file 0 two_files_locked))
      = page two_files_locked
        ++ [deletion_notice entry
              (snd (Disk.remove (path entry) (disk two_files_locked)))]
    ∧ ∀ d, uploaded_files (fst (delete_file 0 (on_disk d two_files_locked)))
           = uploaded_files (fst (delete_file 0 two_files_locked)).
Proof.
  apply (delete_file_removes_entry two_files_locked 0).
  unfold len; simpl; lia.
Defined.

Lemma position_negative n (i : Z) :
  (- Z.of_nat n ≤ i < 0)%Z →
  position n i = position n (Z.of_nat n + i).
Proof.
  intros [Hlo Hhi]. unfold position.
  destruct (Z.leb_spec 0 i); [lia|].
  destruct (Z.leb_spec (- Z.of_nat n) i); [|lia].
  destruct (Z.leb_spec 0 (Z.of_nat n + i)); [|lia].
  destruct (Z.ltb_spec (Z.of_nat n + i) (Z.of_nat n)); [done|lia].
Qed.

Lemma delete_file_by_position s i j :
  position (length (uploaded_files s)) i
  = position (length (uploaded_files s)) j →
  delete_file i s = delete_file j s.
Proof.
  intros Hpos.
  destruct (position (length (uploaded_files s)) j) as [p|] eqn:Hj.
  - destruct (delete_file_run s i p Hpos) as (e & He & ->).
    destruct (delete_file_run s j p Hj) as (e' & He' & ->).
    congruence.
  - by rewrite !delete_file_raises.
Qed.




(** ** Clearing the session *)

Lemma clear_loop files : ∀ s,
  for_each files
    (λ file_info (_ : unit), _ <~ try_os_remove (path file_info) ;; ret tt)
    tt s
  = (on_disk (foldl discard (disk s) files) s, Returns tt).
Proof.
  induction files as [|f rest IH]; intros s; simpl.
  - unfold on_disk, ret. by rewrite state_eta.
  - unfold bind at 1. unfold bind at 1. unfold try_os_remove, discard at 2.
    destruct (Disk.remove (path f) (disk s)) as [d r]. simpl.
    unfold ret at 1. rewrite IH. reflexivity.
Qed.

Lemma clear_all_files_run s :
  clear_all_files s =
  ({| uploaded_files := [];
      disk := foldl discard (disk s) (uploaded_files s);
      page := page s |},
   Stops RerunException).
Proof.
  unfold clear_all_files, bind, get_uploaded_files.
  rewrite clear_loop. reflexivity.
Qed.

Lemma discard_locked d f : Disk.locked (discard d f) = Disk.locked d.
Proof.
  unfold discard, Disk.remove.
  destruct (Disk.files d !! path f); [|done].
  by destruct (decide (path f ∈ Disk.locked d)).
Qed.

Lemma discard_absent d f p :
  Disk.files d !! p = None → Disk.files (discard d f) !! p = None.
Proof.
  intros Hp. unfold discard, Disk.remove.
  destruct (Disk.files d !! path f); [|done].
  destruct (decide (path f ∈ Disk.locked d)); [done|]. simpl.
  destruct (decide (path f = p)) as [->|Hne].
  - apply lookup_delete_eq.
  - by rewrite lookup_delete_ne.
Qed.

Lemma discard_removes d f :
  Disk.files (discard d f) !! path f = None ∨ path f ∈ Disk.locked d.
Proof.
  unfold discard, Disk.remove.
  destruct (Disk.files d !! path f) eqn:E; [|by left].
  destruct (decide (path f ∈ Disk.locked d)); [by right|left]. simpl.
  apply lookup_delete_eq.
Qed.


Lemma foldl_discard_absent files : ∀ d p,
  Disk.files d !! p = None → Disk.files (foldl discard d files) !! p = None.
Proof.
  induction files as [|f rest IH]; intros d p Hp; simpl; [done|].
  by apply IH, discard_absent.
Qed.

Lemma foldl_discard_removes files : ∀ d,
  Forall (λ f, Disk.files (foldl discard d files) !! path f = None
               ∨ path f ∈ Disk.locked d) files.
Proof.
  induction files as [|f rest IH]; intros d; simpl; constructor.
  - destruct (discard_removes d f) as [Hgone|Hlocked]; [left|by right].
    by apply foldl_discard_absent.
  - eapply Forall_impl; [apply IH|]. intros g. simpl.
    by rewrite discard_locked.
Qed.

(** C4. Whatever the session and the disk hold, [clear_all_files] ends with
    an empty session list. It tries to remove the file of every entry, one
    after the other; a removal that fails changes nothing and is not
    reported (nothing is drawn on the page); the handler never raises and
    ends, as always, in the rerun. Every entry's file is gone afterwards,
    unless its removal is refused. *)
Theorem clear_all_files_empties (s : State) :
  uploaded_files (fst (clear_all_files s)) = []
  ∧ snd (clear_all_files s) = Stops RerunException
  ∧ page (fst (clear_all_files s)) = page s
  ∧ disk (fst (clear_all_files s)) = foldl discard (disk s) (uploaded_files s)
  ∧ Forall (λ file_info,
              Disk.files (disk (fst (clear_all_files s))) !! path file_info
                = None
              ∨ path file_info ∈ Disk.locked (disk s))
           (uploaded_files s).
Proof.
  rewrite clear_all_files_run. simpl. split_and!; try done.
  apply foldl_discard_removes.
Qed.

(** ** No two entries share a name *)

Lemma process_uploads_names batch s :
  names (fst (process_uploads batch s))
  = names s ++ (file_name <$> taken s batch).
Proof.
  unfold names. rewrite process_uploads_store, fmap_app.
  by rewrite <- list_fmap_compose.
Qed.

Lemma delete_file_names index s :
  names (fst (delete_file index s)) `sublist_of` names s.
Proof.
  destruct (position (length (uploaded_files s)) index) as [p|] eqn:Hp.
  - destruct (delete_file_run s index p Hp) as (entry & _ & ->).
    unfold names; simpl. rewrite list_fmap_delete. apply sublist_delete.
  - by rewrite delete_file_raises.
Qed.

Lemma run_keeps_names_distinct a s :
  NoDup (names s) → NoDup (names (run a s)).
Proof.
  intros Hnd. destruct a as [batch|index|]; simpl.
  - rewrite process_uploads_names. by apply taken_NoDup.
  - eapply sublist_NoDup; [exact Hnd|apply delete_file_names].
  - rewrite clear_all_files_run. constructor.
Qed.

(** C6. In every state reached from the empty session by uploads, single
    deletions and clearing, the names of the entries are pairwise distinct;
    a batch that repeats a name is no exception, because the names are read
    again at every turn of the upload loop. *)
Theorem names_stay_distinct (s : State) :
  reachable s → NoDup (names s).
Proof.
  induction 1 as [d|a s Hreach IH].
  - constructor.
  - by apply run_keeps_names_distinct.
Qed.

Lemma names_stay_distinct_witness :
  NoDup (names (run (DeleteAt 0)
                  (run (AddFiles [a_pdf; a_pdf_again; b_pptx; a_pdf])
                     (initial empty_disk)))).
Proof.
  apply names_stay_distinct.
  apply reachable_step, reachable_step, reachable_initial.
Defined.

(** ** Rounding *)

Section Rounding.
Import Float.
Local Open Scope Z_scope.

Lemma div_half_even_near n d :
  0 ≤ n → 0 < d →
  0 ≤ div_half_even n d ∧ 2 * Z.abs (n - d * div_half_even n d) ≤ d.
Proof.
  intros Hn Hd. unfold div_half_even.
  pose proof (Z.div_mod n d ltac:(lia)) as Hdm.
  pose proof (Z.mod_pos_bound n d Hd) as Hr.
  pose proof (Z.div_pos n d Hn Hd) as Hq.
  set (q := n / d) in *. set (r := n mod d) in *.
  destruct (Z.ltb_spec (2 * r) d); [lia|].
  destruct (Z.ltb_spec d (2 * r)); [lia|].
  destruct (Z.even q); lia.
Qed.

Lemma div_half_even_exact q d : 0 < d → div_half_even (d * q) d = q.
Proof.
  intros Hd. unfold div_half_even.
  rewrite (Z.mul_comm d q), Z.div_mul, Z.mod_mul by lia.
  destruct (Z.ltb_spec (2 * 0) d); [done|lia].
Qed.

Lemma div_half_even_scale c n d :
  0 < c → 0 < d → div_half_even (c * n) (c * d) = div_half_even n d.
Proof.
  intros Hc Hd. unfold div_half_even.
  rewrite Z.div_mul_cancel_l, Z.mul_mod_distr_l by lia.
  pose proof (Z.mod_pos_bound n d Hd) as Hr.
  set (q := n / d). set (r := n mod d) in *.
  destruct (Z.ltb_spec (2 * (c * r)) (c * d)), (Z.ltb_spec (2 * r) d);
    try nia.
  destruct (Z.ltb_spec (c * d) (2 * (c * r))), (Z.ltb_spec d (2 * r));
    nia.
Qed.

Lemma ulp_expo_pow2 size k :
  0 ≤ k → 2 ^ k ≤ size →
  ulp_expo size (2 ^ k) = Z.log2 size - k - 52.
Proof.
  intros Hk Hsize. unfold ulp_expo.
  assert (0 < size) by (pose proof (Z.pow_pos_nonneg 2 k); lia).
  assert (k ≤ Z.log2 size) by (by apply Z.log2_le_pow2).
  rewrite Z.log2_pow2 by done.
  destruct (Z.leb_spec 0 (Z.log2 size - k)); [|lia].
  rewrite <- Z.pow_add_r by lia.
  replace (k + (Z.log2 size - k)) with (Z.log2 size) by lia.
  destruct (Z.leb_spec (2 ^ Z.log2 size) size) as [_|Hlt]; [lia|].
  pose proof (Z.log2_spec size). lia.
Qed.

(** Dividing by a power of two: below the overflow bound the quotient is a
    positive float. It is exact as long as the dividend has at most 53
    bits, so that the tenths shown are rounded once; in general they are
    off by at most half a tenth plus the rounding of the division. *)
Lemma truediv_pow2 size k :
  0 < k → 2 ^ k < size → size < 2 ^ (1024 + k) - 2 ^ (970 + k) →
  ∃ x, truediv size (2 ^ k) = Returns x
       ∧ 0 ≤ mant x
       ∧ (size < 2 ^ 53 → tenths x = div_half_even (10 * size) (2 ^ k))
       ∧ 2 * Z.abs (10 * size - 2 ^ k * tenths x)
         ≤ 2 ^ k + 10 * size / 2 ^ 52.
Proof.
  intros Hk Hlo Hhi.
  assert (Hp : 0 < 2 ^ k) by (apply Z.pow_pos_nonneg; lia).
  assert (Hs : 0 < size) by lia.
  assert (Hslack : 0 ≤ 10 * size / 2 ^ 52) by (apply Z.div_pos; lia).
  unfold truediv.
  destruct (Z.eqb_spec (2 ^ k) 0); [lia|].
  destruct (Z.eqb_spec size 0); [lia|].
  rewrite (Z.abs_eq size), (Z.abs_eq (2 ^ k)) by lia.
  rewrite (Z.sgn_pos size), (Z.sgn_pos (2 ^ k)) by lia.
  unfold nearest. rewrite ulp_expo_pow2 by lia.
  pose proof (Z.log2_spec size Hs) as [HL1 HL2].
  assert (HkL : k ≤ Z.log2 size) by (apply Z.log2_le_pow2; lia).
  set (L := Z.log2 size) in *. set (e := L - k - 52).
  assert (Hulp : 53 ≤ L → 10 * 2 ^ (L - 52) ≤ 10 * size / 2 ^ 52).
  { intros H53. apply Z.div_le_lower_bound; [lia|].
    assert (2 ^ L = 2 ^ 52 * 2 ^ (L - 52)); [|lia].
    rewrite <- Z.pow_add_r by lia. f_equal. lia. }
  destruct (Z.leb_spec 0 e) as [He|He].
  - set (m := div_half_even size (2 ^ k * 2 ^ e)).
    assert (HD : 2 ^ k * 2 ^ e = 2 ^ (L - 52)).
    { rewrite <- Z.pow_add_r by lia. f_equal. lia. }
    assert (HL : L < 1024 + k).
    { apply (Z.pow_lt_mono_r_iff 2); lia. }
    assert (HDle : 2 ^ (L - 52) ≤ 2 * 2 ^ (970 + k)).
    { rewrite <- Z.pow_succ_r by lia. apply Z.pow_le_mono_r; lia. }
    assert (Hsplit : 2 ^ (1024 + k) = 2 ^ 1024 * 2 ^ k).
    { apply Z.pow_add_r; lia. }
    assert (He0 : 0 < 2 ^ e) by (apply Z.pow_pos_nonneg; lia).
    destruct (div_half_even_near size (2 ^ k * 2 ^ e)) as [Hm0 Hm]; [lia..|].
    fold m in Hm0, Hm.
    assert (Hfin : m * 2 ^ e < 2 ^ 1024).
    { set (P := 2 ^ 1024) in *. set (K := 2 ^ k) in *. set (E := 2 ^ e) in *.
      set (T := 2 ^ (970 + k)) in *. set (B := 2 ^ (1024 + k)) in *.
      assert (K * (m * E) < K * P); [|nia].
      assert (2 * (K * E * m) ≤ 2 * size + K * E) by lia.
      nia. }
    unfold finite. cbn [mant expo].
    destruct (Z.leb_spec 0 e); [|lia].
    rewrite (Z.abs_eq m) by done.
    destruct (Z.ltb_spec (m * 2 ^ e) (2 ^ 1024)); [|lia].
    eexists. split; [reflexivity|]. cbn [mant expo]. split; [lia|].
    assert (H53 : 2 ^ 53 ≤ 2 ^ L) by (apply Z.pow_le_mono_r; lia).
    split; [intros ?; lia|].
    unfold tenths, scale_half_even. cbn [mant expo].
    destruct (Z.leb_spec 0 e); [|lia].
    rewrite (Z.abs_eq (1 * 1 * m)) by lia.
    replace (2 ^ k * (10 * (1 * 1 * m) * 2 ^ e))
      with (10 * (2 ^ k * 2 ^ e * m)) by lia.
    specialize (Hulp ltac:(lia)). rewrite HD in *. lia.
  - set (m := div_half_even (size * 2 ^ (- e)) (2 ^ k)).
    assert (He0 : 0 < 2 ^ (- e)) by (apply Z.pow_pos_nonneg; lia).
    destruct (div_half_even_near (size * 2 ^ (- e)) (2 ^ k)) as [Hm0 Hm];
      [nia|lia|].
    fold m in Hm0, Hm.
    unfold finite. cbn [mant expo].
    destruct (Z.leb_spec 0 e); [lia|].
    eexists. split; [reflexivity|]. cbn [mant expo]. split; [lia|].
    unfold tenths, scale_half_even. cbn [mant expo].
    destruct (Z.leb_spec 0 e); [lia|].
    rewrite (Z.abs_eq (1 * 1 * m)) by lia.
    replace (10 * (1 * 1 * m)) with (10 * m) by lia.
    assert (Hexact : L < 53 → div_half_even (10 * m) (2 ^ (- e))
                              = div_half_even (10 * size) (2 ^ k)).
    { intros HL.
      assert (Hc : 0 < 2 ^ (52 - L)) by (apply Z.pow_pos_nonneg; lia).
      assert (Hexp : 2 ^ (- e) = 2 ^ (52 - L) * 2 ^ k).
      { rewrite <- Z.pow_add_r by lia. f_equal. lia. }
      assert (Hmx : m = size * 2 ^ (52 - L)).
      { unfold m. rewrite Hexp.
        replace (size * (2 ^ (52 - L) * 2 ^ k))
          with (2 ^ k * (size * 2 ^ (52 - L))) by lia.
        by apply div_half_even_exact. }
      rewrite Hexp, Hmx.
      replace (10 * (size * 2 ^ (52 - L)))
        with (2 ^ (52 - L) * (10 * size)) by lia.
      by apply div_half_even_scale. }
    split.
    { intros H53. apply Hexact. by apply Z.log2_lt_pow2. }
    destruct (Z.lt_ge_cases L 53) as [HL|HL].
    + rewrite Hexact by done.
      destruct (div_half_even_near (10 * size) (2 ^ k)) as [_ Ht]; lia.
    + specialize (Hulp HL).
      assert (HD0 : 0 < 2 ^ (L - 52)) by (apply Z.pow_pos_nonneg; lia).
      assert (HAD : 2 ^ (- e) * 2 ^ (L - 52) = 2 ^ k).
      { rewrite <- Z.pow_add_r by lia. f_equal. lia. }
      destruct (div_half_even_near (10 * m) (2 ^ (- e))) as [_ Ht]; [lia..|].
      set (t := div_half_even (10 * m) (2 ^ (- e))) in *.
      set (A := 2 ^ (- e)) in *. set (D := 2 ^ (L - 52)) in *.
      set (K := 2 ^ k) in *. set (S := 10 * size / 2 ^ 52) in *.
      assert (Hu : 2 * Z.abs (size - D * m) ≤ D).
      { assert (A * (2 * Z.abs (size - D * m)) ≤ A * D); [|nia].
        rewrite HAD.
        replace (A * (2 * Z.abs (size - D * m)))
          with (2 * Z.abs (size * A - K * m)); [done|].
        rewrite <- HAD.
        replace (size * A - A * D * m) with (A * (size - D * m)) by lia.
        rewrite Z.abs_mul, (Z.abs_eq A) by lia. lia. }
      assert (Hv : 2 * (D * Z.abs (10 * m - A * t)) ≤ K).
      { rewrite <- HAD. nia. }
      replace (10 * size - K * t)
        with (10 * (size - D * m) + D * (10 * m - A * t)) by (rewrite <- HAD; lia).
      pose proof (Z.abs_triangle (10 * (size - D * m)) (D * (10 * m - A * t)))
        as Htri.
      rewrite !Z.abs_mul, (Z.abs_eq 10), (Z.abs_eq D) in Htri by lia.
      lia.
Qed.

(** At and beyond the bound the quotient rounds to [2 ^ 1024] or more. *)
Lemma truediv_pow2_overflow size k :
  0 < k → 2 ^ (1024 + k) - 2 ^ (970 + k) ≤ size →
  truediv size (2 ^ k) = Stops (Raised OverflowError).
Proof.
  intros Hk Hhi.
  assert (Hp : 0 < 2 ^ k) by (apply Z.pow_pos_nonneg; lia).
  assert (Hsplit : 2 ^ (1024 + k) = 2 ^ 54 * 2 ^ (970 + k)).
  { rewrite <- Z.pow_add_r by lia. f_equal. lia. }
  assert (HT : 0 < 2 ^ (970 + k)) by (apply Z.pow_pos_nonneg; lia).
  assert (Hlow : 2 ^ (1023 + k) ≤ size).
  { replace (1023 + k) with (53 + (970 + k)) by lia.
    rewrite Z.pow_add_r by lia. change (2 ^ 54) with (2 * 2 ^ 53) in Hsplit.
    nia. }
  assert (Hs : 0 < size).
  { pose proof (Z.pow_pos_nonneg 2 (1023 + k)). lia. }
  unfold truediv.
  destruct (Z.eqb_spec (2 ^ k) 0); [lia|].
  destruct (Z.eqb_spec size 0); [lia|].
  rewrite (Z.abs_eq size), (Z.abs_eq (2 ^ k)) by lia.
  assert (H2k : 2 ^ k ≤ size).
  { assert (2 ^ k ≤ 2 ^ (1023 + k)) by (apply Z.pow_le_mono_r; lia). lia. }
  unfold nearest. rewrite ulp_expo_pow2 by lia.
  pose proof (Z.log2_spec size Hs) as [HL1 HL2].
  assert (HL : 1023 + k ≤ Z.log2 size) by (apply Z.log2_le_pow2; lia).
  set (L := Z.log2 size) in *. set (e := L - k - 52).
  destruct (Z.leb_spec 0 e) as [He|He]; [|lia].
  set (m := div_half_even size (2 ^ k * 2 ^ e)).
  assert (He0 : 0 < 2 ^ e) by (apply Z.pow_pos_nonneg; lia).
  assert (Hbig : 2 ^ 1024 ≤ m * 2 ^ e); cycle 1.
  { unfold finite. cbn [mant expo].
    destruct (Z.leb_spec 0 e); [|lia].
    assert (0 ≤ m) by (apply div_half_even_near; lia).
    rewrite (Z.abs_eq m) by done.
    destruct (Z.ltb_spec (m * 2 ^ e) (2 ^ 1024)); [lia|done]. }
  assert (HD : 2 ^ k * 2 ^ e = 2 ^ (L - 52)).
  { rewrite <- Z.pow_add_r by lia. f_equal. lia. }
  assert (HLD : 2 ^ L = 2 ^ 52 * 2 ^ (L - 52)).
  { rewrite <- Z.pow_add_r by lia. f_equal. lia. }
  assert (HD0 : 0 < 2 ^ (L - 52)) by (apply Z.pow_pos_nonneg; lia).
  destruct (Z.le_gt_cases (1024 + k) L) as [Hcase|Hcase].
  - (* at least 1025 + k bits: the mantissa alone is 2 ^ 52 or more *)
    assert (Hm : 2 ^ 52 ≤ m).
    { unfold m, div_half_even. rewrite HD.
      pose proof (Z.div_le_lower_bound size (2 ^ (L - 52)) (2 ^ 52) HD0) as Hq.
      set (q := size / 2 ^ (L - 52)) in *.
      assert (2 ^ 52 ≤ q) by (apply Hq; lia).
      destruct (_ <? _); [done|]. destruct (_ <? _); [lia|].
      destruct (Z.even q); lia. }
    assert (2 ^ 1024 ≤ 2 ^ 52 * 2 ^ e); [|nia].
    rewrite <- Z.pow_add_r by lia. apply Z.pow_le_mono_r; lia.
  - (* exactly 1024 + k bits: the mantissa rounds up to 2 ^ 53 *)
    assert (HLeq : L = 1023 + k) by lia.
    assert (HDT : 2 ^ (L - 52) = 2 * 2 ^ (970 + k)).
    { rewrite <- Z.pow_succ_r by lia. f_equal. lia. }
    assert (He971 : e = 971) by lia.
    assert (Hq : size / 2 ^ (L - 52) = 2 ^ 53 - 1).
    { symmetry. apply (Z.div_unique_pos _ _ _ (size - (2 ^ 53 - 1) * 2 ^ (L - 52))).
      - replace (Z.succ L) with (1 + L) in HL2 by lia.
        rewrite Z.pow_add_r, HLD in HL2 by lia.
        change (2 ^ 54) with (2 * 2 ^ 53) in Hsplit.
        change (2 ^ 1) with 2 in HL2. change (2 ^ 53) with (2 * 2 ^ 52). nia.
      - lia. }
    assert (Hm : m = 2 ^ 53).
    { unfold m, div_half_even. rewrite HD.
      pose proof (Z.div_mod size (2 ^ (L - 52)) ltac:(lia)) as Hdm.
      rewrite Hq in *. set (r := size mod 2 ^ (L - 52)) in *.
      assert (Hr : 2 ^ (L - 52) ≤ 2 * r).
      { change (2 ^ 54) with (2 * 2 ^ 53) in Hsplit. nia. }
      destruct (Z.ltb_spec (2 * r) (2 ^ (L - 52))); [lia|].
      destruct (Z.ltb_spec (2 ^ (L - 52)) (2 * r)); [lia|].
      change (Z.even (2 ^ 53 - 1)) with false. lia. }
    rewrite Hm, He971. change (2 ^ 53 * 2 ^ 971) with (2 ^ 1024). lia.
Qed.

End Rounding.

(** ** The size label *)

(** C7. For every size below [overflow_size = 2^1044 - 2^990], hence for
    every byte length (a length is at most [2^63 - 1]), the label is
    ["N bytes"] up to 1024, the quotient by 1024 with one decimal and
    [" KB"] above 1024 up to 1024 * 1024, and the quotient by 1024 * 1024
    with one decimal and [" MB"] above that. The quotient is the float
    nearest to it: up to 53 bits of size it is exact, and the decimal
    shown is then the tenth nearest to [size / 1024] (or
    [size / 1048576]), the even one on a tie; beyond, the rounding of the
    division adds at most [10 * size / 2^52] to the error bound. In
    particular 0 gives ["0 bytes"], 1500 gives ["1.5 KB"], 5242880 gives
    ["5.0 MB"] and 2000000 gives ["1.9 MB"]. *)
Theorem format_file_size_label (size : Z) :
  (size < overflow_size)%Z →
  ((size ≤ 1024)%Z →
     format_file_size size = Returns (pretty size +:+ " bytes"))
  ∧ ((1024 < size ≤ 1024 * 1024)%Z →
     let t := Float.div_half_even (10 * size) 1024 in
     format_file_size size = Returns (Float.fixed1 t +:+ " KB")
     ∧ (2 * Z.abs (10 * size - 1024 * t) ≤ 1024)%Z)
  ∧ ((1024 * 1024 < size)%Z →
     ∃ x, Float.truediv size (1024 * 1024) = Returns x
          ∧ format_file_size size
            = Returns (Float.fixed1 (Float.tenths x) +:+ " MB")
          ∧ (2 * Z.abs (10 * size - 1024 * 1024 * Float.tenths x)
             ≤ 1024 * 1024 + 10 * size / 2 ^ 52)%Z
          ∧ ((size < 2 ^ 53)%Z →
             Float.tenths x = Float.div_half_even (10 * size) (1024 * 1024)
             ∧ (2 * Z.abs (10 * size - 1024 * 1024 * Float.tenths x)
                ≤ 1024 * 1024)%Z))
  ∧ format_file_size 0 = Returns "0 bytes"
  ∧ format_file_size 1500 = Returns "1.5 KB"
  ∧ format_file_size 5242880 = Returns "5.0 MB"
  ∧ format_file_size 2000000 = Returns "1.9 MB".
Proof.
  intros Hfits. split_and!; [| | |vm_compute; reflexivity..].
  - intros Hsmall. unfold format_file_size.
    destruct (Z.ltb_spec (1024 * 1024) size); [lia|].
    destruct (Z.ltb_spec 1024 size); [lia|done].
  - intros [Hlo Hhi] t. unfold format_file_size.
    destruct (Z.ltb_spec (1024 * 1024) size); [lia|].
    destruct (Z.ltb_spec 1024 size); [|lia].
    destruct (truediv_pow2 size 10) as (x & Hx & Hpos & Hexact & _);
      [lia|lia|lia|].
    change (2 ^ 10)%Z with 1024%Z in Hx, Hexact. rewrite Hx.
    unfold Float.format_1f. destruct (Z.ltb_spec (Float.mant x) 0); [lia|].
    rewrite Hexact by lia. fold t. split; [done|].
    apply div_half_even_near; lia.
  - intros Hlo. unfold overflow_size in Hfits. unfold format_file_size.
    destruct (Z.ltb_spec (1024 * 1024) size); [|lia].
    destruct (truediv_pow2 size 20) as (x & Hx & Hpos & Hexact & Hnear);
      [lia|lia|exact Hfits|].
    change (2 ^ 20)%Z with (1024 * 1024)%Z in Hx, Hexact, Hnear.
    exists x. rewrite Hx. split; [done|].
    unfold Float.format_1f. destruct (Z.ltb_spec (Float.mant x) 0); [lia|].
    split; [done|]. split; [exact Hnear|].
    intros H53. rewrite Hexact by done. split; [done|].
    apply div_half_even_near; lia.
Qed.

Lemma format_file_size_label_witness :
  (let t := Float.div_half_even (10 * 1500) 1024 in
   format_file_size 1500 = Returns (Float.fixed1 t +:+ " KB")
   ∧ (2 * Z.abs (10 * 1500 - 1024 * t) ≤ 1024)%Z)
  ∧ (∃ x, Float.truediv 2000000 (1024 * 1024) = Returns x
          ∧ format_file_size 2000000
            = Returns (Float.fixed1 (Float.tenths x) +:+ " MB")
          ∧ (2 * Z.abs (10 * 2000000 - 1024 * 1024 * Float.tenths x)
             ≤ 1024 * 1024 + 10 * 2000000 / 2 ^ 52)%Z
          ∧ ((2000000 < 2 ^ 53)%Z →
             Float.tenths x
               = Float.div_half_even (10 * 2000000) (1024 * 1024)
             ∧ (2 * Z.abs (10 * 2000000 - 1024 * 1024 * Float.tenths x)
                ≤ 1024 * 1024)%Z))
  ∧ format_file_size (-3) = Returns (pretty (-3)%Z +:+ " bytes")
  ∧ (∃ x, Float.truediv (2 ^ 63 - 1) (1024 * 1024) = Returns x
          ∧ format_file_size (2 ^ 63 - 1)
            = Returns (Float.fixed1 (Float.tenths x) +:+ " MB")).
Proof.
  split; [|split; [|split]].
  - destruct (format_file_size_label 1500) as (_ & Hkb & _); [reflexivity|].
    apply Hkb. lia.
  - destruct (format_file_size_label 2000000) as (_ & _ & Hmb & _);
      [reflexivity|].
    apply Hmb. reflexivity.
  - destruct (format_file_size_label (-3)) as (Hbytes & _); [reflexivity|].
    apply Hbytes. lia.
  - destruct (format_file_size_label (2 ^ 63 - 1)) as (_ & _ & Hmb & _);
      [reflexivity|].
    destruct Hmb as (x & Hx & Hlabel & _); [reflexivity|].
    exists x. split; [exact Hx|exact Hlabel].
Defined.

(** Where the bound comes from: a byte length is far below
    [overflow_size], and from [overflow_size] on the quotient no longer
    fits a float, so that the division raises [OverflowError]. *)
Example format_file_size_overflows :
  (2 ^ 63 - 1 < overflow_size)%Z
  ∧ format_file_size (2 ^ 63 - 1) = Returns "8796093022208.0 MB"
  ∧ format_file_size overflow_size = Stops (Raised OverflowError)
  ∧ ∀ size, (overflow_size ≤ size)%Z →
            format_file_size size = Stops (Raised OverflowError).
Proof.
  split_and!; [vm_compute; reflexivity..|].
  intros size Hbig. unfold overflow_size in Hbig. unfold format_file_size.
  destruct (Z.ltb_spec (1024 * 1024) size); [|lia].
  change (1024 * 1024)%Z with (2 ^ 20)%Z.
  by rewrite truediv_pow2_overflow.
Qed.

(** C10. Both comparisons are strict: 1024 is still counted in bytes and
    1024 * 1024 still in KB, while the next sizes change unit. *)
Theorem format_file_size_boundaries :
  format_file_size 1024 = Returns "1024 bytes"
  ∧ format_file_size 1048576 = Returns "1024.0 KB"
  ∧ format_file_size 1025 = Returns "1.0 KB"
  ∧ format_file_size 1048577 = Returns "1.0 MB".
Proof. split_and!; vm_compute; reflexivity. Qed.

(** ** Statistics *)

Lemma sum_ones_length files :
  sum_ones files = len (filter (λ f, type f = PDF) files).
Proof.
  unfold sum_ones, len.
  induction (filter (λ f, type f = PDF) files) as [|f l IH]; [done|].
  rewrite fmap_cons, length_cons, Nat2Z.inj_succ. cbn [foldr].
  rewrite IH. lia.
Qed.

Lemma filter_all {A} (P : A → Prop) `{∀ x, Decision (P x)} (l : list A) :
  Forall P l → filter P l = l.
Proof.
  induction 1 as [|x l Hx _ IH]; [done|].
  rewrite filter_cons_True by done. by rewrite IH.
Qed.

Lemma filter_none {A} (P : A → Prop) `{∀ x, Decision (P x)} (l : list A) :
  Forall (λ x, ¬ P x) l → filter P l = [].
Proof.
  induction 1 as [|x l Hx _ IH]; [done|].
  by rewrite filter_cons_False.
Qed.

Lemma length_filter_split {A} (P : A → Prop) `{∀ x, Decision (P x)}
    (l : list A) :
  length l = (length (filter P l) + length (filter (λ x, ¬ P x) l))%nat.
Proof.
  rewrite <- length_app. apply Permutation_length.
  symmetry. apply filter_app_complement.
Qed.

(** C5. [get_file_stats] returns the number of entries, the number of
    entries whose type is ["application/pdf"], and their difference, which
    is the number of all other entries. A session list made of three PDF
    entries and two presentations, in any order, yields (5, 3, 2). *)
Theorem get_file_stats_counts (s : State) (pdfs others : list FileInfo) :
  get_file_stats s
    = (len (uploaded_files s),
       len (filter (λ f, type f = PDF) (uploaded_files s)),
       (len (uploaded_files s)
        - len (filter (λ f, type f = PDF) (uploaded_files s)))%Z)
  ∧ snd (get_file_stats s)
    = len (filter (λ f, type f ≠ PDF) (uploaded_files s))
  ∧ (uploaded_files s ≡ₚ pdfs ++ others →
     Forall (λ f, type f = PDF) pdfs →
     Forall (λ f, type f ≠ PDF) others →
     get_file_stats s = ((len pdfs + len others)%Z, len pdfs, len others)).
Proof.
  assert (Hstats : get_file_stats s
    = (len (uploaded_files s),
       len (filter (λ f, type f = PDF) (uploaded_files s)),
       (len (uploaded_files s)
        - len (filter (λ f, type f = PDF) (uploaded_files s)))%Z)).
  { unfold get_file_stats. by rewrite sum_ones_length. }
  split_and!; [done| |].
  - rewrite Hstats. simpl. unfold len.
    rewrite (length_filter_split (λ f, type f = PDF) (uploaded_files s)) at 1.
    lia.
  - intros Hperm Hpdfs Hothers. rewrite Hstats. unfold len.
    assert (Hf : filter (λ f, type f = PDF) (uploaded_files s) ≡ₚ pdfs).
    { rewrite Hperm, filter_app, filter_all, filter_none by done.
      by rewrite app_nil_r. }
    rewrite Hf, Hperm, length_app. repeat f_equal; lia.
Qed.

Lemma get_file_stats_counts_witness :
  get_file_stats five_files = (5, 3, 2)%Z.
Proof.
  apply (get_file_stats_counts five_files
           [entry_of a_pdf; entry_of c_pdf; entry_of e_pdf]
           [entry_of b_pptx; entry_of d_pptx]).
  - apply (bool_decide_unpack _). vm_compute. reflexivity.
  - repeat constructor.
  - repeat constructor; discriminate.
Defined.

(** ** Sample runs *)

(** The file is removed: a success notice, the entry and the file are gone. *)
Example delete_file_removed :
  uploaded_files (fst (delete_file 0 two_files)) = [entry_of b_pptx]
  ∧ page (fst (delete_file 0 two_files)) = [success "Deleted a.pdf"]
  ∧ Disk.files (disk (fst (delete_file 0 two_files))) !! "uploads/a.pdf" = None
  ∧ snd (delete_file 0 two_files) = Stops RerunException.
Proof. split_and!; vm_compute; reflexivity. Qed.

(** The removal is refused: an error notice, the entry is gone all the same
    and the file stays behind. *)
Example delete_file_refused :
  uploaded_files (fst (delete_file 0 two_files_locked)) = [entry_of b_pptx]
  ∧ page (fst (delete_file 0 two_files_locked))
    = [error_failed_to_delete PermissionError]
  ∧ Disk.files (disk (fst (delete_file 0 two_files_locked))) !! "uploads/a.pdf"
    = Some (file_buffer a_pdf)
  ∧ snd (delete_file 0 two_files_locked) = Stops RerunException.
Proof. split_and!; vm_compute; reflexivity. Qed.

(** The file is already missing. *)
Example delete_file_missing :
  uploaded_files (fst (delete_file 0 two_files_missing)) = [entry_of b_pptx]
  ∧ page (fst (delete_file 0 two_files_missing))
    = [error_failed_to_delete FileNotFoundError]
  ∧ snd (delete_file 0 two_files_missing) = Stops RerunException.
Proof. split_and!; vm_compute; reflexivity. Qed.

(** Python counts a negative index from the end of the list. *)
Example delete_file_from_the_end :
  uploaded_files (fst (delete_file (-1) two_files)) = [entry_of a_pdf]
  ∧ uploaded_files (fst (delete_file (-2) two_files)) = [entry_of b_pptx].
Proof. split; vm_compute; reflexivity. Qed.

(** Clearing with one removal refused: the list is empty, nothing is drawn,
    the refused file is left on the disk and the other one is gone. *)
Example clear_all_files_refused :
  uploaded_files (fst (clear_all_files two_files_locked)) = []
  ∧ page (fst (clear_all_files two_files_locked)) = []
  ∧ Disk.files (disk (fst (clear_all_files two_files_locked))) !! "uploads/a.pdf"
    = Some (file_buffer a_pdf)
  ∧ Disk.files (disk (fst (clear_all_files two_files_locked))) !! "uploads/b.pptx"
    = None.
Proof. split_and!; vm_compute; reflexivity. Qed.

(** A repeated name inside one batch: the second item is dropped and the
    first one's bytes are the ones on the disk. *)
Example process_uploads_repeated_name :
  uploaded_files
    (fst (process_uploads [a_pdf; a_pdf_again; b_pptx] (initial empty_disk)))
  = [entry_of a_pdf; entry_of b_pptx]
  ∧ Disk.files
      (disk (fst (process_uploads [a_pdf; a_pdf_again; b_pptx]
                    (initial empty_disk)))) !! "uploads/a.pdf"
    = Some (file_buffer a_pdf)
  ∧ get_file_stats
      (fst (process_uploads [a_pdf; a_pdf_again; b_pptx] (initial empty_disk)))
    = (2, 1, 1)%Z.
Proof. split_and!; vm_compute; reflexivity. Qed.

(** Ties go to the even tenth: 1280 / 1024 = 1.25 and 1792 / 1024 = 1.75. *)
Example format_file_size_ties :
  format_file_size 1280 = Returns "1.2 KB"
  ∧ format_file_size 1792 = Returns "1.8 KB".
Proof. split; vm_compute; reflexivity. Qed.

(** The last size with a label, and a size of 63 bits. *)
Example format_file_size_large :
  format_file_size (2 ^ 63 - 1) = Returns "8796093022208.0 MB"
  ∧ (∃ label, format_file_size (overflow_size - 1) = Returns label).
Proof.
  split; [vm_compute; reflexivity|].
  eexists. vm_compute. reflexivity.
Qed.

(** ** Uploading again *)

Lemma fresh_items_absorbed batch : ∀ existing,
  Forall (λ file, file_name file
                    ∈ existing ++ (file_name <$> fresh_items existing batch))
         batch.
Proof.
  induction batch as [|x rest IH]; intros existing; simpl; constructor.
  - destruct (decide (file_name x ∈ existing)); set_solver.
  - destruct (decide (file_name x ∈ existing)); [apply IH|].
    rewrite fmap_cons, cons_middle, app_assoc. apply IH.
Qed.

Lemma no_raise_no_fault batch s :
  (∀ e, snd (process_uploads batch s) ≠ Stops (Raised e)) →
  upload_fault s batch = None.
Proof.
  intros H. destruct (upload_fault s batch) as [[f fault]|] eqn:E; [|done].
  exfalso. apply (H (fault_error fault)).
  by rewrite process_uploads_outcome, E.
Qed.

Lemma taken_all s batch :
  upload_fault s batch = None → taken s batch = fresh_items (names s) batch.
Proof. apply accepted_all. Qed.

Lemma process_uploads_nothing_new batch s :
  fresh_items (names s) batch = [] →
  process_uploads batch s = (s, Returns false).
Proof.
  intros H. rewrite process_uploads_run. unfold taken, upload_fault.
  by rewrite H.
Qed.

(** X1. When a call of [process_uploads] has not raised, calling it again
    with the batch it has just taken in changes nothing and returns
    [False]: the rerun that an upload triggers is not triggered a second
    time by the same files. *)
Theorem process_uploads_twice (s : State) (batch : list UploadedFile) :
  (∀ e, snd (process_uploads batch s) ≠ Stops (Raised e)) →
  process_uploads batch (fst (process_uploads batch s))
  = (fst (process_uploads batch s), Returns false).
Proof.
  intros Hok%no_raise_no_fault. apply process_uploads_nothing_new.
  rewrite process_uploads_names, (taken_all _ _ Hok).
  apply fresh_items_all_present, fresh_items_absorbed.
Qed.

Lemma process_uploads_twice_witness :
  process_uploads [a_pdf; a_pdf_again; b_pptx]
    (fst (process_uploads [a_pdf; a_pdf_again; b_pptx] (initial empty_disk)))
  = (fst (process_uploads [a_pdf; a_pdf_again; b_pptx] (initial empty_disk)),
     Returns false).
Proof.
  apply (process_uploads_twice (initial empty_disk)
           [a_pdf; a_pdf_again; b_pptx]).
  intros e. vm_compute. discriminate.
Defined.

Lemma fresh_items_one batch : ∀ existing n file,
  n ∉ existing →
  Forall (λ g, file_name g ∈ existing ∨ file_name g = n) batch →
  head (filter (λ g, file_name g = n) batch) = Some file →
  fresh_items existing batch = [file].
Proof.
  induction batch as [|x rest IH]; intros existing n file Hn Hall Hhead;
    simpl; [done|].
  inversion Hall as [|? ? Hx Hrest]; subst.
  destruct (decide (file_name x ∈ existing)) as [Hin|Hout].
  - rewrite filter_cons_False in Hhead by (intros Heq; congruence). eauto.
  - destruct Hx as [?|Hx]; [done|].
    rewrite filter_cons_True in Hhead by done. simpl in Hhead.
    inversion Hhead; subst. f_equal.
    apply fresh_items_all_present.
    eapply Forall_impl; [exact Hrest|]. intros g [Hg| ->];
      apply elem_of_app; [by left|right; apply list_elem_of_here].
Qed.

Lemma NoDup_delete_lookup {A} (l : list A) i x :
  NoDup l → l !! i = Some x → x ∉ delete i l.
Proof.
  intros Hnd Hi. rewrite delete_as_take_drop.
  rewrite <- (take_drop_middle l i x Hi) in Hnd.
  apply NoDup_app in Hnd as (_ & Hdisj & Hnd2).
  apply NoDup_cons in Hnd2 as [Hx _].
  intros [Hin|Hin]%elem_of_app; [|done].
  apply (Hdisj x Hin). left.
Qed.

Lemma fresh_after_delete (l : list FileInfo) (batch : list UploadedFile)
    (i : nat) (entry : FileInfo) (file : UploadedFile) :
  NoDup (name <$> l) →
  l !! i = Some entry →
  Forall (λ g, file_name g ∈ name <$> l) batch →
  head (filter (λ g, file_name g = name entry) batch) = Some file →
  fresh_items (name <$> delete i l) batch = [file].
Proof.
  intros Hnd He Hall Hhead.
  apply (fresh_items_one batch _ (name entry)); [| |done].
  - rewrite list_fmap_delete. apply NoDup_delete_lookup; [done|].
    by rewrite list_lookup_fmap, He.
  - eapply Forall_impl; [exact Hall|]. intros g Hg. simpl in Hg.
    destruct (decide (file_name g = name entry)) as [|Hne]; [by right|left].
    rewrite list_fmap_delete.
    apply list_elem_of_lookup in Hg as [j Hj].
    destruct (decide (j = i)) as [->|Hji].
    + rewrite list_lookup_fmap, He in Hj. simpl in Hj. congruence.
    + apply list_elem_of_lookup.
      destruct (decide (j < i)%nat).
      * exists j. by rewrite list_lookup_delete_lt.
      * exists (pred j). rewrite list_lookup_delete_ge by lia.
        replace (S (pred j)) with j by lia. done.
Qed.

Lemma remove_faults p d :
  Disk.faults (fst (Disk.remove p d)) = Disk.faults d.
Proof.
  unfold Disk.remove. destruct (Disk.files d !! p); [|done].
  by destruct (decide (p ∈ Disk.locked d)).
Qed.

(** X2. Deleting an entry does not last while its file is still among the
    uploaded files: when the store has already taken in the whole batch,
    deleting entry [index] and then running [process_uploads] on the batch
    again writes the file back, if it can be written, and appends its
    entry, which thus moves to the end of the list. *)
Theorem delete_then_upload_again
    (s : State) (batch : list UploadedFile) (index : Z)
    (entry : FileInfo) (file : UploadedFile) :
  NoDup (names s) →
  (0 ≤ index < len (uploaded_files s))%Z →
  uploaded_files s !! Z.to_nat index = Some entry →
  Forall (λ g, file_name g ∈ names s) batch →
  head (filter (λ g, file_name g = name entry) batch) = Some file →
  Disk.faults (disk s) (path_join UPLOAD_DIR (file_name file)) = None →
  uploaded_files (run (AddFiles batch) (run (DeleteAt index) s))
    = delete (Z.to_nat index) (uploaded_files s) ++ [entry_of file]
  ∧ Disk.files (disk (run (AddFiles batch) (run (DeleteAt index) s)))
      !! path_join UPLOAD_DIR (file_name file)
    = Some (file_buffer file)
  ∧ snd (process_uploads batch (run (DeleteAt index) s)) = Stops RerunException.
Proof.
  intros Hnd Hrange He Hall Hhead Hok. unfold len in Hrange. simpl.
  destruct (delete_file_run s index (Z.to_nat index)) as (e' & He' & Hrun);
    [by apply position_in_range|].
  assert (e' = entry) by congruence. subst e'.
  rewrite Hrun. cbn [fst]. rewrite process_uploads_run. cbv zeta.
  set (s1 := {| uploaded_files := delete (Z.to_nat index) (uploaded_files s) |}).
  assert (Hfresh : fresh_items (names s1) batch = [file])
    by (by apply (fresh_after_delete _ _ _ entry)).
  unfold taken, upload_fault. rewrite Hfresh. simpl.
  rewrite remove_faults, Hok. simpl. split_and!; try done.
  apply lookup_insert_eq.
Qed.

Lemma delete_then_upload_again_witness :
  uploaded_files (run (AddFiles [a_pdf; b_pptx]) (run (DeleteAt 0) two_files))
    = delete (Z.to_nat 0) (uploaded_files two_files) ++ [entry_of a_pdf]
  ∧ Disk.files (disk (run (AddFiles [a_pdf; b_pptx])
                        (run (DeleteAt 0) two_files)))
      !! path_join UPLOAD_DIR (file_name a_pdf)
    = Some (file_buffer a_pdf)
  ∧ snd (process_uploads [a_pdf; b_pptx] (run (DeleteAt 0) two_files))
    = Stops RerunException.
Proof.
  apply (delete_then_upload_again two_files [a_pdf; b_pptx] 0
           (entry_of a_pdf) a_pdf).
  - apply (bool_decide_unpack _). vm_compute. reflexivity.
  - unfold len; simpl; lia.
  - reflexivity.
  - repeat constructor.
  - reflexivity.
  - reflexivity.
Defined.

(** ** What the handlers do to the disk *)

Lemma remove_lookup_other p q d :
  q ≠ p → Disk.files (fst (Disk.remove p d)) !! q = Disk.files d !! q.
Proof.
  intros Hne. unfold Disk.remove.
  destruct (Disk.files d !! p); [|done].
  destruct (decide (p ∈ Disk.locked d)); [done|]. simpl.
  by rewrite lookup_delete_ne.
Qed.



Lemma uploads_prefix_inj a b : "uploads/" +:+ a = "uploads/" +:+ b → a = b.
Proof. intros H. by simplify_eq/=. Qed.

Lemma run_keeps_backed a s :
  plain_action a →
  NoDup (names s) →
  Forall (backed (disk s)) (uploaded_files s) →
  Forall (backed (disk (run a s))) (uploaded_files (run a s)).
Proof.
  intros Hplain Hnd Hback. destruct a as [batch|index|]; simpl.
  - simpl in Hplain. rewrite process_uploads_store.
    apply Forall_app. split.
    + apply Forall_forall. intros entry Hin.
      pose proof (proj1 (Forall_forall _ _) Hback entry Hin)
        as (Hname & Hpath & data & Hdata & Hsize).
      split_and!; [done..|]. exists data. split; [|done].
      rewrite process_uploads_lookup_other; [done|].
      intros file Hfile Hnew. rewrite Hpath.
      rewrite path_join_plain by (by eapply Forall_forall in Hplain).
      intros Heq%uploads_prefix_inj. apply Hnew. rewrite Heq.
      unfold names. by apply list_elem_of_fmap_2.
    + apply Forall_fmap, Forall_forall. intros file Hin.
      assert (Hfile : plain_name (file_name file)).
      { eapply Forall_forall in Hplain; [exact Hplain|].
        by eapply taken_subset. }
      split_and!; [done|by apply path_join_plain|].
      exists (file_buffer file). split; [|done]. simpl.
      by apply process_uploads_lookup_taken.
  - destruct (position (length (uploaded_files s)) index) as [p|] eqn:Hp;
      [|by rewrite delete_file_raises].
    destruct (delete_file_run s index p Hp) as (entry & He & ->). simpl.
    apply Forall_forall. intros other Hother.
    assert (Hin : other ∈ uploaded_files s)
      by (by eapply list_elem_of_delete_inv).
    pose proof (proj1 (Forall_forall _ _) Hback other Hin)
      as (Hname & Hpath & data & Hdata & Hsize).
    pose proof (proj1 (Forall_forall _ _) Hback entry
                  (list_elem_of_lookup_2 _ _ _ He)) as (_ & Hpath' & _).
    split_and!; [done..|]. exists data. split; [|done].
    rewrite remove_lookup_other; [done|].
    rewrite Hpath, Hpath'. intros Heq%uploads_prefix_inj.
    assert (Hout : name entry ∉ delete p (names s)).
    { apply NoDup_delete_lookup; [done|].
      unfold names. by rewrite list_lookup_fmap, He. }
    apply Hout. unfold names. rewrite <- list_fmap_delete, <- Heq.
    by apply list_elem_of_fmap_2.
  - rewrite clear_all_files_run. constructor.
Qed.

(** X3. In every state reached from the empty session by uploads of files
    with plain names, single deletions and clearing, each listed entry is
    backed by the disk: its path is [uploads/<name>], the file is there,
    and it holds exactly ["size"] bytes. No handler removes or rewrites
    the file of an entry that stays listed, also when a write or a removal
    goes wrong. *)
Theorem entries_are_backed (s : State) :
  reachable_plain s → Forall (backed (disk s)) (uploaded_files s).
Proof.
  intros Hreach.
  assert (NoDup (names s) ∧ Forall (backed (disk s)) (uploaded_files s))
    as [_ H]; [|exact H].
  induction Hreach as [d|a s Hplain Hreach [IHn IHb]].
  - split; constructor.
  - split; [by apply run_keeps_names_distinct|by apply run_keeps_backed].
Qed.

Lemma entries_are_backed_witness :
  Forall (backed (disk (run (DeleteAt 1)
                          (run (AddFiles [a_pdf; b_pptx; c_pdf])
                             (initial full_disk)))))
         (uploaded_files (run (DeleteAt 1)
                            (run (AddFiles [a_pdf; b_pptx; c_pdf])
                               (initial full_disk)))).
Proof.
  apply entries_are_backed.
  apply reachable_plain_step; [exact I|].
  apply reachable_plain_step; [|apply reachable_plain_initial].
  repeat constructor; try discriminate;
    apply (bool_decide_unpack _); vm_compute; reflexivity.
Defined.

(** Without plain names an entry can lose its file: ["./a.pdf"] is another
    name for the file of ["a.pdf"], so uploading it rewrites that file and
    the entry [a.pdf] no longer records its length. *)
Example process_uploads_shared_file :
  names (run (AddFiles [a_pdf; {| file_name := "./a.pdf"; file_type := PDF;
                                  file_buffer := [Byte.x25; Byte.x50] |}])
             (initial empty_disk)) = ["a.pdf"; "./a.pdf"]
  ∧ path <$> uploaded_files
      (run (AddFiles [a_pdf; {| file_name := "./a.pdf"; file_type := PDF;
                                file_buffer := [Byte.x25; Byte.x50] |}])
           (initial empty_disk)) = ["uploads/a.pdf"; "uploads/a.pdf"]
  ∧ size <$> uploaded_files
      (run (AddFiles [a_pdf; {| file_name := "./a.pdf"; file_type := PDF;
                                file_buffer := [Byte.x25; Byte.x50] |}])
           (initial empty_disk)) = [4; 2]%Z
  ∧ Disk.files (disk
      (run (AddFiles [a_pdf; {| file_name := "./a.pdf"; file_type := PDF;
                                file_buffer := [Byte.x25; Byte.x50] |}])
           (initial empty_disk))) !! "uploads/a.pdf"
    = Some [Byte.x25; Byte.x50].
Proof. split_and!; vm_compute; reflexivity. Qed.



(** X5. [process_uploads] never removes a file. With plain names in the
    batch it changes no file other than the files [uploads/<name>] of the
    items whose names are not listed yet, so that the file of a name that
    is already listed is never rewritten. The paths that refuse removal
    stay the same. All of this holds whether or not a write goes wrong. *)
Theorem process_uploads_keeps_files
    (s : State) (batch : list UploadedFile) (p n : string) :
  (is_Some (Disk.files (disk s) !! p) →
   is_Some (Disk.files (disk (fst (process_uploads batch s))) !! p))
  ∧ (Forall (λ file, plain_name (file_name file)) batch →
     (∀ file, file ∈ batch → file_name file ∉ names s →
              "uploads/" +:+ file_name file ≠ p) →
     Disk.files (disk (fst (process_uploads batch s))) !! p
     = Disk.files (disk s) !! p)
  ∧ (Forall (λ file, plain_name (file_name file)) batch →
     plain_name n → n ∈ names s →
     Disk.files (disk (fst (process_uploads batch s))) !! ("uploads/" +:+ n)
     = Disk.files (disk s) !! ("uploads/" +:+ n))
  ∧ Disk.locked (disk (fst (process_uploads batch s))) = Disk.locked (disk s).
Proof.
  split_and!.
  - intros Hp. rewrite process_uploads_disk.
    by apply spoiled_keeps, foldl_save_keeps.
  - intros Hplain Hother. apply process_uploads_lookup_other.
    intros file Hfile Hnew.
    rewrite path_join_plain by (by eapply Forall_forall in Hplain).
    by apply Hother.
  - intros Hplain Hn Hin. apply process_uploads_lookup_other.
    intros file Hfile Hnew.
    rewrite path_join_plain by (by eapply Forall_forall in Hplain).
    intros Heq%uploads_prefix_inj. apply Hnew. by rewrite Heq.
  - rewrite process_uploads_disk, spoiled_locked. apply foldl_save_locked.
Qed.

Lemma process_uploads_keeps_files_witness :
  is_Some (Disk.files (disk (fst (process_uploads [a_pdf_again; c_pdf]
                                    two_files))) !! "uploads/a.pdf")
  ∧ Disk.files (disk (fst (process_uploads [a_pdf_again; c_pdf] two_files)))
      !! "styles.css"
    = Disk.files (disk two_files) !! "styles.css"
  ∧ Disk.files (disk (fst (process_uploads [a_pdf_again; c_pdf] two_files)))
      !! ("uploads/" +:+ "a.pdf")
    = Disk.files (disk two_files) !! ("uploads/" +:+ "a.pdf").
Proof.
  split; [|split].
  - destruct (process_uploads_keeps_files two_files [a_pdf_again; c_pdf]
                "uploads/a.pdf" "a.pdf") as (Hkeep & _).
    apply Hkeep. vm_compute. eauto.
  - destruct (process_uploads_keeps_files two_files [a_pdf_again; c_pdf]
                "styles.css" "a.pdf") as (_ & Hother & _).
    apply Hother.
    + repeat constructor; try discriminate;
        apply (bool_decide_unpack _); vm_compute; reflexivity.
    + intros file Hfile Hnew.
      apply elem_of_cons in Hfile as [->|Hfile];
        [exfalso; apply Hnew; apply list_elem_of_here|].
      apply list_elem_of_singleton in Hfile as ->. vm_compute. discriminate.
  - destruct (process_uploads_keeps_files two_files [a_pdf_again; c_pdf]
                "uploads/a.pdf" "a.pdf") as (_ & _ & Hsame & _).
    apply Hsame.
    + repeat constructor; try discriminate;
        apply (bool_decide_unpack _); vm_compute; reflexivity.
    + split_and!; [discriminate..|].
      apply (bool_decide_unpack _). vm_compute. reflexivity.
    + apply list_elem_of_here.
Defined.

(** ** Deleting and the counters *)

Lemma length_filter_delete {A} (P : A → Prop) `{∀ x, Decision (P x)}
    (l : list A) i x :
  l !! i = Some x →
  length (filter P l)
  = (length (filter P (delete i l)) + (if decide (P x) then 1 else 0))%nat.
Proof.
  intros Hi. rewrite delete_as_take_drop.
  rewrite <- (take_drop_middle l i x Hi) at 1.
  rewrite !filter_app, !length_app.
  destruct (decide (P x)).
  - rewrite filter_cons_True by done. simpl. lia.
  - rewrite filter_cons_False by done. lia.
Qed.

(** X6. Deleting entry [index] lowers the total by one and the PDF counter
    by one exactly when the deleted entry is a PDF; otherwise the counter
    of the other files drops by one. *)
Theorem delete_file_updates_stats
    (s : State) (index : Z) (entry : FileInfo) :
  (0 ≤ index < len (uploaded_files s))%Z →
  uploaded_files s !! Z.to_nat index = Some entry →
  get_file_stats (fst (delete_file index s))
  = (((get_file_stats s).1.1 - 1)%Z,
     ((get_file_stats s).1.2 - pdf_weight entry)%Z,
     ((get_file_stats s).2 - (1 - pdf_weight entry))%Z).
Proof.
  intros Hrange He. unfold len in Hrange.
  destruct (delete_file_run s index (Z.to_nat index)) as (e' & He' & Hrun);
    [by apply position_in_range|].
  assert (e' = entry) by congruence. subst e'. rewrite Hrun.
  unfold get_file_stats. cbn [fst snd uploaded_files].
  rewrite !sum_ones_length. unfold len.
  pose proof (length_filter_delete (λ f, type f = PDF) _ _ _ He) as Hpdf.
  pose proof (length_delete _ _ (mk_is_Some _ _ He)) as Hlen.
  apply lookup_lt_Some in He.
  unfold pdf_weight. destruct (decide (type entry = PDF));
    (f_equal; [f_equal|]; lia).
Qed.

Lemma delete_file_updates_stats_witness :
  get_file_stats (fst (delete_file 2 five_files))
  = (((get_file_stats five_files).1.1 - 1)%Z,
     ((get_file_stats five_files).1.2 - pdf_weight (entry_of c_pdf))%Z,
     ((get_file_stats five_files).2 - (1 - pdf_weight (entry_of c_pdf)))%Z).
Proof.
  apply (delete_file_updates_stats five_files 2 (entry_of c_pdf)).
  - vm_compute. split; [discriminate|reflexivity].
  - reflexivity.
Defined.

(** ** Negative indices *)

(** X7. A negative index is not an error as long as it is not below [-n]:
    [delete_file(-k)] does exactly what [delete_file(n - k)] does, so [-1]
    deletes the last entry. *)
Theorem delete_file_negative_index (s : State) (index : Z) :
  (- len (uploaded_files s) ≤ index < 0)%Z →
  delete_file index s = delete_file (len (uploaded_files s) + index) s.
Proof.
  intros Hrange. apply delete_file_by_position.
  by apply position_negative.
Qed.

Lemma delete_file_negative_index_witness :
  delete_file (-1) two_files
  = delete_file (len (uploaded_files two_files) + -1) two_files.
Proof.
  apply (delete_file_negative_index two_files (-1)).
  vm_compute. split; [discriminate|reflexivity].
Defined.

(** ** Order and completeness of an upload *)

Lemma fresh_items_sublist batch : ∀ existing,
  fresh_items existing batch `sublist_of` batch.
Proof.
  induction batch as [|x rest IH]; intros existing; simpl; [done|].
  destruct (decide (file_name x ∈ existing)).
  - by apply sublist_cons.
  - by apply sublist_skip.
Qed.

(** X8. An upload only appends: the entries that were listed stay where
    they are, unchanged, and the new entries follow in the order in which
    their files stand in the batch. *)
Theorem process_uploads_appends (s : State) (batch : list UploadedFile) :
  uploaded_files s `prefix_of` uploaded_files (fst (process_uploads batch s))
  ∧ drop (length (uploaded_files s))
         (uploaded_files (fst (process_uploads batch s)))
    `sublist_of` (entry_of <$> batch).
Proof.
  rewrite process_uploads_store. split.
  - by apply prefix_app_r.
  - rewrite drop_app_length. apply fmap_sublist.
    etrans; [apply accepted_sublist|apply fresh_items_sublist].
Qed.

Lemma fresh_items_all batch : ∀ existing,
  NoDup (file_name <$> batch) →
  Forall (λ file, file_name file ∉ existing) batch →
  fresh_items existing batch = batch.
Proof.
  induction batch as [|x rest IH]; intros existing Hnd Hnew; simpl; [done|].
  rewrite fmap_cons in Hnd. apply NoDup_cons in Hnd as [Hx Hnd].
  inversion Hnew as [|? ? Hhead Hrest]; subst.
  destruct (decide (file_name x ∈ existing)); [done|]. f_equal.
  apply IH; [done|]. apply Forall_forall. intros g Hg.
  intros [Hin|Heq%list_elem_of_singleton]%elem_of_app.
  - by eapply Forall_forall in Hrest.
  - apply Hx. rewrite <- Heq. by apply list_elem_of_fmap_2.
Qed.

(** X9. A batch of plain, pairwise distinct names, none of them listed
    yet and every one of the files writable, is taken in whole: every
    item gets its file [uploads/<name>] and its entry, in batch order, and
    the call ends in the rerun. *)
Theorem process_uploads_takes_all (s : State) (batch : list UploadedFile) :
  batch ≠ [] →
  Forall (λ file, plain_name (file_name file)) batch →
  NoDup (file_name <$> batch) →
  Forall (λ file, file_name file ∉ names s) batch →
  Forall (λ file,
            Disk.faults (disk s) (path_join UPLOAD_DIR (file_name file))
            = None) batch →
  uploaded_files (fst (process_uploads batch s))
    = uploaded_files s ++ (entry_of <$> batch)
  ∧ Forall (λ file,
              Disk.files (disk (fst (process_uploads batch s)))
                !! ("uploads/" +:+ file_name file)
              = Some (file_buffer file)) batch
  ∧ snd (process_uploads batch s) = Stops RerunException.
Proof.
  intros Hne Hplain Hnames Hnew Hok.
  assert (Hfault : upload_fault s batch = None).
  { unfold upload_fault. rewrite fresh_items_all by done.
    by apply accepted_none. }
  assert (Htaken : taken s batch = batch).
  { rewrite taken_all by done. by apply fresh_items_all. }
  rewrite process_uploads_store, process_uploads_outcome, Hfault, Htaken.
  split_and!.
  - done.
  - apply Forall_forall. intros file Hin.
    rewrite <- path_join_plain by (by eapply Forall_forall in Hplain).
    apply process_uploads_lookup_taken; [done|by rewrite Htaken].
  - by destruct batch.
Qed.

Lemma process_uploads_takes_all_witness :
  uploaded_files (fst (process_uploads [c_pdf; d_pptx] two_files))
    = uploaded_files two_files ++ (entry_of <$> [c_pdf; d_pptx])
  ∧ Forall (λ file,
              Disk.files (disk (fst (process_uploads [c_pdf; d_pptx] two_files)))
                !! ("uploads/" +:+ file_name file)
              = Some (file_buffer file)) [c_pdf; d_pptx]
  ∧ snd (process_uploads [c_pdf; d_pptx] two_files) = Stops RerunException.
Proof.
  apply (process_uploads_takes_all two_files [c_pdf; d_pptx]).
  - discriminate.
  - repeat constructor; try discriminate;
      apply (bool_decide_unpack _); vm_compute; reflexivity.
  - apply (bool_decide_unpack _). vm_compute. reflexivity.
  - apply (bool_decide_unpack _). vm_compute. reflexivity.
  - repeat constructor.
Defined.

(** ** Upload, then delete *)

(** X10. Uploading one new file with a plain name whose write goes through
    and deleting the entry it got (the last one) gives back the list as
    it was; when the removal is not refused the file [uploads/<name>] is
    gone from the disk as well, and the user is told so. *)
Theorem upload_then_delete (s : State) (file : UploadedFile) :
  plain_name (file_name file) →
  file_name file ∉ names s →
  Disk.faults (disk s) ("uploads/" +:+ file_name file) = None →
  "uploads/" +:+ file_name file ∉ Disk.locked (disk s) →
  let s1 := fst (process_uploads [file] s) in
  let s2 := fst (delete_file (len (uploaded_files s)) s1) in
  uploaded_files s2 = uploaded_files s
  ∧ Disk.files (disk s2)
    = delete ("uploads/" +:+ file_name file) (Disk.files (disk s))
  ∧ last (page s2) = Some (success ("Deleted " +:+ file_name file)).
Proof.
  intros Hplain Hnew Hok Hfree s1 s2.
  rewrite <- (path_join_plain _ Hplain) in Hok, Hfree |- *.
  assert (Hs1 : uploaded_files s1 = uploaded_files s ++ [entry_of file]
                ∧ disk s1 = save (disk s) file).
  { unfold s1. rewrite process_uploads_store, process_uploads_disk.
    unfold taken, upload_fault. simpl.
    destruct (decide (file_name file ∈ names s)); [done|].
    simpl. by rewrite Hok. }
  destruct Hs1 as [Hfiles Hdisk].
  destruct (delete_file_run s1 (len (uploaded_files s))
              (length (uploaded_files s))) as (entry & He & Hrun).
  { unfold len. rewrite position_in_range, Nat2Z.id; [done|].
    rewrite Hfiles, length_app. simpl. lia. }
  rewrite Hfiles, lookup_app_r, Nat.sub_diag in He by done.
  simpl in He. inversion He; subst entry.
  unfold s2. rewrite Hrun. cbn [fst uploaded_files disk page].
  rewrite Hfiles, Hdisk.
  assert (Hrm : Disk.remove (path (entry_of file)) (save (disk s) file)
    = ({| Disk.files := delete (path_join UPLOAD_DIR (file_name file))
                          (Disk.files (disk s));
          Disk.locked := Disk.locked (disk s);
          Disk.faults := Disk.faults (disk s) |}, None)).
  { unfold Disk.remove, save. simpl. rewrite lookup_insert_eq.
    destruct (decide (path_join UPLOAD_DIR (file_name file)
                        ∈ Disk.locked (disk s))); [done|].
    by rewrite delete_insert_eq. }
  rewrite Hrm. simpl. split_and!.
  - rewrite delete_as_take_drop, take_app_length.
    rewrite drop_ge by (rewrite length_app; simpl; lia).
    by rewrite app_nil_r.
  - done.
  - by rewrite last_snoc.
Qed.

Lemma upload_then_delete_witness :
  let s1 := fst (process_uploads [c_pdf] two_files) in
  let s2 := fst (delete_file (len (uploaded_files two_files)) s1) in
  uploaded_files s2 = uploaded_files two_files
  ∧ Disk.files (disk s2)
    = delete ("uploads/" +:+ file_name c_pdf) (Disk.files (disk two_files))
  ∧ last (page s2) = Some (success ("Deleted " +:+ file_name c_pdf)).
Proof.
  apply (upload_then_delete two_files c_pdf).
  - split_and!; [discriminate..|].
    apply (bool_decide_unpack _). vm_compute. reflexivity.
  - apply (bool_decide_unpack _). vm_compute. reflexivity.
  - reflexivity.
  - apply (bool_decide_unpack _). vm_compute. reflexivity.
Defined.

(** ** The figure in the size label *)

Section Labels.
Import Float.
Local Open Scope Z_scope.

Lemma div_half_even_mono n1 n2 d :
  0 ≤ n1 ≤ n2 → 0 < d → div_half_even n1 d ≤ div_half_even n2 d.
Proof.
  intros [H1 H12] Hd. unfold div_half_even.
  pose proof (Z.div_mod n1 d ltac:(lia)) as Hn1.
  pose proof (Z.div_mod n2 d ltac:(lia)) as Hn2.
  pose proof (Z.mod_pos_bound n1 d Hd) as Hr1.
  pose proof (Z.mod_pos_bound n2 d Hd) as Hr2.
  pose proof (Z.div_le_mono n1 n2 d Hd H12) as Hq.
  set (q1 := n1 / d) in *. set (q2 := n2 / d) in *.
  set (r1 := n1 mod d) in *. set (r2 := n2 mod d) in *.
  destruct (Z.eq_dec q1 q2) as [Heq|Hne].
  - rewrite Heq in *.
    destruct (Z.ltb_spec (2 * r1) d), (Z.ltb_spec (2 * r2) d); try lia;
      destruct (Z.ltb_spec d (2 * r1)), (Z.ltb_spec d (2 * r2)); try lia;
      destruct (Z.even q2); lia.
  - destruct (Z.ltb_spec (2 * r1) d), (Z.ltb_spec (2 * r2) d);
      destruct (Z.ltb_spec d (2 * r1)), (Z.ltb_spec d (2 * r2));
      destruct (Z.even q1), (Z.even q2); lia.
Qed.

Lemma format_file_size_kb size :
  1024 < size ≤ 1024 * 1024 →
  format_file_size size
  = Returns (fixed1 (div_half_even (10 * size) 1024) +:+ " KB").
Proof.
  intros [Hlo Hhi]. unfold format_file_size.
  destruct (Z.ltb_spec (1024 * 1024) size); [lia|].
  destruct (Z.ltb_spec 1024 size); [|lia].
  destruct (truediv_pow2 size 10) as (x & Hx & Hpos & Hexact & _);
    [lia|lia|lia|].
  change (2 ^ 10) with 1024 in Hx, Hexact. rewrite Hx.
  unfold format_1f. destruct (Z.ltb_spec (mant x) 0); [lia|].
  by rewrite Hexact by lia.
Qed.

Lemma format_file_size_mb size :
  1024 * 1024 < size < 2 ^ 53 →
  format_file_size size
  = Returns (fixed1 (div_half_even (10 * size) (1024 * 1024)) +:+ " MB").
Proof.
  intros [Hlo Hhi]. unfold format_file_size.
  destruct (Z.ltb_spec (1024 * 1024) size); [|lia].
  destruct (truediv_pow2 size 20) as (x & Hx & Hpos & Hexact & _);
    [lia|lia|lia|].
  change (2 ^ 20) with (1024 * 1024) in Hx, Hexact. rewrite Hx.
  unfold format_1f. destruct (Z.ltb_spec (mant x) 0); [lia|].
  by rewrite Hexact by lia.
Qed.

Lemma format_file_size_returns size :
  size < overflow_size → ∃ label, format_file_size size = Returns label.
Proof.
  intros Hsize. unfold overflow_size in Hsize. unfold format_file_size.
  destruct (Z.ltb_spec (1024 * 1024) size).
  - destruct (truediv_pow2 size 20) as (x & Hx & _); [lia|lia|exact Hsize|].
    change (2 ^ 20) with (1024 * 1024) in Hx. rewrite Hx. eauto.
  - destruct (Z.ltb_spec 1024 size); [|eauto].
    destruct (truediv_pow2 size 10) as (x & Hx & _); [lia|lia|lia|].
    change (2 ^ 10) with 1024 in Hx. rewrite Hx. eauto.
Qed.

(** X11. Within a unit the figure of the label never decreases when the
    size grows: between 1024 and 1024 * 1024 bytes it runs from 1.0 up to
    1024.0 (in tenths: 10 to 10240), and above, for sizes below 2^53, it
    starts at 1.0. *)
Theorem format_file_size_monotone (size1 size2 : Z) :
  size1 ≤ size2 →
  (1024 < size1 → size2 ≤ 1024 * 1024 →
   ∃ t1 t2,
     format_file_size size1 = Returns (fixed1 t1 +:+ " KB")
     ∧ format_file_size size2 = Returns (fixed1 t2 +:+ " KB")
     ∧ 10 ≤ t1 ∧ t1 ≤ t2 ∧ t2 ≤ 10240)
  ∧ (1024 * 1024 < size1 → size2 < 2 ^ 53 →
     ∃ t1 t2,
       format_file_size size1 = Returns (fixed1 t1 +:+ " MB")
       ∧ format_file_size size2 = Returns (fixed1 t2 +:+ " MB")
       ∧ 10 ≤ t1 ∧ t1 ≤ t2).
Proof.
  intros Hle. split.
  - intros Hlo Hhi.
    exists (div_half_even (10 * size1) 1024), (div_half_even (10 * size2) 1024).
    rewrite !format_file_size_kb by lia.
    pose proof (div_half_even_exact 10 1024 ltac:(lia)) as Hfirst.
    pose proof (div_half_even_exact 10240 1024 ltac:(lia)) as Hlast.
    pose proof (div_half_even_mono (1024 * 10) (10 * size1) 1024
                  ltac:(lia) ltac:(lia)).
    pose proof (div_half_even_mono (10 * size1) (10 * size2) 1024
                  ltac:(lia) ltac:(lia)).
    pose proof (div_half_even_mono (10 * size2) (1024 * 10240) 1024
                  ltac:(lia) ltac:(lia)).
    split_and!; [done..|lia|lia|lia].
  - intros Hlo Hhi.
    exists (div_half_even (10 * size1) (1024 * 1024)),
           (div_half_even (10 * size2) (1024 * 1024)).
    rewrite !format_file_size_mb by lia.
    pose proof (div_half_even_exact 10 (1024 * 1024) ltac:(lia)) as Hfirst.
    pose proof (div_half_even_mono (1024 * 1024 * 10) (10 * size1)
                  (1024 * 1024) ltac:(lia) ltac:(lia)).
    pose proof (div_half_even_mono (10 * size1) (10 * size2) (1024 * 1024)
                  ltac:(lia) ltac:(lia)).
    split_and!; [done..|lia|lia].
Qed.

Lemma format_file_size_monotone_witness :
  (∃ t1 t2,
     format_file_size 1500 = Returns (fixed1 t1 +:+ " KB")
     ∧ format_file_size 1048570 = Returns (fixed1 t2 +:+ " KB")
     ∧ 10 ≤ t1 ∧ t1 ≤ t2 ∧ t2 ≤ 10240)
  ∧ (∃ t1 t2,
       format_file_size 2000000 = Returns (fixed1 t1 +:+ " MB")
       ∧ format_file_size 5242880 = Returns (fixed1 t2 +:+ " MB")
       ∧ 10 ≤ t1 ∧ t1 ≤ t2).
Proof.
  split.
  - destruct (format_file_size_monotone 1500 1048570) as [Hkb _]; [lia|].
    apply Hkb; lia.
  - destruct (format_file_size_monotone 2000000 5242880) as [_ Hmb]; [lia|].
    apply Hmb; lia.
Defined.

End Labels.

(** ** Steps of the script *)

Lemma same_store_refl s : same_store s s.
Proof. by split. Qed.

Lemma same_store_trans s1 s2 s3 :
  same_store s1 s2 → same_store s2 s3 → same_store s1 s3.
Proof. intros [? ?] [? ?]. split; congruence. Qed.

Lemma same_store_sym s1 s2 : same_store s1 s2 → same_store s2 s1.
Proof. intros [? ?]. by split. Qed.

Lemma same_session_refl v : same_session v v.
Proof. split; [apply same_store_refl|done]. Qed.

Lemma same_session_trans v1 v2 v3 :
  same_session v1 v2 → same_session v2 v3 → same_session v1 v3.
Proof.
  intros [? ?] [? ?]. split; [by eapply same_store_trans|congruence].
Qed.

Lemma rbind_draws_only {A B} (m : Render A) (a : A) (k : A → Render B) v :
  draws_only m a →
  rbind m k v = k a (fst (m v)) ∧ same_session v (fst (m v)).
Proof.
  intros Hm. destruct (Hm v) as [Hr Hs]. split; [|done].
  unfold rbind. destruct (m v) as [v' r]. simpl in *. by subst r.
Qed.

Lemma draws_only_bind {A B} (m : Render A) (a : A) (k : A → Render B) b :
  draws_only m a → draws_only (k a) b → draws_only (rbind m k) b.
Proof.
  intros Hm Hk v. destruct (rbind_draws_only m a k v Hm) as [-> Hs].
  destruct (Hk (fst (m v))) as [Hr Hs']. split; [done|].
  by eapply same_session_trans.
Qed.

Lemma draws_only_ret {A} (a : A) : draws_only (rret a) a.
Proof. intros v. split; [done|apply same_session_refl]. Qed.

Lemma draws_only_record c : draws_only (record c) tt.
Proof. intros v. split; [done|]. by split. Qed.

Lemma draws_only_markdown html : draws_only (st_markdown html) tt.
Proof. intros v. split; [done|]. by split. Qed.

Lemma draws_only_success text : draws_only (st_success text) tt.
Proof. intros v. split; [done|]. by split. Qed.

Lemma draws_only_within {A} k (body : Render A) a :
  draws_only body a → draws_only (within k body) a.
Proof.
  intros Hbody v. unfold within.
  destruct (Hbody (fst (record (enter_column k) v))) as [Hr Hs].
  destruct (body (fst (record (enter_column k) v))) as [v' r].
  simpl in *. split; [done|]. destruct Hs as [Hst Hi]. by split.
Qed.

Lemma draws_only_load_css inp :
  css_loads inp → draws_only (load_css inp) tt.
Proof.
  intros Hcss. unfold load_css.
  destruct (styles_css inp) as [[e|text]|] eqn:E;
    [by destruct (Hcss e)|apply draws_only_markdown|apply draws_only_record].
Qed.

Lemma load_css_raises inp e v :
  styles_css inp = Some (inl e) → load_css inp v = (v, Stops (Raised e)).
Proof. intros E. unfold load_css. by rewrite E. Qed.

Lemma draws_only_header : draws_only render_header tt.
Proof.
  unfold render_header.
  eapply draws_only_bind; apply draws_only_markdown.
Qed.

Lemma draws_only_statistics : draws_only render_statistics tt.
Proof.
  intros v. unfold render_statistics. unfold rbind at 1. cbn [fst snd].
  destruct (get_file_stats (app v)) as [[total pdf] pptx].
  revert v. change (draws_only
    (rbind (record (columns (inl 3%Z))) (λ _,
       rbind (within 0 (st_markdown (stat_box total "Files Uploaded"))) (λ _,
         rbind (within 1 (st_markdown (stat_box pdf "PDF Files"))) (λ _,
           within 2 (st_markdown (stat_box pptx "PPTX Files")))))) tt).
  repeat (eapply draws_only_bind;
          [first [apply draws_only_record
                 |apply draws_only_within, draws_only_markdown]|]).
  apply draws_only_within, draws_only_markdown.
Qed.

Lemma draws_only_upload_section inp :
  draws_only (render_upload_section inp) (chosen inp).
Proof.
  unfold render_upload_section.
  repeat (eapply draws_only_bind;
          [first [apply draws_only_record|apply draws_only_markdown]|]).
  apply draws_only_ret.
Qed.

Lemma draws_only_empty_state : draws_only render_empty_state tt.
Proof. apply draws_only_markdown. Qed.

Lemma draws_only_footer : draws_only render_footer tt.
Proof.
  unfold render_footer. eapply draws_only_bind; apply draws_only_markdown.
Qed.

Lemma view_eta v :
  {| app := app v; calls := calls v; initialised := initialised v |} = v.
Proof. by destruct v. Qed.

Lemma lift_run {A} (m : Script A) v :
  app (fst (lift m v)) = fst (m (app v))
  ∧ snd (lift m v) = snd (m (app v))
  ∧ initialised (fst (lift m v)) = initialised v.
Proof. unfold lift. by destruct (m (app v)). Qed.

Lemma lift_get_uploaded_files v :
  lift get_uploaded_files v = (v, Returns (uploaded_files (app v))).
Proof.
  unfold lift, get_uploaded_files.
  rewrite drop_all, fmap_nil, app_nil_r. by rewrite view_eta.
Qed.

Lemma within_run {A} k (body : Render A) v :
  app (fst (within k body v))
    = app (fst (body (fst (record (enter_column k) v))))
  ∧ snd (within k body v) = snd (body (fst (record (enter_column k) v)))
  ∧ initialised (fst (within k body v))
    = initialised (fst (body (fst (record (enter_column k) v)))).
Proof.
  unfold within. by destruct (body (fst (record (enter_column k) v))).
Qed.

Lemma delete_file_same_store s s' i :
  same_store s s' →
  snd (delete_file i s) = snd (delete_file i s')
  ∧ same_store (fst (delete_file i s)) (fst (delete_file i s')).
Proof.
  intros [Hfiles Hdisk].
  destruct (position (length (uploaded_files s)) i) as [p|] eqn:Hp.
  - destruct (delete_file_run s i p Hp) as (e & He & ->).
    rewrite Hfiles in Hp. destruct (delete_file_run s' i p Hp) as (e' & He' & ->).
    rewrite Hfiles in He. assert (e' = e) by congruence. subst e'.
    split; [done|]. split; simpl; congruence.
  - rewrite delete_file_raises by done. rewrite Hfiles in Hp.
    rewrite delete_file_raises by done. by split.
Qed.

Lemma process_uploads_same_store s s' batch :
  same_store s s' →
  snd (process_uploads batch s) = snd (process_uploads batch s')
  ∧ same_store (fst (process_uploads batch s)) (fst (process_uploads batch s')).
Proof.
  intros [Hfiles Hdisk].
  assert (Hnames : names s = names s') by (unfold names; congruence).
  assert (Htaken : taken s batch = taken s' batch)
    by (unfold taken; congruence).
  assert (Hfault : upload_fault s batch = upload_fault s' batch)
    by (unfold upload_fault; congruence).
  rewrite !process_uploads_outcome. unfold same_store.
  rewrite !process_uploads_store, !process_uploads_disk.
  by rewrite Htaken, Hfault, Hfiles, Hdisk.
Qed.

(** An upload with something to add does not return: it reruns or
    raises. *)
Lemma process_uploads_stops batch s :
  fresh_items (names s) batch ≠ [] →
  ∃ sig, snd (process_uploads batch s) = Stops sig.
Proof.
  intros Hne. rewrite process_uploads_outcome.
  destruct (upload_fault s batch) as [[f fault]|] eqn:E; [by eexists|].
  rewrite (taken_all _ _ E).
  destruct (fresh_items (names s) batch); [done|by eexists].
Qed.

Lemma clear_all_files_same_store s s' :
  same_store s s' →
  same_store (fst (clear_all_files s)) (fst (clear_all_files s')).
Proof.
  intros [Hfiles Hdisk]. rewrite !clear_all_files_run.
  split; simpl; congruence.
Qed.

Lemma run_same_store a s s' :
  same_store s s' → same_store (run a s) (run a s').
Proof.
  intros Hs. destruct a; simpl.
  - by apply process_uploads_same_store.
  - by apply delete_file_same_store.
  - by apply clear_all_files_same_store.
Qed.

(** ** The list of rows *)

Lemma render_row_run upper inp i x v :
  (size x < overflow_size)%Z →
  initialised (fst (render_row upper inp i x v)) = initialised v
  ∧ if pressed inp (delete_key i)
    then snd (render_row upper inp i x v) = snd (delete_file i (app v))
         ∧ same_store (fst (delete_file i (app v)))
                      (app (fst (render_row upper inp i x v)))
    else snd (render_row upper inp i x v) = Returns tt
         ∧ same_store (app v) (app (fst (render_row upper inp i x v))).
Proof.
  intros Hsize.
  remember (render_row upper inp i x v) as R eqn:HR.
  unfold render_row in HR.
  destruct (get_file_icon_and_color (type x)) as [icon type_color].
  destruct (format_file_size_returns _ Hsize) as [label Hlabel].
  unfold rbind at 1 in HR. unfold eval in HR. rewrite Hlabel in HR.
  destruct (rbind_draws_only (record (columns (inr [5; 1]%Z))) tt
    (λ _, rbind (within 0 (st_markdown
            (file_item icon (name x) type_color
               (upper (last_part (type x))) label)))
       (λ _, within 1
          (rbind (record (button "🗑️" (Some (delete_key i))))
             (λ _, if pressed inp (delete_key i)
                   then lift (delete_file i) else rret tt)))) v
    (draws_only_record _)) as [Heq1 Hs1].
  rewrite Heq1 in HR. clear Heq1.
  set (v1 := fst (record (columns (inr [5; 1]%Z)) v)) in *.
  destruct (rbind_draws_only
    (within 0 (st_markdown (file_item icon (name x) type_color
                              (upper (last_part (type x))) label))) tt
    (λ _, within 1
       (rbind (record (button "🗑️" (Some (delete_key i))))
          (λ _, if pressed inp (delete_key i)
                then lift (delete_file i) else rret tt))) v1
    (draws_only_within _ _ _ (draws_only_markdown _))) as [Heq2 Hs2].
  rewrite Heq2 in HR. clear Heq2.
  set (v2 := fst (within 0 _ v1)) in *.
  pose proof (same_session_trans _ _ _ Hs1 Hs2) as [Hst Hin].
  destruct (within_run 1
    (rbind (record (button "🗑️" (Some (delete_key i))))
       (λ _, if pressed inp (delete_key i)
             then lift (delete_file i) else rret tt)) v2)
    as (Happ & Hsnd & Hinit).
  rewrite <- HR in Happ, Hsnd, Hinit. rewrite Happ, Hsnd, Hinit.
  set (v3 := fst (record (enter_column 1) v2)).
  unfold rbind. cbn [record fst snd].
  destruct (pressed inp (delete_key i)).
  - destruct (lift_run (delete_file i)
      {| app := app v3; calls := calls v3 ++ [button "🗑️" (Some (delete_key i))];
         initialised := initialised v3 |}) as (Happ' & Hout & Hinit').
    rewrite Happ', Hout, Hinit'. cbn [app initialised].
    destruct (delete_file_same_store (app v) (app v2) i Hst) as [Hsame Hss].
    split; [done|]. split; [done|exact Hss].
  - simpl. split; [done|]. split; [done|exact Hst].
Qed.

Lemma first_pressed_range inp n : ∀ start i,
  first_pressed inp start n = Some i →
  (start ≤ i < start + Z.of_nat n)%Z.
Proof.
  induction n as [|n IH]; intros start i; simpl; [done|].
  destruct (pressed inp (delete_key start)).
  - intros [= ->]. lia.
  - intros H%IH. lia.
Qed.

Lemma rows_run upper inp l : ∀ start pre v,
  uploaded_files (app v) = pre ++ l →
  Z.of_nat (length pre) = start →
  Forall (λ f, (size f < overflow_size)%Z) l →
  initialised (fst (for_enumerate start l (render_row upper inp) v))
    = initialised v
  ∧ match first_pressed inp start (length l) with
    | None =>
        snd (for_enumerate start l (render_row upper inp) v) = Returns tt
        ∧ same_store (app v)
            (app (fst (for_enumerate start l (render_row upper inp) v)))
    | Some i =>
        snd (for_enumerate start l (render_row upper inp) v)
          = Stops RerunException
        ∧ same_store (fst (delete_file i (app v)))
            (app (fst (for_enumerate start l (render_row upper inp) v)))
    end.
Proof.
  induction l as [|x l IH]; intros start pre v Hfiles Hstart Hfit.
  - simpl. split; [done|]. split; [done|apply same_store_refl].
  - inversion Hfit as [|? ? Hx Hrest]; subst.
    cbn [for_enumerate first_pressed length].
    destruct (render_row_run upper inp (Z.of_nat (length pre)) x v Hx)
      as [Hinit Hrow].
    unfold rbind.
    destruct (render_row upper inp (Z.of_nat (length pre)) x v) as [v' r].
    cbn [fst snd] in *.
    destruct (pressed inp (delete_key (Z.of_nat (length pre)))).
    + destruct Hrow as [Hr Hss].
      destruct (delete_file_run (app v) (Z.of_nat (length pre)) (length pre))
        as (e & He & Hrun).
      { rewrite <- (Nat2Z.id (length pre)) at 2. apply position_in_range.
        rewrite Hfiles, length_app. simpl. lia. }
      rewrite Hrun in Hr. simpl in Hr. subst r. by split.
    + destruct Hrow as [-> Hss].
      destruct (IH (Z.of_nat (length pre) + 1)%Z (pre ++ [x]) v')
        as [Hinit' Hloop]; [| |done|].
      { destruct Hss as [<- _]. by rewrite Hfiles, <- app_assoc. }
      { rewrite length_app. simpl. lia. }
      split; [congruence|].
      destruct (first_pressed inp (Z.of_nat (length pre) + 1) (length l))
        as [i|].
      * destruct Hloop as [Hr Hloop]. split; [done|].
        eapply same_store_trans; [|exact Hloop].
        by apply delete_file_same_store.
      * destruct Hloop as [Hr Hloop]. split; [done|].
        by eapply same_store_trans.
Qed.

Lemma render_file_list_run upper inp v :
  sizes_fit (app v) →
  initialised (fst (render_file_list upper inp v)) = initialised v
  ∧ match first_pressed inp 0 (length (uploaded_files (app v))) with
    | None =>
        snd (render_file_list upper inp v) = Returns tt
        ∧ same_store (app v) (app (fst (render_file_list upper inp v)))
    | Some i =>
        snd (render_file_list upper inp v) = Stops RerunException
        ∧ same_store (fst (delete_file i (app v)))
            (app (fst (render_file_list upper inp v)))
    end.
Proof.
  intros Hfit. remember (render_file_list upper inp v) as R eqn:HR.
  unfold render_file_list in HR. unfold rbind at 1 in HR.
  rewrite lift_get_uploaded_files in HR. unfold sizes_fit in Hfit.
  destruct (uploaded_files (app v)) as [|x l] eqn:Hfiles.
  - subst R. cbn [first_pressed length].
    destruct (draws_only_empty_state v) as [Hr [Hs Hi]].
    split; [done|]. by split.
  - destruct (rbind_draws_only (st_markdown "### 📚 Your Uploaded Files") tt
      (λ _, for_enumerate 0 (x :: l) (render_row upper inp)) v
      (draws_only_markdown _)) as [Heq [Hs Hi]].
    rewrite Heq in HR. clear Heq. subst R.
    set (v1 := fst (st_markdown "### 📚 Your Uploaded Files" v)) in *.
    destruct (rows_run upper inp (x :: l) 0 [] v1) as [Hinit Hrows];
      [by destruct Hs as [<- _]|done|done|].
    split; [congruence|].
    destruct (first_pressed inp 0 (length (x :: l))) as [i|].
    + destruct Hrows as [Hr Hrows]. split; [done|].
      eapply same_store_trans; [|exact Hrows].
      by apply delete_file_same_store.
    + destruct Hrows as [Hr Hrows]. split; [done|].
      by eapply same_store_trans.
Qed.

(** ** The action buttons and the whole script *)

Lemma rbind_returns {A B} (m : Render A) (k : A → Render B) v a :
  snd (m v) = Returns a → rbind m k v = k a (fst (m v)).
Proof. unfold rbind. destruct (m v) as [v' r]. simpl. by intros ->. Qed.

Lemma rbind_stops {A B} (m : Render A) (k : A → Render B) v sig :
  snd (m v) = Stops sig → rbind m k v = (fst (m v), Stops sig).
Proof. unfold rbind. destruct (m v) as [v' r]. simpl. by intros ->. Qed.

Lemma draws_only_generate inp :
  draws_only
    (if pressed inp "✨ Generate Lecture"
     then rbind (record balloons)
            (λ _, st_success
                    "🎉 Lecture generation started! (Feature coming soon)")
     else rret tt) tt.
Proof.
  destruct (pressed inp "✨ Generate Lecture"); [|apply draws_only_ret].
  eapply draws_only_bind; [apply draws_only_record|apply draws_only_success].
Qed.

Lemma render_action_buttons_run inp v :
  initialised (fst (render_action_buttons inp v)) = initialised v
  ∧ if negb (is_nil (uploaded_files (app v)))
       && pressed inp "🧹 Clear All Files"
    then snd (render_action_buttons inp v) = Stops RerunException
         ∧ same_store (fst (clear_all_files (app v)))
             (app (fst (render_action_buttons inp v)))
    else snd (render_action_buttons inp v) = Returns tt
         ∧ same_store (app v) (app (fst (render_action_buttons inp v))).
Proof.
  remember (render_action_buttons inp v) as R eqn:HR.
  unfold render_action_buttons in HR. unfold rbind at 1 in HR.
  rewrite lift_get_uploaded_files in HR.
  destruct (uploaded_files (app v)) as [|x l] eqn:Hfiles.
  - subst R. simpl. split; [done|]. split; [done|apply same_store_refl].
  - assert (Hlen : (len (x :: l) =? 0)%Z = false).
    { apply Z.eqb_neq. unfold len. simpl. lia. }
    rewrite Hlen in HR. clear Hlen.
    destruct (rbind_draws_only (st_markdown "### 🚀 Ready to Start?") tt
      (λ _, rbind (record (columns (inr [1; 2; 1]%Z)))
         (λ _, within 1
            (rbind (record (button "✨ Generate Lecture" None))
               (λ _, rbind
                  (if pressed inp "✨ Generate Lecture"
                   then rbind (record balloons)
                          (λ _, st_success
                             "🎉 Lecture generation started! (Feature coming soon)")
                   else rret tt)
                  (λ _, rbind (record (button "🧹 Clear All Files" None))
                     (λ _, if pressed inp "🧹 Clear All Files"
                           then lift clear_all_files else rret tt)))))) v
      (draws_only_markdown _)) as [Heq Hs1].
    rewrite Heq in HR. clear Heq.
    set (v1 := fst (st_markdown "### 🚀 Ready to Start?" v)) in *.
    destruct (rbind_draws_only (record (columns (inr [1; 2; 1]%Z))) tt
      (λ _, within 1
         (rbind (record (button "✨ Generate Lecture" None))
            (λ _, rbind
               (if pressed inp "✨ Generate Lecture"
                then rbind (record balloons)
                       (λ _, st_success
                          "🎉 Lecture generation started! (Feature coming soon)")
                else rret tt)
               (λ _, rbind (record (button "🧹 Clear All Files" None))
                  (λ _, if pressed inp "🧹 Clear All Files"
                        then lift clear_all_files else rret tt))))) v1
      (draws_only_record _)) as [Heq Hs2].
    rewrite Heq in HR. clear Heq.
    set (v2 := fst (record (columns (inr [1; 2; 1]%Z)) v1)) in *.
    destruct (within_run 1
      (rbind (record (button "✨ Generate Lecture" None))
         (λ _, rbind
            (if pressed inp "✨ Generate Lecture"
             then rbind (record balloons)
                    (λ _, st_success
                       "🎉 Lecture generation started! (Feature coming soon)")
             else rret tt)
            (λ _, rbind (record (button "🧹 Clear All Files" None))
               (λ _, if pressed inp "🧹 Clear All Files"
                     then lift clear_all_files else rret tt)))) v2)
      as (Happ & Hsnd & Hinit).
    rewrite <- HR in Happ, Hsnd, Hinit. rewrite Happ, Hsnd, Hinit.
    set (v3 := fst (record (enter_column 1) v2)).
    assert (Hs3 : same_session v2 v3) by (by split).
    destruct (rbind_draws_only (record (button "✨ Generate Lecture" None)) tt
      (λ _, rbind
         (if pressed inp "✨ Generate Lecture"
          then rbind (record balloons)
                 (λ _, st_success
                    "🎉 Lecture generation started! (Feature coming soon)")
          else rret tt)
         (λ _, rbind (record (button "🧹 Clear All Files" None))
            (λ _, if pressed inp "🧹 Clear All Files"
                  then lift clear_all_files else rret tt))) v3
      (draws_only_record _)) as [-> Hs4].
    set (v4 := fst (record (button "✨ Generate Lecture" None) v3)) in *.
    destruct (rbind_draws_only
      (if pressed inp "✨ Generate Lecture"
       then rbind (record balloons)
              (λ _, st_success
                 "🎉 Lecture generation started! (Feature coming soon)")
       else rret tt) tt
      (λ _, rbind (record (button "🧹 Clear All Files" None))
         (λ _, if pressed inp "🧹 Clear All Files"
               then lift clear_all_files else rret tt)) v4
      (draws_only_generate inp)) as [-> Hs5].
    match goal with
    | Hs5 : same_session v4 ?w |- _ => set (v5 := w) in *
    end.
    destruct (rbind_draws_only (record (button "🧹 Clear All Files" None)) tt
      (λ _, if pressed inp "🧹 Clear All Files"
            then lift clear_all_files else rret tt) v5
      (draws_only_record _)) as [-> Hs6].
    set (v6 := fst (record (button "🧹 Clear All Files" None) v5)) in *.
    assert (Hall : same_session v v6).
    { repeat (eapply same_session_trans; [eassumption|]).
      apply same_session_refl. }
    destruct Hall as [Hst Hin]. cbn [is_nil negb andb].
    destruct (pressed inp "🧹 Clear All Files").
    + destruct (lift_run clear_all_files v6) as (Happ' & Hout & Hinit').
      rewrite Happ', Hout, Hinit', clear_all_files_run. cbn [snd].
      split; [symmetry; exact Hin|]. split; [done|].
      rewrite <- (clear_all_files_run (app v6)).
      by apply clear_all_files_same_store.
    + simpl. split; [symmetry; exact Hin|]. split; [done|exact Hst].
Qed.

Lemma init_session_run v :
  snd (init_session v) = Returns tt
  ∧ same_store (started v) (app (fst (init_session v)))
  ∧ initialised (fst (init_session v)) = true.
Proof.
  unfold init_session, started. destruct (initialised v) eqn:Hi; simpl.
  - split; [done|]. split; [apply same_store_refl|done].
  - split; [done|]. split; [by split|done].
Qed.

Lemma started_same_session v v' :
  same_session v v' → same_store (started v) (started v').
Proof.
  intros [[Hfiles Hdisk] Hi]. unfold started. rewrite <- Hi.
  destruct (initialised v); split; simpl; congruence.
Qed.

Lemma names_same_store s s' : same_store s s' → names s = names s'.
Proof. intros [Hfiles _]. unfold names. by rewrite Hfiles. Qed.

(** A run of [main] in which reading [styles.css] raises: the exception
    leaves the script before anything else happens. *)
Lemma main_css_raises upper inp v e :
  styles_css inp = Some (inl e) →
  snd (main upper inp v) = Stops (Raised e)
  ∧ same_session v (fst (main upper inp v)).
Proof.
  intros Hcss. unfold main.
  destruct (rbind_draws_only
    (record (set_page_config "Saras - AI Tutor" "centered" "🎓")) tt
    (λ _, rbind (load_css inp) (λ _, rbind init_session (λ _,
       rbind render_header (λ _, rbind render_statistics (λ _,
         rbind (render_upload_section inp) (λ uploaded_files,
           rbind (lift (process_uploads uploaded_files)) (λ _,
             rbind (render_file_list upper inp) (λ _,
               rbind (render_action_buttons inp) (λ _, render_footer)))))))))
    v (draws_only_record _)) as [Heq Hs1].
  rewrite Heq. clear Heq.
  match type of Hs1 with same_session v ?w => set (v1 := w) in * end.
  rewrite (rbind_stops (load_css inp) _ v1 (Raised e))
    by (by rewrite (load_css_raises inp e)).
  rewrite (load_css_raises inp e) by done. by split.
Qed.

(** What a run of [main] that gets past [load_css] does to the session
    and how it ends: the effect and the ending of [next_action]. *)
Lemma main_run upper inp v :
  css_loads inp →
  sizes_fit (started v) →
  initialised (fst (main upper inp v)) = true
  ∧ snd (main upper inp v) = ending (next_action inp (started v)) (started v)
  ∧ same_store (act (next_action inp (started v)) (started v))
      (app (fst (main upper inp v))).
Proof.
  intros Hcss Hfit. remember (main upper inp v) as R eqn:HR. unfold main in HR.
  destruct (rbind_draws_only
    (record (set_page_config "Saras - AI Tutor" "centered" "🎓")) tt
    (λ _, rbind (load_css inp) (λ _, rbind init_session (λ _,
       rbind render_header (λ _, rbind render_statistics (λ _,
         rbind (render_upload_section inp) (λ uploaded_files,
           rbind (lift (process_uploads uploaded_files)) (λ _,
             rbind (render_file_list upper inp) (λ _,
               rbind (render_action_buttons inp) (λ _, render_footer)))))))))
    v (draws_only_record _)) as [Heq Hs1].
  rewrite Heq in HR. clear Heq.
  match type of Hs1 with same_session v ?w => set (v1 := w) in * end.
  destruct (rbind_draws_only (load_css inp) tt
    (λ _, rbind init_session (λ _,
       rbind render_header (λ _, rbind render_statistics (λ _,
         rbind (render_upload_section inp) (λ uploaded_files,
           rbind (lift (process_uploads uploaded_files)) (λ _,
             rbind (render_file_list upper inp) (λ _,
               rbind (render_action_buttons inp) (λ _, render_footer))))))))
    v1 (draws_only_load_css inp Hcss)) as [Heq Hs2].
  rewrite Heq in HR. clear Heq.
  match type of Hs2 with same_session v1 ?w => set (v2 := w) in * end.
  destruct (init_session_run v2) as (Hr3 & Hs3 & Hi3).
  rewrite (rbind_returns init_session _ v2 tt Hr3) in HR.
  set (v3 := fst (init_session v2)) in *.
  assert (Hstart : same_store (started v) (app v3)).
  { apply (same_store_trans _ (started v2)); [|exact Hs3].
    apply started_same_session.
    exact (same_session_trans _ _ _ Hs1 Hs2). }
  clear Hs1 Hs2 Hs3 Hr3.
  destruct (rbind_draws_only render_header tt
    (λ _, rbind render_statistics (λ _,
       rbind (render_upload_section inp) (λ uploaded_files,
         rbind (lift (process_uploads uploaded_files)) (λ _,
           rbind (render_file_list upper inp) (λ _,
             rbind (render_action_buttons inp) (λ _, render_footer))))))
    v3 draws_only_header) as [Heq Hs4].
  rewrite Heq in HR. clear Heq.
  match type of Hs4 with same_session v3 ?w => set (v4 := w) in * end.
  destruct (rbind_draws_only render_statistics tt
    (λ _, rbind (render_upload_section inp) (λ uploaded_files,
       rbind (lift (process_uploads uploaded_files)) (λ _,
         rbind (render_file_list upper inp) (λ _,
           rbind (render_action_buttons inp) (λ _, render_footer)))))
    v4 draws_only_statistics) as [Heq Hs5].
  rewrite Heq in HR. clear Heq.
  match type of Hs5 with same_session v4 ?w => set (v5 := w) in * end.
  destruct (rbind_draws_only (render_upload_section inp) (chosen inp)
    (λ uploaded_files,
       rbind (lift (process_uploads uploaded_files)) (λ _,
         rbind (render_file_list upper inp) (λ _,
           rbind (render_action_buttons inp) (λ _, render_footer))))
    v5 (draws_only_upload_section inp)) as [Heq Hs6].
  rewrite Heq in HR. clear Heq.
  match type of Hs6 with same_session v5 ?w => set (v6 := w) in * end.
  assert (Hv6 : same_session v3 v6).
  { exact (same_session_trans _ _ _ Hs4
             (same_session_trans _ _ _ Hs5 Hs6)). }
  destruct Hv6 as [Hst6 Hi6]. clear Hs4 Hs5 Hs6.
  assert (Hs : same_store (started v) (app v6))
    by exact (same_store_trans _ _ _ Hstart Hst6).
  destruct (lift_run (process_uploads (chosen inp)) v6)
    as (Happ7 & Hsnd7 & Hi7).
  destruct (process_uploads_same_store _ _ (chosen inp) Hs) as [Hpsnd Hpst].
  rewrite <- Hpsnd in Hsnd7.
  unfold next_action, act.
  destruct (fresh_items (names (started v)) (chosen inp)) as [|k kept] eqn:Hfresh.
  - (* nothing to add: the list is drawn *)
    rewrite (process_uploads_nothing_new _ _ Hfresh) in Hsnd7, Hpst.
    cbn [is_nil snd fst ending] in Hsnd7, Hpst |- *.
    rewrite (rbind_returns _ _ v6 false Hsnd7) in HR.
    set (v7 := fst (lift (process_uploads (chosen inp)) v6)) in *.
    assert (Hs7 : same_store (started v) (app v7))
      by (rewrite Happ7; exact Hpst).
    assert (Hfit7 : sizes_fit (app v7)).
    { unfold sizes_fit in *. by destruct Hs7 as [<- _]. }
    destruct (render_file_list_run upper inp v7 Hfit7) as [Hi8 Hlist].
    assert (Hlen : length (uploaded_files (app v7))
                   = length (uploaded_files (started v)))
      by (by destruct Hs7 as [<- _]).
    rewrite Hlen in Hlist.
    destruct (first_pressed inp 0 (length (uploaded_files (started v))))
      as [i|].
    + destruct Hlist as [Hr8 Hs8].
      rewrite (rbind_stops _ _ v7 _ Hr8) in HR. subst R. cbn [fst snd].
      split; [by rewrite Hi8, Hi7, <- Hi6|]. split; [done|].
      apply (same_store_trans _ (fst (delete_file i (app v7))));
        [|exact Hs8].
      by apply delete_file_same_store.
    + destruct Hlist as [Hr8 Hs8].
      rewrite (rbind_returns _ _ v7 tt Hr8) in HR.
      set (v8 := fst (render_file_list upper inp v7)) in *.
      destruct (render_action_buttons_run inp v8) as [Hi9 Hbuttons].
      assert (Hs8' : same_store (started v) (app v8))
        by exact (same_store_trans _ _ _ Hs7 Hs8).
      assert (Hfiles8 : uploaded_files (app v8) = uploaded_files (started v))
        by (by destruct Hs8' as [<- _]).
      rewrite Hfiles8 in Hbuttons.
      destruct (negb (is_nil (uploaded_files (started v)))
                && pressed inp "🧹 Clear All Files").
      * destruct Hbuttons as [Hr9 Hs9].
        rewrite (rbind_stops _ _ v8 _ Hr9) in HR. subst R. cbn [fst snd].
        split; [by rewrite Hi9, Hi8, Hi7, <- Hi6|]. split; [done|].
        apply (same_store_trans _ (fst (clear_all_files (app v8))));
          [|exact Hs9].
        by apply clear_all_files_same_store.
      * destruct Hbuttons as [Hr9 Hs9].
        rewrite (rbind_returns _ _ v8 tt Hr9) in HR. subst R.
        destruct (draws_only_footer (fst (render_action_buttons inp v8)))
          as [Hr10 [Hs10 Hi10]].
        split; [by rewrite <- Hi10, Hi9, Hi8, Hi7, <- Hi6|].
        split; [done|].
        exact (same_store_trans _ _ _ Hs8'
                 (same_store_trans _ _ _ Hs9 Hs10)).
  - (* something is to be added: the run ends in the upload *)
    destruct (process_uploads_stops (chosen inp) (started v)) as [sig Hsig];
      [by rewrite Hfresh|].
    cbn [is_nil ending run]. rewrite Hsig in Hsnd7 |- *.
    rewrite (rbind_stops _ _ v6 _ Hsnd7) in HR. subst R. cbn [fst snd].
    split; [by rewrite Hi7, <- Hi6|]. split; [done|].
    rewrite Happ7. exact Hpst.
Qed.

(** ** Icons and counters *)

(** X12. The list and the counters classify alike: an entry is drawn with
    the document icon and the red colour exactly when it counts as a PDF,
    every other entry gets the chart icon and the green colour, so the
    number of document icons is the PDF counter. *)
Theorem icons_agree_with_stats (s : State) :
  Forall (λ f, get_file_icon_and_color (type f)
               = if decide (type f = PDF) then ("📄", "#dc3545")
                 else ("📊", "#28a745")) (uploaded_files s)
  ∧ len (filter (λ f, (get_file_icon_and_color (type f)).1 = "📄")
           (uploaded_files s))
    = (get_file_stats s).1.2
  ∧ len (filter (λ f, (get_file_icon_and_color (type f)).1 = "📊")
           (uploaded_files s))
    = (get_file_stats s).2.
Proof.
  split_and!.
  - apply Forall_forall. intros f _. reflexivity.
  - unfold get_file_stats. cbn [fst snd]. rewrite sum_ones_length.
    f_equal. f_equal. apply list_filter_iff. intros f.
    unfold get_file_icon_and_color.
    destruct (decide (type f = PDF)); simpl; split; try done.
  - unfold get_file_stats. cbn [fst snd]. rewrite sum_ones_length.
    unfold len.
    rewrite (length_filter_split (λ f, type f = PDF) (uploaded_files s)).
    assert (Heq : filter (λ f, (get_file_icon_and_color (type f)).1 = "📊")
                    (uploaded_files s)
                  = filter (λ f, ¬ type f = PDF) (uploaded_files s)).
    { apply list_filter_iff. intros f. unfold get_file_icon_and_color.
      destruct (decide (type f = PDF)); simpl; split; try done. }
    rewrite Heq. lia.
Qed.

(** ** Which row is deleted *)

Lemma first_pressed_spec inp n : ∀ start,
  match first_pressed inp start n with
  | Some i => pressed inp (delete_key i) = true
              ∧ ∀ j, (start ≤ j < i)%Z → pressed inp (delete_key j) = false
  | None => ∀ j, (start ≤ j < start + Z.of_nat n)%Z →
                 pressed inp (delete_key j) = false
  end.
Proof.
  induction n as [|n IH]; intros start; simpl; [intros j; lia|].
  destruct (pressed inp (delete_key start)) eqn:Hp.
  - split; [done|]. intros j; lia.
  - specialize (IH (start + 1)%Z).
    destruct (first_pressed inp (start + 1) n) as [i|].
    + destruct IH as [Hi Hbefore]. split; [done|]. intros j Hj.
      destruct (decide (j = start)) as [->|]; [done|]. apply Hbefore. lia.
    + intros j Hj.
      destruct (decide (j = start)) as [->|]; [done|]. apply IH. lia.
Qed.

Lemma first_pressed_quiet inp n start :
  (∀ k, pressed inp k = false) → first_pressed inp start n = None.
Proof.
  intros Hq. revert start. induction n as [|n IH]; intros start; simpl;
    [done|]. by rewrite Hq.
Qed.

(** X13. Drawing the list never raises as long as the stored sizes are
    below the overflow bound: [delete_file] is only ever called with the
    index of a row that exists. When no delete button is pressed all rows
    are drawn and the list and the disk are as before; otherwise exactly
    the first row whose button is pressed is removed and the run ends in
    the rerun, whatever other buttons are pressed. *)
Theorem render_file_list_deletes_first_pressed
    (upper : string → string) (inp : Inputs) (v : View) :
  sizes_fit (app v) →
  (∀ e, snd (render_file_list upper inp v) ≠ Stops (Raised e))
  ∧ match first_pressed inp 0 (length (uploaded_files (app v))) with
    | None =>
        snd (render_file_list upper inp v) = Returns tt
        ∧ same_store (app v) (app (fst (render_file_list upper inp v)))
    | Some i =>
        (0 ≤ i < len (uploaded_files (app v)))%Z
        ∧ pressed inp (delete_key i) = true
        ∧ (∀ j, (0 ≤ j < i)%Z → pressed inp (delete_key j) = false)
        ∧ snd (render_file_list upper inp v) = Stops RerunException
        ∧ uploaded_files (app (fst (render_file_list upper inp v)))
          = delete (Z.to_nat i) (uploaded_files (app v))
    end.
Proof.
  intros Hfit. destruct (render_file_list_run upper inp v Hfit) as [_ Hrun].
  pose proof (first_pressed_spec inp (length (uploaded_files (app v))) 0)
    as Hspec.
  pose proof (first_pressed_range inp (length (uploaded_files (app v))) 0)
    as Hrange.
  destruct (first_pressed inp 0 (length (uploaded_files (app v)))) as [i|].
  - destruct Hrun as [Hr Hs]. specialize (Hrange i eq_refl).
    destruct Hspec as [Hi Hbefore].
    split; [intros e; by rewrite Hr|]. unfold len.
    split_and!; [lia|lia|done|done|done|].
    destruct (delete_file_run (app v) i (Z.to_nat i)) as (e & He & Hdel);
      [apply position_in_range; lia|].
    rewrite Hdel in Hs. by destruct Hs as [<- _].
  - destruct Hrun as [Hr Hs]. split; [intros e; by rewrite Hr|]. by split.
Qed.

Lemma render_file_list_deletes_first_pressed_witness :
  (∀ e, snd (render_file_list upper_ascii
               (press "delete_1" [a_pdf; b_pptx]) two_files_view)
        ≠ Stops (Raised e))
  ∧ (0 ≤ 1 < len (uploaded_files (app two_files_view)))%Z
  ∧ pressed (press "delete_1" [a_pdf; b_pptx]) (delete_key 1) = true
  ∧ (∀ j, (0 ≤ j < 1)%Z →
          pressed (press "delete_1" [a_pdf; b_pptx]) (delete_key j) = false)
  ∧ snd (render_file_list upper_ascii
           (press "delete_1" [a_pdf; b_pptx]) two_files_view)
    = Stops RerunException
  ∧ uploaded_files
      (app (fst (render_file_list upper_ascii
                   (press "delete_1" [a_pdf; b_pptx]) two_files_view)))
    = delete (Z.to_nat 1) (uploaded_files (app two_files_view)).
Proof.
  apply (render_file_list_deletes_first_pressed upper_ascii
           (press "delete_1" [a_pdf; b_pptx]) two_files_view).
  repeat constructor.
Defined.

(** ** A run of the script *)

Lemma process_uploads_raises batch s e :
  snd (process_uploads batch s) = Stops (Raised e) →
  ∃ file fault,
    upload_fault s batch = Some (file, fault)
    ∧ file ∈ batch
    ∧ Disk.faults (disk s) (path_join UPLOAD_DIR (file_name file)) = Some fault
    ∧ fault_error fault = e.
Proof.
  rewrite process_uploads_outcome.
  destruct (upload_fault s batch) as [[file fault]|] eqn:E.
  - intros [= <-]. exists file, fault.
    destruct (upload_fault_elem _ _ _ _ E) as (Hin & _ & _ & Hbad).
    by split_and!.
  - by destruct (taken s batch).
Qed.

Lemma ending_raises inp s e :
  ending (next_action inp s) s = Stops (Raised e) →
  snd (process_uploads (chosen inp) s) = Stops (Raised e).
Proof.
  unfold next_action.
  destruct (is_nil (fresh_items (names s) (chosen inp))).
  - destruct (first_pressed inp 0 (length (uploaded_files s)));
      [cbn [ending]; intros H; discriminate H|].
    destruct (negb (is_nil (uploaded_files s))
              && pressed inp "🧹 Clear All Files");
      cbn [ending]; intros H; discriminate H.
  - cbn [ending].
    destruct (snd (process_uploads (chosen inp) s)) as [b|sig];
      intros H; [discriminate H|by inversion H].
Qed.

(** X14. With the stored sizes below the overflow bound, a run of [main]
    goes one of these ways. If reading [styles.css] raises, the exception
    leaves the script at once and the list and the disk stay as they
    were. Otherwise the run lets at most one handler act, chosen in this
    order: the upload if it has something to add, else the deletion of the
    first row whose button is pressed, else the clearing if the list is
    not empty and its button is pressed. Without such an action the run
    goes to its end and leaves the list and the disk as they were; with
    one, the list and the disk are those the handler leaves, and the run
    ends in the rerun, or, for an upload, in the exception of the write
    that went wrong. Nothing else raises: an exception that leaves such a
    run is the one of the write of an uploaded file. *)
Theorem main_performs_next_action
    (upper : string → string) (inp : Inputs) (v : View) :
  sizes_fit (started v) →
  (∀ e, styles_css inp = Some (inl e) →
        snd (main upper inp v) = Stops (Raised e)
        ∧ same_session v (fst (main upper inp v)))
  ∧ (css_loads inp →
     snd (main upper inp v)
       = ending (next_action inp (started v)) (started v)
     ∧ same_store (act (next_action inp (started v)) (started v))
         (app (fst (main upper inp v)))
     ∧ initialised (fst (main upper inp v)) = true
     ∧ (next_action inp (started v) = None →
        snd (main upper inp v) = Returns tt)
     ∧ (∀ index, next_action inp (started v) = Some (DeleteAt index) →
                 snd (main upper inp v) = Stops RerunException)
     ∧ (next_action inp (started v) = Some ClearAll →
        snd (main upper inp v) = Stops RerunException)
     ∧ (next_action inp (started v) = Some (AddFiles (chosen inp)) →
        snd (main upper inp v)
        = match upload_fault (started v) (chosen inp) with
          | None => Stops RerunException
          | Some (_, fault) => Stops (Raised (fault_error fault))
          end)
     ∧ ∀ e, snd (main upper inp v) = Stops (Raised e) →
            ∃ file fault,
              upload_fault (started v) (chosen inp) = Some (file, fault)
              ∧ file ∈ chosen inp
              ∧ Disk.faults (disk (started v))
                  (path_join UPLOAD_DIR (file_name file)) = Some fault
              ∧ fault_error fault = e).
Proof.
  intros Hfit. split.
  - intros e Hcss. by apply main_css_raises.
  - intros Hcss. destruct (main_run upper inp v Hcss Hfit) as (Hi & Hr & Hs).
    split_and!; try done.
    + intros Hnone. by rewrite Hr, Hnone.
    + intros index Hdel. by rewrite Hr, Hdel.
    + intros Hclear. by rewrite Hr, Hclear.
    + intros Hadd. rewrite Hr, Hadd. simpl.
      assert (Hne : fresh_items (names (started v)) (chosen inp) ≠ []).
      { intros E. unfold next_action in Hadd. rewrite E in Hadd. simpl in Hadd.
        destruct (first_pressed inp 0 (length (uploaded_files (started v))));
          [done|].
        by destruct (negb (is_nil (uploaded_files (started v)))
                     && pressed inp "🧹 Clear All Files"). }
      rewrite process_uploads_outcome.
      destruct (upload_fault (started v) (chosen inp)) as [[f fault]|] eqn:E;
        [done|].
      rewrite (taken_all _ _ E).
      by destruct (fresh_items (names (started v)) (chosen inp)).
    + intros e He. rewrite Hr in He.
      by apply process_uploads_raises, ending_raises.
Qed.

Lemma main_performs_next_action_witness :
  snd (main upper_ascii (press "🧹 Clear All Files" [a_pdf]) two_files_view)
    = Stops RerunException
  ∧ same_store (run ClearAll two_files)
      (app (fst (main upper_ascii (press "🧹 Clear All Files" [a_pdf])
                   two_files_view)))
  ∧ snd (main upper_ascii (quiet [b_pptx; a_pdf; c_pdf]) read_only_view)
    = Stops (Raised (OSErr PermissionError))
  ∧ snd (main upper_ascii undecodable_css two_files_view)
    = Stops (Raised UnicodeDecodeError).
Proof.
  assert (Hfit : sizes_fit (started two_files_view)) by repeat constructor.
  assert (Hcss : ∀ key files, css_loads (press key files))
    by (intros key files e; discriminate).
  destruct (main_performs_next_action upper_ascii
              (press "🧹 Clear All Files" [a_pdf]) two_files_view Hfit)
    as (_ & Hrun).
  destruct (Hrun (Hcss _ _)) as (_ & Hstore & _ & _ & _ & Hclear & _).
  destruct (main_performs_next_action upper_ascii
              (quiet [b_pptx; a_pdf; c_pdf]) read_only_view)
    as (_ & Hrun'); [constructor|].
  destruct Hrun' as (_ & _ & _ & _ & _ & _ & Hadd & _);
    [intros e; discriminate|].
  destruct (main_performs_next_action upper_ascii undecodable_css
              two_files_view Hfit) as (Hbad & _).
  destruct (Hbad UnicodeDecodeError eq_refl) as (Hraise & _).
  split_and!.
  - apply Hclear. reflexivity.
  - exact Hstore.
  - rewrite Hadd; reflexivity.
  - exact Hraise.
Defined.

(** ** Runs in a row *)

Lemma fresh_items_nil_present batch existing :
  fresh_items existing batch = [] →
  Forall (λ file, file_name file ∈ existing) batch.
Proof.
  intros Hnil. pose proof (fresh_items_absorbed batch existing) as H.
  rewrite Hnil in H. simpl in H. by rewrite app_nil_r in H.
Qed.

Lemma sizes_fit_same_store s s' :
  same_store s s' → sizes_fit s → sizes_fit s'.
Proof. intros [Hfiles _]. unfold sizes_fit. by rewrite Hfiles. Qed.

Lemma run_keeps_sizes a s :
  (∀ batch, a = AddFiles batch →
            Forall (λ file, (len (file_buffer file) < overflow_size)%Z) batch) →
  sizes_fit s → sizes_fit (run a s).
Proof.
  intros Hbatch Hfit. unfold sizes_fit in *. destruct a as [batch|index|]; simpl.
  - rewrite process_uploads_store. apply Forall_app. split; [done|].
    apply Forall_fmap, Forall_forall. intros file Hin. simpl.
    specialize (Hbatch batch eq_refl).
    apply taken_subset in Hin.
    by eapply Forall_forall in Hbatch.
  - destruct (position (length (uploaded_files s)) index) as [p|] eqn:Hp;
      [|by rewrite delete_file_raises].
    destruct (delete_file_run s index p Hp) as (entry & He & ->). simpl.
    apply Forall_forall. intros other Hother.
    apply list_elem_of_delete_inv in Hother.
    by eapply Forall_forall in Hfit.
  - rewrite clear_all_files_run. constructor.
Qed.

Lemma healthy_same_store s s' : same_store s s' → healthy s → healthy s'.
Proof.
  intros [Hfiles Hdisk] (Hnd & Hback & Hfit). unfold healthy, names, sizes_fit in *.
  by rewrite <- Hfiles, <- Hdisk.
Qed.

Lemma run_keeps_healthy a s :
  (∀ batch, a = AddFiles batch →
            Forall (λ file, (len (file_buffer file) < overflow_size)%Z) batch) →
  plain_action a →
  healthy s → healthy (run a s).
Proof.
  intros Hbatch Hplain (Hnd & Hback & Hfit). split_and!.
  - by apply run_keeps_names_distinct.
  - by apply run_keeps_backed.
  - by apply run_keeps_sizes.
Qed.

Lemma main_keeps_healthy upper inp v :
  payloads_fit inp → plain_names inp → healthy (started v) →
  healthy (started (fst (main upper inp v))).
Proof.
  intros Hpay Hplain Hv. pose proof Hv as (_ & _ & Hfit).
  destruct (styles_css inp) as [[e|text]|] eqn:Hcss.
  { destruct (main_css_raises upper inp v e Hcss) as [_ Hsame].
    by apply (healthy_same_store _ _ (started_same_session _ _ Hsame)). }
  all: destruct (main_run upper inp v) as (Hi & _ & Hs);
    [by intros e; rewrite Hcss|done|].
  all: unfold started at 1; rewrite Hi.
  all: apply (healthy_same_store _ _ Hs).
  all: unfold next_action, act.
  all: destruct (is_nil (fresh_items (names (started v)) (chosen inp)));
    [|apply run_keeps_healthy; [by intros batch [= <-]|done..]].
  all: destruct (first_pressed inp 0 (length (uploaded_files (started v))));
    [apply run_keeps_healthy; [discriminate|done..]|].
  all: destruct (negb (is_nil (uploaded_files (started v)))
                 && pressed inp "🧹 Clear All Files"); [|done].
  all: apply run_keeps_healthy; [discriminate|done..].
Qed.

Lemma after_runs_healthy upper inps : ∀ v,
  Forall payloads_fit inps → Forall plain_names inps →
  healthy (started v) →
  healthy (started (after_runs upper inps v)).
Proof.
  induction inps as [|inp inps IH]; intros v Hpay Hplain Hv; [done|].
  inversion Hpay as [|? ? Hinp Hrest]; subst.
  inversion Hplain as [|? ? Hinp' Hrest']; subst.
  apply IH; [done..|]. by apply main_keeps_healthy.
Qed.

(** X15. What can go wrong in a session is input and output only. Start a
    new session (no [uploaded_files] key yet) and let [main] run any
    number of times, with whatever buttons pressed, on uploads with plain
    file names and payloads below the overflow bound, and with writes and
    removals failing or not. Then in the state the next run starts from
    the names are distinct, every entry is backed by the disk and the
    sizes are below the bound; and if that run raises, whatever its inputs
    are, the exception is the one of reading [styles.css] or the one of
    writing one of its uploaded files. *)
Theorem session_raises_only_io_errors
    (upper : string → string) (inps : list Inputs) (inp : Inputs)
    (v0 : View) :
  initialised v0 = false →
  Forall payloads_fit inps →
  Forall plain_names inps →
  healthy (started (after_runs upper inps v0))
  ∧ ∀ e, snd (main upper inp (after_runs upper inps v0)) = Stops (Raised e) →
         styles_css inp = Some (inl e)
         ∨ ∃ file fault,
             file ∈ chosen inp
             ∧ Disk.faults (disk (started (after_runs upper inps v0)))
                 (path_join UPLOAD_DIR (file_name file)) = Some fault
             ∧ fault_error fault = e.
Proof.
  intros Hnew Hpay Hplain.
  assert (Hh : healthy (started (after_runs upper inps v0))).
  { apply after_runs_healthy; [done..|].
    unfold started. rewrite Hnew. split_and!; constructor. }
  split; [done|]. destruct Hh as (_ & _ & Hfit). intros e He.
  destruct (styles_css inp) as [[e'|text]|] eqn:Hcss.
  { left. destruct (main_css_raises upper inp (after_runs upper inps v0) e' Hcss)
      as [Hr _]. congruence. }
  all: right.
  all: destruct (main_run upper inp (after_runs upper inps v0))
    as (_ & Hr & _); [by intros e0; rewrite Hcss|done|].
  all: rewrite Hr in He.
  all: apply ending_raises, process_uploads_raises in He
    as (file & fault & _ & Hin & Hbad & Herr).
  all: by exists file, fault.
Qed.

Lemma session_raises_only_io_errors_witness :
  healthy (started (after_runs upper_ascii
                      [quiet [a_pdf; b_pptx];
                       press "delete_0" [b_pptx; a_pdf; c_pdf]]
                      read_only_view))
  ∧ ∀ e, snd (main upper_ascii (quiet [c_pdf; a_pdf])
                (after_runs upper_ascii
                   [quiet [a_pdf; b_pptx];
                    press "delete_0" [b_pptx; a_pdf; c_pdf]]
                   read_only_view)) = Stops (Raised e) →
         styles_css (quiet [c_pdf; a_pdf]) = Some (inl e)
         ∨ ∃ file fault,
             file ∈ chosen (quiet [c_pdf; a_pdf])
             ∧ Disk.faults
                 (disk (started (after_runs upper_ascii
                                   [quiet [a_pdf; b_pptx];
                                    press "delete_0" [b_pptx; a_pdf; c_pdf]]
                                   read_only_view)))
                 (path_join UPLOAD_DIR (file_name file)) = Some fault
             ∧ fault_error fault = e.
Proof.
  assert (Hplain : ∀ n, n ∈ ["a.pdf"; "b.pptx"; "c.pdf"] → plain_name n).
  { intros n Hn. repeat (apply elem_of_cons in Hn as [->|Hn]);
      [..|by apply elem_of_nil in Hn];
      (split_and!; [discriminate..|]);
      apply (bool_decide_unpack _); vm_compute; reflexivity. }
  apply (session_raises_only_io_errors upper_ascii
           [quiet [a_pdf; b_pptx]; press "delete_0" [b_pptx; a_pdf; c_pdf]]
           (quiet [c_pdf; a_pdf]) read_only_view).
  - reflexivity.
  - repeat constructor.
  - repeat constructor; apply Hplain; set_solver.
Defined.

(** X16. The reruns come to rest: run [main] with no button pressed; if
    that run does not raise, the next run with the same inputs runs to its
    end and leaves the list and the disk as they are. An upload therefore
    triggers one rerun, not a loop. *)
Theorem reruns_settle (upper : string → string) (inp : Inputs) (v : View) :
  (∀ key, pressed inp key = false) →
  payloads_fit inp →
  sizes_fit (started v) →
  (∀ e, snd (main upper inp v) ≠ Stops (Raised e)) →
  snd (main upper inp (fst (main upper inp v))) = Returns tt
  ∧ same_store (app (fst (main upper inp v)))
      (app (fst (main upper inp (fst (main upper inp v))))).
Proof.
  intros Hquiet Hpay Hfit Hok.
  assert (Hcss : css_loads inp).
  { intros e Hbad. apply (Hok e). by apply main_css_raises. }
  destruct (main_run upper inp v Hcss Hfit) as (Hi & Hr & Hs).
  set (v1 := fst (main upper inp v)) in *.
  assert (Hstart : started v1 = app v1) by (unfold started; by rewrite Hi).
  assert (Hfirst : next_action inp (started v)
                   = if is_nil (fresh_items (names (started v)) (chosen inp))
                     then None else Some (AddFiles (chosen inp))).
  { unfold next_action. rewrite first_pressed_quiet, Hquiet by done.
    by rewrite andb_false_r. }
  rewrite Hfirst in Hs, Hr.
  assert (Hall : Forall (λ file, file_name file ∈ names (app v1)) (chosen inp)
                 ∧ sizes_fit (app v1)).
  { destruct (fresh_items (names (started v)) (chosen inp)) as [|k kept] eqn:E;
      cbn [is_nil act ending] in Hs, Hr.
    - split; [|by eapply sizes_fit_same_store].
      rewrite <- (names_same_store _ _ Hs). by apply fresh_items_nil_present.
    - assert (Hfault : upload_fault (started v) (chosen inp) = None).
      { apply no_raise_no_fault. intros e He. apply (Hok e).
        by rewrite Hr, He. }
      split.
      + rewrite <- (names_same_store _ _ Hs). simpl.
        rewrite process_uploads_names, (taken_all _ _ Hfault).
        apply fresh_items_absorbed.
      + eapply sizes_fit_same_store; [exact Hs|].
        apply run_keeps_sizes; [|done]. by intros batch [= <-]. }
  destruct Hall as [Hall Hfit1].
  destruct (main_run upper inp v1 Hcss) as (_ & Hr2 & Hs2);
    [by rewrite Hstart|].
  rewrite Hstart in Hr2, Hs2.
  assert (Hsecond : next_action inp (app v1) = None).
  { unfold next_action. rewrite fresh_items_all_present by done.
    rewrite first_pressed_quiet, Hquiet by done.
    simpl. by rewrite andb_false_r. }
  rewrite Hsecond in Hr2, Hs2. by split.
Qed.

Lemma reruns_settle_witness :
  snd (main upper_ascii (quiet [a_pdf; b_pptx])
         (fst (main upper_ascii (quiet [a_pdf; b_pptx]) fresh_view)))
    = Returns tt
  ∧ same_store
      (app (fst (main upper_ascii (quiet [a_pdf; b_pptx]) fresh_view)))
      (app (fst (main upper_ascii (quiet [a_pdf; b_pptx])
                   (fst (main upper_ascii (quiet [a_pdf; b_pptx])
                           fresh_view))))).
Proof.
  apply (reruns_settle upper_ascii (quiet [a_pdf; b_pptx]) fresh_view).
  - reflexivity.
  - repeat constructor.
  - constructor.
  - intros e. vm_compute. discriminate.
Defined.



(** ** The type label of a row *)

Lemma getitem_last {A} (l : list A) : getitem l (-1) = last l.
Proof.
  unfold getitem, position. rewrite last_lookup.
  destruct (Z.leb_spec 0 (-1)); [lia|].
  destruct l as [|x l]; [done|].
  destruct (Z.leb_spec (- Z.of_nat (length (x :: l))) (-1));
    [|simpl in *; lia].
  simpl. f_equal. lia.
Qed.

Lemma str_split_app sep a b :
  ∃ word words,
    str_split sep (a +:+ String sep b) = word :: words ++ str_split sep b.
Proof.
  induction a as [|c a (word & words & IH)]; simpl.
  - destruct (decide (sep = sep)); [|done]. by exists EmptyString, [].
  - rewrite IH. destruct (decide (c = sep)).
    + by exists EmptyString, (word :: words).
    + by exists (String c word), words.
Qed.

(** X18. The label of a row is what follows the last slash of the type,
    upper-cased: for a type [a/b] with no slash in [b] the rows show
    [upper(b)], and a type without any slash is shown whole. *)
Theorem last_part_after_slash (a b : string) :
  slash ∉ chars b →
  last_part (a +:+ String slash b) = b ∧ last_part b = b.
Proof.
  intros Hb. unfold last_part. rewrite !getitem_last. split.
  - destruct (str_split_app slash a b) as (word & words & ->).
    rewrite str_split_no_sep by done.
    rewrite app_comm_cons, last_snoc. done.
  - by rewrite str_split_no_sep.
Qed.

Lemma last_part_after_slash_witness :
  last_part ("application" +:+ String slash "pdf") = "pdf"
  ∧ last_part "pdf" = "pdf".
Proof.
  apply (last_part_after_slash "application" "pdf").
  apply (bool_decide_unpack _). vm_compute. reflexivity.
Defined.
